(** * oio.rdir.client: the rdir assignment dispatcher and the rdir client

    A shallow embedding of [src/oio/rdir/client.py] (Python 2).  The two
    classes of the module, [RdirDispatcher] and [RdirClient], talk to three
    remote collaborators (the conscience, the service directory and the
    rdir HTTP services).  Every remote call is answered by a [Backend]
    whose reply may depend on the whole history of calls made so far, and
    every call (and every [sleep]) is recorded in a trace, so that the
    statements below can count attempts, read the arguments of a call and
    tell the read path from the write path.

    Not modelled: logging, the [**kwargs] passed through to the gateways
    and the request-id headers added by the decorators of
    [_rdir_request].  Messages that the source formats from Python
    values are abridged. *)

From Stdlib Require Import ZArith QArith String Ascii List Lia.
From stdpp Require Import base option list gmap strings.

Local Open Scope string_scope.
Local Open Scope list_scope.
Local Open Scope Z_scope.

(* ===================================================================== *)
(** ** Exceptions *)
(* ===================================================================== *)

Module Exc.

(** Modelled from the spec: the exception classes of
    [oio.common.exceptions], which the module imports but which are not
    part of this slice.  Section 7 of the spec separates the network
    failure (transport level) from the application error that carries a
    numeric status; [NotFound] is an application error; every class but
    the three Python built-ins at the end derives from [OioException]. *)
Inductive exn_class :=
| NotFound
| ClientException
| ServerException
| ServiceUnavailable
| OioNetworkException
| VolumeException
| OioException
| KeyError
| ValueError
| UnboundLocalError.

#[global] Instance exn_class_eq_dec : EqDecision exn_class.
Proof. solve_decision. Defined.

(** An exception object: its class, the [status] attribute ([None] in
    Python when the reply carried no status), the [message] attribute and
    the extra leading argument that [reraise] adds. *)
Record exn := Exn {
  exc_class : exn_class;
  exc_status : option Z;
  exc_message : string;
  exc_extra : option string
}.

#[global] Instance exn_eq_dec : EqDecision exn.
Proof. solve_decision. Defined.

(** [isinstance(e, ClientException)] *)
Definition is_ClientException (e : exn) : bool :=
  match exc_class e with
  | NotFound | ClientException => true
  | _ => false
  end.

(** [isinstance(e, NotFound)] *)
Definition is_NotFound (e : exn) : bool :=
  match exc_class e with
  | NotFound => true
  | _ => false
  end.

(** [isinstance(e, OioNetworkException)] *)
Definition is_OioNetworkException (e : exn) : bool :=
  match exc_class e with
  | OioNetworkException => true
  | _ => false
  end.

(** [isinstance(e, OioException)] *)
Definition is_OioException (e : exn) : bool :=
  match exc_class e with
  | KeyError | ValueError | UnboundLocalError => false
  | _ => true
  end.

(** An exception built with a message only, as [ServiceUnavailable(msg)]. *)
Definition mk (c : exn_class) (msg : string) : exn := Exn c None msg None.

End Exc.
Export Exc.

(* ===================================================================== *)
(** ** Data model *)
(* ===================================================================== *)

(** A service record as the conscience returns it.  The tag map is typed
    by key family, as the conscience publishes it: the [stat.*] tags are
    integers and live in [tags]; the only string tag the module reads,
    [tag.service_id], is [service_id]. *)
Record service := Service {
  addr : string;
  score : Z;
  tags : gmap string Z;
  service_id : option string
}.

(** One entry of the ['srv'] list of a directory listing. *)
Record srv_entry := SrvEntry {
  srv_type : string;
  srv_host : string
}.

(** The link record written by [directory.force]. *)
Record link := Link {
  link_host : string;
  link_type : string;
  link_seq : Z;
  link_args : string;
  link_id : string
}.

(** A candidate returned by the load balancer. *)
Record candidate := Candidate {
  cand_id : string;
  cand_addr : string
}.

(** The JSON body of a [fetch] request: a dict with the key ['limit'] and
    the optional keys ['rebuild'], ['container_id'] and ['start_after']. *)
Record fetch_req := FetchReq {
  req_limit : Z;
  req_rebuild : bool;
  req_container_id : option string;
  req_start_after : option string
}.

(** The body of an rdir reply: a JSON list of [key, value] pairs; the
    values are kept as opaque text. *)
Definition body := list (string * string).

Definition RDIR_ACCT : string := "_RDIR".
Definition JOKER_SVC_TARGET : string := "__any_slot".

Definition _make_id (ns type_ addr : string) : string :=
  ns +:+ "|" +:+ type_ +:+ "|" +:+ addr.

(* ===================================================================== *)
(** ** Events, backends and the monad of the module *)
(* ===================================================================== *)

Inductive event :=
| EvAllServices (type_ : string) (full : bool)
| EvPoll (pool : string) (avoid known : option (list string))
| EvCreatePool (pool : string) (targets : list (Z * string))
| EvDirList (acct ref srvtype : string)
| EvDirForce (acct ref srvtype : string) (forced : link) (autocreate : bool)
| EvRequest (method uri : string) (params : gmap string string)
            (json : option fetch_req)
| EvSleep (seconds : nat).

Inductive result (A : Type) :=
| Ok (a : A)
| Raise (e : exn).
Arguments Ok {A} a.
Arguments Raise {A} e.

(** The remote collaborators.  Each function receives the history of
    events up to the call, so a backend may answer the same call
    differently over time. *)
Record Backend := {
  cs_all_services : list event -> string -> bool -> result (list service);
  cs_poll : list event -> string -> option (list string) ->
            option (list string) -> result (list candidate);
  cs_create_pool : list event -> string -> list (Z * string) -> result unit;
  directory_list : list event -> string -> string -> string ->
                   result (list srv_entry);
  directory_force : list event -> string -> string -> string -> link ->
                    bool -> result unit;
  direct_request : list event -> string -> string ->
                   gmap string string -> option fetch_req ->
                   result body
}.

(** The state of the process: the trace and [RdirClient._addr_cache]. *)
Record state := State {
  trace : list event;
  addr_cache : gmap string string
}.

Definition M (A : Type) : Type := state -> result A * state.

Definition ret {A} (a : A) : M A := fun st => (Ok a, st).
Definition raise {A} (e : exn) : M A := fun st => (Raise e, st).

Definition bind {A B} (m : M A) (k : A -> M B) : M B :=
  fun st =>
    match m st with
    | (Ok a, st') => k a st'
    | (Raise e, st') => (Raise e, st')
    end.

(** [try m except ...]: the handler sees the exception and decides. *)
Definition try_except {A} (m : M A) (h : exn -> M A) : M A :=
  fun st =>
    match m st with
    | (Ok a, st') => (Ok a, st')
    | (Raise e, st') => h e st'
    end.

Declare Scope rdir_scope.
Delimit Scope rdir_scope with rdir.
Notation "x <- m ;; k" := (bind m (fun x => k))
  (at level 100, m at next level, right associativity) : rdir_scope.
Notation "m ;;; k" := (bind m (fun _ => k))
  (at level 100, right associativity) : rdir_scope.
Local Open Scope rdir_scope.

Definition log_event (ev : event) (st : state) : state :=
  State (trace st ++ [ev]) (addr_cache st).

(** A remote call: the backend answers from the history, the call is
    recorded. *)
Definition call {A} (answer : list event -> result A) (ev : event) : M A :=
  fun st => (answer (trace st), log_event ev st).

Definition sleep (seconds : nat) : M unit :=
  fun st => (Ok tt, log_event (EvSleep seconds) st).

(* ===================================================================== *)
(** ** Strings *)
(* ===================================================================== *)

(** [s.split(sep)] for a one-character separator. *)
Fixpoint split_on (sep : ascii) (s : string) : list string :=
  match s with
  | EmptyString => [EmptyString]
  | String c s' =>
      if Ascii.eqb c sep then EmptyString :: split_on sep s'
      else match split_on sep s' with
           | p :: ps => String c p :: ps
           | [] => [String c EmptyString]
           end
  end.

(** [sub in s] *)
Fixpoint contains (sub s : string) : bool :=
  String.prefix sub s ||
  match s with
  | EmptyString => false
  | String _ s' => contains sub s'
  end.

(** [str(l)] for a list of strings. *)
Definition py_str_list (l : list string) : string :=
  "[" +:+ String.concat ", " (map (fun s => "'" +:+ s +:+ "'") l) +:+ "]".

(* ===================================================================== *)
(** ** RdirClient *)
(* ===================================================================== *)

Definition _filter_rdir_host (allsrv : list srv_entry) : result string :=
  match List.find (fun srv => String.eqb (srv_type srv) "rdir") allsrv with
  | Some srv => Ok (srv_host srv)
  | None => Raise (mk NotFound "No rdir service found")
  end.

Definition lift {A} (r : result A) : M A := fun st => (r, st).

Section Client.

Variable b : Backend.

Definition base_url (service_type : string) : option string :=
  if String.eqb service_type "rawx" then Some "rdir"
  else if String.eqb service_type "meta2" then Some "rdir/meta2"
  else None.

Definition _clear_cache (volume_id : string) : M unit :=
  fun st => (Ok tt, State (trace st) (delete volume_id (addr_cache st))).

Definition _get_rdir_addr (volume_id : string) : M string :=
  fun st =>
    match addr_cache st !! volume_id with
    | Some host => (Ok host, st)
    | None =>
        try_except
          (resp <- call (fun tr => directory_list b tr RDIR_ACCT volume_id "rdir")
                        (EvDirList RDIR_ACCT volume_id "rdir") ;;
           host <- lift (_filter_rdir_host resp) ;;
           fun st' =>
             (Ok host, State (trace st') (<[volume_id := host]> (addr_cache st'))))
          (fun e =>
             if is_NotFound e
             then raise (mk VolumeException
                           ("No rdir assigned to volume " +:+ volume_id))
             else raise e)
          st
    end.

Definition _make_uri (action volume_id service_type : string) : M string :=
  rdir_host <- _get_rdir_addr volume_id ;;
  match base_url service_type with
  | Some prefix =>
      ret ("http://" +:+ rdir_host +:+ "/v1/" +:+ prefix +:+ "/" +:+ action)
  | None => raise (mk KeyError service_type)
  end.

Definition _rdir_request (volume method action : string) (create : bool)
    (params : option (gmap string string)) (service_type : string)
    (json : option fetch_req) : M body :=
  let params := default ∅ params in
  let params := <["vol" := volume]> params in
  let params := if create then <["create" := "1"]> params else params in
  uri <- _make_uri action volume service_type ;;
  try_except
    (call (fun tr => direct_request b tr method uri params json)
          (EvRequest method uri params json))
    (fun e =>
       if is_OioNetworkException e
       then (_clear_cache volume ;;; raise e)
       else raise e).

(** [RdirClient.create] *)
Definition create (volume_id service_type : string) : M unit :=
  _rdir_request volume_id "POST" "create" false None service_type None ;;;
  ret tt.

(** *** chunk_fetch *)

Definition chunk_tuple : Type := string * string * string * string.

(** How a run of the generator ends: the [while] loop was left by
    [break], an exception escaped, or the model ran out of fuel. *)
Inductive gen_end :=
| Exhausted
| Raised (e : exn)
| OutOfFuel.

(** The [for i in range(max_attempts)] loop around one page request;
    [n] attempts remain and [i] is the loop index.  Leaving the loop
    without a reply (only when [max_attempts = 0]) leaves [resp_body]
    unbound. *)
Fixpoint fetch_page (volume : string) (req : fetch_req)
    (max_attempts : Z) (n i : nat) : M body :=
  match n with
  | O => raise (mk UnboundLocalError "resp_body")
  | S n' =>
      try_except
        (_rdir_request volume "POST" "fetch" false None "rawx" (Some req))
        (fun e =>
           if is_OioNetworkException e
           then if (Z.of_nat i <? max_attempts - 1)%Z
                then (sleep i ;;; fetch_page volume req max_attempts n' (S i))
                else raise e
           else raise e)
  end.

(** The [for (key, value) in resp_body] loop: the tuples yielded, and
    the exception of the first key that does not split in three. *)
Fixpoint yield_page (recs : body) : list chunk_tuple * option exn :=
  match recs with
  | [] => ([], None)
  | (key, value) :: rest =>
      match split_on "|" key with
      | [container; content; chunk] =>
          let '(ys, err) := yield_page rest in
          ((container, content, chunk, value) :: ys, err)
      | _ => ([], Some (mk ValueError "unpack"))
      end
  end.

(** The [while True] loop; each unit of fuel pays for one page. *)
Fixpoint chunk_fetch_loop (fuel : nat) (volume : string) (max_attempts : nat)
    (req : fetch_req) (st : state) : (list chunk_tuple * gen_end) * state :=
  match fuel with
  | O => (([], OutOfFuel), st)
  | S fuel' =>
      match fetch_page volume req (Z.of_nat max_attempts) max_attempts 0 st with
      | (Raise e, st') => (([], Raised e), st')
      | (Ok resp_body, st') =>
          match resp_body with
          | [] => (([], Exhausted), st')
          | _ =>
              match yield_page resp_body with
              | (ys, Some e) => ((ys, Raised e), st')
              | (ys, None) =>
                  let key := fst <$> last resp_body in
                  let req' := match key with
                              | Some k => FetchReq (req_limit req) (req_rebuild req)
                                            (req_container_id req) (Some k)
                              | None => req
                              end in
                  let '((zs, e), st'') :=
                    chunk_fetch_loop fuel' volume max_attempts req' st' in
                  ((ys ++ zs, e), st'')
              end
          end
      end
  end.

Definition chunk_fetch (fuel : nat) (volume : string) (limit : Z)
    (rebuild : bool) (container_id : option string) (max_attempts : nat)
    : state -> (list chunk_tuple * gen_end) * state :=
  let container_id := match container_id with
                      | Some c => if String.eqb c "" then None else Some c
                      | None => None
                      end in
  chunk_fetch_loop fuel volume max_attempts
    (FetchReq limit rebuild container_id None).

End Client.

(* ===================================================================== *)
(** ** RdirDispatcher *)
(* ===================================================================== *)

(** What [service['rdir']] refers to: the rdir record at some position of
    the list returned by the conscience (the dict is shared, not copied),
    or the placeholder [{"addr": host, "tags": {}}] of the read path. *)
Inductive rdir_ref :=
| Known (idx : nat)
| Placeholder (host : string).

#[global] Instance rdir_ref_eq_dec : EqDecision rdir_ref.
Proof. solve_decision. Defined.

Definition opened_db_count (x : service) : Z :=
  default 0 (tags x !! "stat.opened_db_count").

(** [bool(max_per_rdir)]: [None] and [0] are false. *)
Definition truthy (max_per_rdir : option Z) : bool :=
  match max_per_rdir with
  | Some c => negb (c =? 0)
  | None => false
  end.

(** [x > upper_limit] for an integer [x]; the float of the source is an
    exact rational here. *)
Definition gt_limit (x : Z) (upper_limit : Q) : bool :=
  negb (Qle_bool (inject_Z x) upper_limit).

(** [e.status == n] and [e.status >= n]; in Python 2 [None] is below
    every number. *)
Definition status_eq (e : exn) (n : Z) : bool :=
  match exc_status e with
  | Some s => s =? n
  | None => false
  end.

Definition status_ge (e : exn) (n : Z) : bool :=
  match exc_status e with
  | Some s => n <=? s
  | None => false
  end.

Definition status_in (e : exn) (l : list Z) : bool :=
  existsb (status_eq e) l.

Arguments status_eq : simpl never.
Arguments status_ge : simpl never.
Arguments status_in : simpl never.

Definition ALREADY0 : string :=
  "META1 error: (SQLITE_CONSTRAINT) UNIQUE constraint failed".
Definition ALREADY1 : string :=
  "META1 error: (SQLITE_CONSTRAINT) columns cid, srvtype, seq are not unique".

(** [{_make_id(ns, 'rdir', x['addr']): x for x in all_rdir}], from
    position [i] on: a later record with the same address wins. *)
Fixpoint index_by_id (ns : string) (i : nat) (all_rdir : list service)
    (by_id : gmap string rdir_ref) : gmap string rdir_ref :=
  match all_rdir with
  | [] => by_id
  | x :: rest =>
      index_by_id ns (S i) rest (<[_make_id ns "rdir" (addr x) := Known i]> by_id)
  end.

(** Modelled from the spec: [oio.common.utils.group_chunk_errors], not
    part of this slice, groups the collected [(volume, error)] pairs by
    normalized error signature; the first error of a group stands for
    it, and a group lists its volumes in the order they failed. *)
Fixpoint group_add {K} `{EqDecision K} (signature : exn -> K)
    (groups : list (exn * list string)) (item : string) (err : exn)
    : list (exn * list string) :=
  match groups with
  | [] => [(err, [item])]
  | (e, items) :: rest =>
      if decide (signature e = signature err)
      then (e, items ++ [item]) :: rest
      else (e, items) :: group_add signature rest item err
  end.

(** Modelled from the spec: the groups of a list of collected errors,
    built one error after the other. *)
Definition group_chunk_errors {K} `{EqDecision K} (signature : exn -> K)
    (errors : list (string * exn)) : list (exn * list string) :=
  fold_left (fun groups '(item, err) => group_add signature groups item err)
            errors [].

(** Modelled from the spec: [oio.common.exceptions.reraise], not part of
    this slice, raises the given kind again with the extra text as
    context. *)
Definition oio_reraise (c : exn_class) (e : exn) (extra : string) : exn :=
  Exn c (exc_status e) (exc_message e) (Some extra).

Section Dispatcher.

Variable b : Backend.
Variable ns : string.

(** The normalization of [group_chunk_errors] and Python's [repr] of the
    dict of groups are left open. *)
Context {K : Type} `{EqDecision K}.
Variable signature : exn -> K.
Variable repr_errors : list (exn * list string) -> string.

Definition poll (avoid known : option (list string)) : M (list candidate) :=
  call (fun tr => cs_poll b tr "__rawx_rdir" avoid known)
       (EvPoll "__rawx_rdir" avoid known).

Definition _poll_rdir (avoid known : option (list string)) : M candidate :=
  svcs <- try_except (poll avoid known)
            (fun exc =>
               if is_ClientException exc
               then if negb (status_eq exc 400) then raise exc
                    else
                      let targets := [(1, JOKER_SVC_TARGET); (1, "rdir")] in
                      (call (fun tr => cs_create_pool b tr "__rawx_rdir" targets)
                            (EvCreatePool "__rawx_rdir" targets) ;;;
                       poll avoid known)
               else raise exc) ;;
  match List.find (fun svc => contains "rdir" (cand_id svc)) svcs with
  | Some svc => ret svc
  | None => raise (mk ServerException "LB returned incoherent result")
  end.

(** The loads of the healthy rdirs. *)
Definition opened_db (all_rdir : list service) : list Z :=
  map opened_db_count (List.filter (fun x => 0 <? score x) all_rdir).

Definition sum (l : list Z) : Z := fold_left Z.add l 0.

(** [sum(opened_db) / float(len(opened_db))], or [max_per_rdir - 1]; the
    quotient is exact here, as the float is for loads below 2^53. *)
Definition upper_limit (max_per_rdir : option Z) (all_rdir : list service) : Q :=
  if negb (truthy max_per_rdir)
  then (inject_Z (sum (opened_db all_rdir)) /
        inject_Z (Z.of_nat (length (opened_db all_rdir))))%Q
  else inject_Z (default 0 max_per_rdir - 1).

Definition avoids (max_per_rdir : option Z) (all_rdir : list service)
    : list string :=
  map (fun x => _make_id ns "rdir" (addr x))
      (List.filter
         (fun x => (0 <? score x) &&
                   gt_limit (opened_db_count x)
                            (upper_limit max_per_rdir all_rdir))
         all_rdir).

(** The [for i in range(max_attempts)] loop around [directory.force];
    [n] attempts remain and [i] is the loop index. *)
Fixpoint force_loop (volume_id : string) (forced : link) (max_attempts : Z)
    (n i : nat) : M unit :=
  match n with
  | O => ret tt
  | S n' =>
      try_except
        (call (fun tr => directory_force b tr RDIR_ACCT volume_id "rdir"
                           forced true)
              (EvDirForce RDIR_ACCT volume_id "rdir" forced true))
        (fun ex =>
           if negb (is_ClientException ex) then raise ex
           else if status_in ex [455] then ret tt
           else if String.prefix ALREADY0 (exc_message ex) then ret tt
           else if String.prefix ALREADY1 (exc_message ex) then ret tt
           else if status_ge ex 400 && negb (status_in ex [406; 450; 503; 504])
           then raise ex
           else if Z.of_nat i <? max_attempts - 1
           then (sleep i ;;; force_loop volume_id forced max_attempts n' (S i))
           else raise ex)
  end.

(** Lines 208 to 250: write the link, create the database, return the
    identifier of the chosen rdir. *)
Definition link_polled (volume_id : string) (max_attempts : nat)
    (service_type : string) (polled : candidate) : M string :=
  let forced := Link (cand_addr polled) "rdir" 1 "" (cand_id polled) in
  force_loop volume_id forced (Z.of_nat max_attempts) max_attempts 0 ;;;
  try_except (create b volume_id service_type) (fun _ => ret tt) ;;;
  ret (cand_id polled).

Definition _smart_link_rdir (volume_id : string) (all_rdir : list service)
    (max_per_rdir : option Z) (max_attempts : nat) (service_type : string)
    : M string :=
  if (Z.of_nat (length (opened_db all_rdir)) <=? 0)
  then raise (mk ServiceUnavailable ("No valid rdir service found in " +:+ ns))
  else
    let known := [_make_id ns service_type volume_id] in
    polled <- try_except
                (_poll_rdir (Some (avoids max_per_rdir all_rdir)) (Some known))
                (fun exc =>
                   if is_ClientException exc
                   then if negb (status_eq exc 481) || truthy max_per_rdir
                        then raise exc
                        else _poll_rdir None (Some known)
                   else raise exc) ;;
    link_polled volume_id max_attempts service_type polled.

(** *** get_assignments *)

Definition all_of_type (service_type : string) (full : bool) : M (list service) :=
  call (fun tr => cs_all_services b tr service_type full)
       (EvAllServices service_type full).

Definition directory_list_rdir (ref : string) : M (list srv_entry) :=
  call (fun tr => directory_list b tr RDIR_ACCT ref "rdir")
       (EvDirList RDIR_ACCT ref "rdir").

(** [ref or service['addr']] with [ref = tags.get('tag.service_id')] *)
Definition read_ref (svc : service) : string :=
  match service_id svc with
  | Some ref => if String.eqb ref "" then addr svc else ref
  | None => addr svc
  end.

(** One turn of the loop of [get_assignments]: the attachment of the
    service, if any, and the updated [by_id]. *)
Definition get_assignment (by_id : gmap string rdir_ref) (svc : service)
    : M (option rdir_ref * gmap string rdir_ref) :=
  try_except
    (resp <- directory_list_rdir (read_ref svc) ;;
     rdir_host <- lift (_filter_rdir_host resp) ;;
     match by_id !! _make_id ns "rdir" rdir_host with
     | Some r => ret (Some r, by_id)
     | None =>
         let loc_rdir := Placeholder rdir_host in
         ret (Some loc_rdir, <[_make_id ns "rdir" rdir_host := loc_rdir]> by_id)
     end)
    (fun exc =>
       if is_NotFound exc then ret (None, by_id)
       else if is_OioException exc then ret (None, by_id)
       else raise exc).

Fixpoint get_assignments_loop (by_id : gmap string rdir_ref)
    (services : list service) : M (list (service * option rdir_ref)) :=
  match services with
  | [] => ret []
  | svc :: rest =>
      r <- get_assignment by_id svc ;;
      out <- get_assignments_loop (snd r) rest ;;
      ret ((svc, fst r) :: out)
  end.

(** An attachment [Known i] points to the record at position [i] of the
    rdir list returned. *)
Definition get_assignments (service_type : string)
    : M (list (service * option rdir_ref) * list service) :=
  all_services <- all_of_type service_type false ;;
  all_rdir <- all_of_type "rdir" true ;;
  let by_id := index_by_id ns 0 all_rdir ∅ in
  out <- get_assignments_loop by_id all_services ;;
  ret (out, all_rdir).

(** *** assign_services *)

(** The state of the loop of [assign_services]: the rdir records (shared
    with [by_id] and with the attachments, updated in place) and the
    errors collected so far. *)
Record assign_state := AssignState {
  rdirs : list service;
  errors : list (string * exn)
}.

Definition provider_id (provider : service) : string :=
  default (addr provider) (service_id provider).

(** [by_id[rdir]['tags']["stat.opened_db_count"] = n_bases + 1] *)
Definition bump (x : service) : service :=
  Service (addr x) (score x)
          (<["stat.opened_db_count" := opened_db_count x + 1]> (tags x))
          (service_id x).

(** One turn of the loop of [assign_services]. *)
Definition assign_provider (service_type : string) (max_per_rdir : option Z)
    (by_id : gmap string rdir_ref) (s : assign_state) (provider : service)
    : M (option rdir_ref * assign_state) :=
  let provider_id := provider_id provider in
  try_except
    (resp <- directory_list_rdir provider_id ;;
     rdir_host <- lift (_filter_rdir_host resp) ;;
     match by_id !! _make_id ns "rdir" rdir_host with
     | Some r => ret (Some r, s)
     | None => ret (None, s)
     end)
    (fun exc =>
       if is_NotFound exc then
         fun st =>
           match _smart_link_rdir provider_id (rdirs s) max_per_rdir 7
                   service_type st with
           | (Raise exc', st') =>
               if is_OioException exc'
               then (Ok (None, AssignState (rdirs s)
                                 (errors s ++ [(provider_id, exc')])), st')
               else (Raise exc', st')
           | (Ok rdir, st') =>
               match by_id !! rdir with
               | Some (Known i) =>
                   match rdirs s !! i with
                   | Some x =>
                       (Ok (Some (Known i),
                            AssignState (<[i := bump x]> (rdirs s)) (errors s)),
                        st')
                   | None => (Raise (mk KeyError rdir), st')
                   end
               | _ => (Raise (mk KeyError rdir), st')
               end
           end
       else if is_OioException exc then
         ret (None, AssignState (rdirs s) (errors s ++ [(provider_id, exc)]))
       else raise exc).

Fixpoint assign_services_loop (service_type : string)
    (max_per_rdir : option Z) (by_id : gmap string rdir_ref)
    (s : assign_state) (providers : list service)
    : M (list (service * option rdir_ref) * assign_state) :=
  match providers with
  | [] => ret ([], s)
  | provider :: rest =>
      r <- assign_provider service_type max_per_rdir by_id s provider ;;
      out <- assign_services_loop service_type max_per_rdir by_id (snd r) rest ;;
      ret ((provider, fst r) :: fst out, snd out)
  end.

(** Lines 147 to 156: what is raised, if anything, once the loop is over. *)
Definition raise_collected {A} (errors : list (string * exn)) (a : A) : M A :=
  match errors with
  | [] => ret a
  | _ =>
      match group_chunk_errors signature errors with
      | [(err, addrs)] =>
          raise (oio_reraise (exc_class err) err (py_str_list addrs))
      | groups =>
          raise (mk OioException
                    ("Several errors encountered: " +:+ repr_errors groups))
      end
  end.

(** The source returns [all_services]; the rdir records that the
    attachments point into are returned with it. *)
Definition assign_services (service_type : string) (max_per_rdir : option Z)
    : M (list (service * option rdir_ref) * list service) :=
  all_services <- all_of_type service_type false ;;
  all_rdir <- all_of_type "rdir" true ;;
  if (Z.of_nat (length all_rdir) <=? 0)
  then raise (mk ServiceUnavailable ("No rdir service found in " +:+ ns))
  else
    let by_id := index_by_id ns 0 all_rdir ∅ in
    out <- assign_services_loop service_type max_per_rdir by_id
             (AssignState all_rdir []) all_services ;;
    raise_collected (errors (snd out)) (fst out, rdirs (snd out)).

End Dispatcher.

(* ===================================================================== *)
(** ** Derived notions used in the statements *)
(* ===================================================================== *)

(** The parameters and the URI that [_rdir_request] sends. *)
Definition request_params (volume : string) (create : bool)
    (params : option (gmap string string)) : gmap string string :=
  let params := <["vol" := volume]> (default ∅ params) in
  if create then <["create" := "1"]> params else params.

Definition request_uri (host prefix action : string) : string :=
  "http://" +:+ host +:+ "/v1/" +:+ prefix +:+ "/" +:+ action.

(** [emits P m]: whatever [m] returns, it only appends events to the
    trace, and each of them satisfies [P]. *)
Definition emits {A} (P : event -> Prop) (m : M A) : Prop :=
  forall st r st', m st = (r, st') ->
    exists tr', trace st' = trace st ++ tr' /\ Forall P tr'.

(** *** Paginated fetch *)

(** The request that follows a page whose last key is [k]. *)
Definition with_cursor (req : fetch_req) (k : string) : fetch_req :=
  FetchReq (req_limit req) (req_rebuild req) (req_container_id req) (Some k).

(** A record whose key is [container|content|chunk]. *)
Definition well_formed_key (rec : string * string) : Prop :=
  length (split_on "|" (fst rec)) = 3%nat.

(** The tuple that stands for a record. *)
Definition is_tuple_of (rec : string * string) (t : chunk_tuple) : Prop :=
  let '(container, content, chunk, value) := t in
  fst rec = container +:+ "|" +:+ content +:+ "|" +:+ chunk /\
  snd rec = value.

(** [serves b volume n req st pages st']: asked from state [st] on, first
    with [req] and after each page with the cursor set to the last key
    of that page, the rdir answers the non-empty pages [pages] and then
    an empty page, which leaves the state [st']. *)
Inductive serves (b : Backend) (volume : string) (max_attempts : nat)
    : fetch_req -> state -> list body -> state -> Prop :=
| serves_last req st st' :
    fetch_page b volume req (Z.of_nat max_attempts) max_attempts 0 st
      = (Ok [], st') ->
    serves b volume max_attempts req st [] st'
| serves_page req st page k v st1 pages st' :
    fetch_page b volume req (Z.of_nat max_attempts) max_attempts 0 st
      = (Ok page, st1) ->
    last page = Some (k, v) ->
    serves b volume max_attempts (with_cursor req k) st1 pages st' ->
    serves b volume max_attempts req st (page :: pages) st'.

(** [if container_id:] keeps a non-empty filter only. *)
Definition first_request (limit : Z) (rebuild : bool)
    (container_id : option string) : fetch_req :=
  FetchReq limit rebuild
    (match container_id with
     | Some c => if String.eqb c "" then None else Some c
     | None => None
     end) None.

(** *** Selection *)

Definition any_event : event -> Prop := fun _ => True.

(** [starts_with ev m]: the first thing [m] does is [ev]. *)
Definition starts_with {A} (ev : event) (m : M A) : Prop :=
  forall st, exists tr', trace (snd (m st)) = trace st ++ ev :: tr'.

Definition healthy_of (fleet : list service) : list service :=
  List.filter (fun x => 0 <? score x) fleet.

(** The sum of the loads of the healthy rdirs. *)
Definition total_load (fleet : list service) : Z :=
  foldr (fun x acc => opened_db_count x + acc) 0 (healthy_of fleet).

(** The threshold of the avoid-set: the mean load of the healthy rdirs,
    or one less than a cap. *)
Inductive threshold :=
| Mean
| Cap (cap : Z).

(** [exceeds t fleet x]: the load of [x] is strictly above the threshold.
    Above the mean is stated without a division: the load times the
    number of healthy rdirs is above their total load. *)
Definition exceeds (t : threshold) (fleet : list service) (x : service) : Prop :=
  match t with
  | Mean => opened_db_count x * Z.of_nat (length (healthy_of fleet))
            > total_load fleet
  | Cap cap => opened_db_count x > cap - 1
  end.

(** The healthy rdirs above the threshold, by identifier. *)
Definition in_avoid_set (ns : string) (t : threshold) (fleet : list service)
    (id : string) : Prop :=
  exists x, x ∈ fleet /\ 0 < score x /\ exceeds t fleet x /\
            id = _make_id ns "rdir" (addr x).

(** The threshold as the spec words it: the cap decides as soon as one
    is given. *)
Definition claimed_threshold (max_per_rdir : option Z) : threshold :=
  match max_per_rdir with
  | Some cap => Cap cap
  | None => Mean
  end.

(** The threshold of the code: a cap of [0] counts as no cap. *)
Definition effective_threshold (max_per_rdir : option Z) : threshold :=
  match max_per_rdir with
  | Some cap => if cap =? 0 then Mean else Cap cap
  | None => Mean
  end.

(** The record [_smart_link_rdir] writes for the polled candidate. *)
Definition forced_link (polled : candidate) : link :=
  Link (cand_addr polled) "rdir" 1 "" (cand_id polled).

Definition force_event (volume_id : string) (polled : candidate) : event :=
  EvDirForce RDIR_ACCT volume_id "rdir" (forced_link polled) true.

(** The force write is answered by [ex], an application error that the
    loop of [_smart_link_rdir] reads as "already linked". *)
Definition already_linked (ex : exn) : Prop :=
  is_ClientException ex = true /\
  (exc_status ex = Some 455 \/
   String.prefix ALREADY0 (exc_message ex) = true \/
   String.prefix ALREADY1 (exc_message ex) = true).

Definition retriable_status (ex : exn) : Prop :=
  is_ClientException ex = true /\
  exists s, exc_status ex = Some s /\ (s = 406 \/ s = 450 \/ s = 503 \/ s = 504).

(** The backend as the spec words it: the force write of the volume
    always fails with a retriable status. *)
Definition always_fails_retriable (b : Backend) (volume_id : string) : Prop :=
  forall tr forced, exists ex,
    directory_force b tr RDIR_ACCT volume_id "rdir" forced true = Raise ex /\
    retriable_status ex.

(** The same, with a message that is not one of the two "already linked"
    messages. *)
Definition always_fails_retriable_plain (b : Backend) (volume_id : string)
    : Prop :=
  forall tr forced, exists ex,
    directory_force b tr RDIR_ACCT volume_id "rdir" forced true = Raise ex /\
    retriable_status ex /\
    String.prefix ALREADY0 (exc_message ex) = false /\
    String.prefix ALREADY1 (exc_message ex) = false.

(** [m] write attempts from index [i] on, each but the last followed by
    a sleep of as many seconds as its index. *)
Definition retry_trace (force : event) (i m : nat) : list event :=
  flat_map (fun j => [force; EvSleep j]) (seq i m) ++ [force].

(** *** Assignments *)

(** The calls of the read path: listing services and reading a link. *)
Definition read_only (ev : event) : Prop :=
  match ev with
  | EvAllServices _ _ | EvDirList _ _ _ => True
  | _ => False
  end.

(** The rdir that [by_id] holds for an address of the fleet: the last
    record of the fleet with that address. *)
Definition attached_to (all_rdir : list service) (host : string)
    (att : option rdir_ref) : Prop :=
  exists j x, att = Some (Known j) /\ all_rdir !! j = Some x /\ addr x = host.

(** [in_group signature groups k v]: some group of signature [k] lists
    the volume [v]. *)
Definition in_group {K} (signature : exn -> K)
    (groups : list (exn * list string)) (k : K) (v : string) : Prop :=
  exists e vs, (e, vs) ∈ groups /\ signature e = k /\ v ∈ vs.

(* ===================================================================== *)
(** ** Test doubles *)
(* ===================================================================== *)

Module Harness.

Definition st0 : state := State [] ∅.

Definition net_error : exn := mk OioNetworkException "connection refused".
Definition http_error (status : Z) (msg : string) : exn :=
  Exn ClientException (Some status) msg None.

(** The number of HTTP requests and of directory writes in a trace. *)
Definition count_requests (tr : list event) : nat :=
  length (List.filter (fun ev => match ev with EvRequest _ _ _ _ => true
                                          | _ => false end) tr).
Definition count_forces (tr : list event) : nat :=
  length (List.filter (fun ev => match ev with EvDirForce _ _ _ _ _ => true
                                          | _ => false end) tr).
Definition count_polls (tr : list event) : nat :=
  length (List.filter (fun ev => match ev with EvPoll _ _ _ => true
                                          | _ => false end) tr).

Definition linked_to (host : string) : string -> result (list srv_entry) :=
  fun _ => Ok [SrvEntry "rdir" host].
Definition unlinked : string -> result (list srv_entry) :=
  fun _ => Raise (Exn NotFound (Some 404) "no such reference" None).

(** A cluster with the given volumes and rdirs, whose directory answers
    a listing by [linked], and whose other gateways answer with the
    given replies. *)
Definition cluster (volumes fleet : list service)
    (linked : string -> result (list srv_entry))
    (polled : list event -> option (list string) -> result (list candidate))
    (forced : list event -> result unit)
    (replied : list event -> result body) : Backend :=
  {| cs_all_services := fun _ type_ _ =>
       Ok (if String.eqb type_ "rdir" then fleet else volumes);
     cs_poll := fun tr _ avoid _ => polled tr avoid;
     cs_create_pool := fun _ _ _ => Ok tt;
     directory_list := fun _ _ ref _ => linked ref;
     directory_force := fun tr _ _ _ _ _ => forced tr;
     direct_request := fun tr _ _ _ _ => replied tr |}.

Definition rdir1 : string := "10.0.0.1:6301".

Definition no_poll : list event -> option (list string) ->
                     result (list candidate) :=
  fun _ _ => Ok [].

(** An rdir that cannot be reached, and one that answers 500. *)
Definition unreachable : Backend :=
  cluster [] [] (linked_to rdir1) no_poll (fun _ => Ok tt) (fun _ => Raise net_error).
Definition failing : Backend :=
  cluster [] [] (linked_to rdir1) no_poll (fun _ => Ok tt)
          (fun _ => Raise (http_error 500 "internal error")).

(** An rdir that serves the given pages in order, then empty pages. *)
Definition paged (pages : list body) : Backend :=
  cluster [] [] (linked_to rdir1) no_poll (fun _ => Ok tt)
          (fun tr => Ok (nth (count_requests tr) pages [])).

Definition three_pages : list body :=
  [ [("c1|o1|k1", "v1"); ("c1|o1|k2", "v2")];
    [("c1|o2|k3", "v3"); ("c2|o3|k4", "v4")];
    [] ].

(** Three healthy rdirs with 2, 4 and 6 open databases. *)
Definition rdir_with (a : string) (load : Z) : service :=
  Service a 10 (<["stat.opened_db_count" := load]> ∅) None.
Definition rdir2 : string := "10.0.0.2:6301".
Definition rdir3 : string := "10.0.0.3:6301".
Definition fleet246 : list service :=
  [rdir_with rdir1 2; rdir_with rdir2 4; rdir_with rdir3 6].

Definition pick1 : list event -> option (list string) ->
                   result (list candidate) :=
  fun _ _ => Ok [Candidate "NS|rdir|10.0.0.1:6301" rdir1].

(** A load balancer that finds no candidate (status 481). *)
Definition no_candidate : Backend :=
  cluster [] fleet246 unlinked (fun _ _ => Raise (http_error 481 "no service"))
          (fun _ => Ok tt) (fun _ => Ok []).

(** A directory whose force write always fails with status 503 and the
    first "already linked" message. *)
Definition busy_but_linked : Backend :=
  cluster [] fleet246 unlinked pick1
          (fun _ => Raise (http_error 503 (ALREADY0 +:+ ": services.cid")))
          (fun _ => Ok []).

(** A directory whose force write always fails with the given error. *)
Definition force_fails (e : exn) : Backend :=
  cluster [] fleet246 unlinked pick1 (fun _ => Raise e) (fun _ => Ok []).

(** Two rawx volumes, both linked to the first rdir. *)
Definition rawx (a : string) : service := Service a 80 ∅ None.
Definition linked_cluster : Backend :=
  cluster [rawx "10.0.0.8:6201"; rawx "10.0.0.9:6201"] fleet246
          (linked_to rdir1) no_poll (fun _ => Ok tt) (fun _ => Ok []).

(** The same volumes, linked to an rdir that the conscience does not
    list. *)
Definition lost_rdir : string := "10.0.0.7:6301".
Definition stale_cluster : Backend :=
  cluster [rawx "10.0.0.8:6201"; rawx "10.0.0.9:6201"] fleet246
          (linked_to lost_rdir) no_poll (fun _ => Ok tt) (fun _ => Ok []).

(** A directory that fails every listing with status 500, and one that
    fails the listing of the second volume with status 503 instead. *)
Definition broken_directory : Backend :=
  cluster [rawx "10.0.0.8:6201"; rawx "10.0.0.9:6201"] fleet246
          (fun _ => Raise (http_error 500 "internal error"))
          no_poll (fun _ => Ok tt) (fun _ => Ok []).
Definition flaky_directory : Backend :=
  cluster [rawx "10.0.0.8:6201"; rawx "10.0.0.9:6201"] fleet246
          (fun ref => if String.eqb ref "10.0.0.9:6201"
                      then Raise (http_error 503 "busy")
                      else Raise (http_error 500 "internal error"))
          no_poll (fun _ => Ok tt) (fun _ => Ok []).

(** A rendering of the groups that lists the volumes of each. *)
Definition repr_count (groups : list (exn * list string)) : string :=
  String.concat ", " (map (fun g => py_str_list (snd g)) groups).

(** An rdir that serves one page and then answers 500, and one whose
    page holds a key that is not [container|content|chunk]. *)
Definition one_page_then_500 : Backend :=
  cluster [] [] (linked_to rdir1) no_poll (fun _ => Ok tt)
          (fun tr => if Nat.eqb (count_requests tr) 0
                     then Ok [("c1|o1|k1", "v1"); ("c1|o1|k2", "v2")]
                     else Raise (http_error 500 "internal error")).
Definition bad_page : Backend :=
  cluster [] [] (linked_to rdir1) no_poll (fun _ => Ok tt)
          (fun _ => Ok [("c1|o1|k1", "v1"); ("c1-o1-k2", "v2");
                        ("c1|o1|k3", "v3")]).

(** A load balancer without the pool (status 400 at every poll), and
    one that answers with a rawx and two rdirs. *)
Definition no_pool : Backend :=
  cluster [] fleet246 unlinked
          (fun _ _ => Raise (http_error 400 "no such pool"))
          (fun _ => Ok tt) (fun _ => Ok []).
Definition mixed_pool : Backend :=
  cluster [] fleet246 unlinked
          (fun _ _ => Ok [Candidate "NS|rawx|10.0.0.8:6201" "10.0.0.8:6201";
                          Candidate "NS|rdir|10.0.0.2:6301" rdir2;
                          Candidate "NS|rdir|10.0.0.3:6301" rdir3])
          (fun _ => Ok tt) (fun _ => Ok []).

(** A cluster in which the link can be written but the volume cannot be
    resolved afterwards, so that the database creation fails. *)
Definition create_fails : Backend :=
  cluster [] fleet246 unlinked pick1 (fun _ => Ok tt) (fun _ => Ok []).

(** Two rdirs that are down. *)
Definition fleet_down : list service :=
  [Service rdir1 0 (<["stat.opened_db_count" := 2]> ∅) None;
   Service rdir2 (-1) ∅ None].

(** Two unlinked rawx volumes in front of rdirs that are all down, and
    a load balancer that names an rdir the conscience does not list. *)
Definition down_cluster : Backend :=
  cluster [rawx "10.0.0.8:6201"; rawx "10.0.0.9:6201"] fleet_down unlinked
          no_poll (fun _ => Ok tt) (fun _ => Ok []).
Definition stray_pool : Backend :=
  cluster [rawx "10.0.0.8:6201"] fleet246 unlinked
          (fun _ _ => Ok [Candidate "NS|rdir|10.0.0.7:6301" lost_rdir])
          (fun _ => Ok tt) (fun _ => Ok []).

End Harness.


(* ===================================================================== *)
(** ** More of the module *)
(* ===================================================================== *)

Section MoreClient.

Variable b : Backend.

(** [RdirClient.meta2_index_create] *)
Definition meta2_index_create (volume_id : string) : M unit :=
  create b volume_id "meta2".

End MoreClient.

Section MoreDispatcher.

Variable b : Backend.
Variable ns : string.
Context {K : Type} `{EqDecision K}.
Variable signature : exn -> K.
Variable repr_errors : list (exn * list string) -> string.

(** [RdirDispatcher.assign_all_meta2] and [assign_all_rawx] *)
Definition assign_all_meta2 (max_per_rdir : option Z)
    : M (list (service * option rdir_ref) * list service) :=
  assign_services b ns signature repr_errors "meta2" max_per_rdir.

Definition assign_all_rawx (max_per_rdir : option Z)
    : M (list (service * option rdir_ref) * list service) :=
  assign_services b ns signature repr_errors "rawx" max_per_rdir.

End MoreDispatcher.

(** *** Notions used in the further statements *)

Definition is_force (ev : event) : bool :=
  match ev with EvDirForce _ _ _ _ _ => true | _ => false end.
Definition is_poll (ev : event) : bool :=
  match ev with EvPoll _ _ _ => true | _ => false end.
Definition is_create_pool (ev : event) : bool :=
  match ev with EvCreatePool _ _ => true | _ => false end.
Definition is_request (ev : event) : bool :=
  match ev with EvRequest _ _ _ _ => true | _ => false end.
Definition is_dir_list (ev : event) : bool :=
  match ev with EvDirList _ _ _ => true | _ => false end.

(** How many events of a kind a trace holds. *)
Definition count (p : event -> bool) (tr : list event) : nat :=
  length (List.filter p tr).

(** [at_most p n m]: whatever [m] returns, it appends at most [n] events
    of kind [p] to the trace. *)
Definition at_most {A} (p : event -> bool) (n : nat) (m : M A) : Prop :=
  forall st r st', m st = (r, st') ->
    exists tr', trace st' = trace st ++ tr' /\ (count p tr' <= n)%nat.

Definition no_rdir_entry (resp : list srv_entry) : Prop :=
  Forall (fun srv => srv_type srv <> "rdir") resp.

Definition lookup_event (volume : string) : event :=
  EvDirList RDIR_ACCT volume "rdir".

Definition no_volume (volume_id : string) : exn :=
  mk VolumeException ("No rdir assigned to volume " +:+ volume_id).

(** The events of a run of [chunk_fetch]: lookups of the volume, sleeps,
    and [fetch] requests that differ from the first in their cursor
    only. *)
Definition fetch_event (volume : string) (first : fetch_req) (ev : event)
    : Prop :=
  match ev with
  | EvDirList acct ref ty => ev = lookup_event volume
  | EvRequest method uri ps (Some req) =>
      method = "POST" /\
      (exists host, uri = request_uri host "rdir" "fetch") /\
      ps = <["vol" := volume]> ∅ /\
      req_limit req = req_limit first /\
      req_rebuild req = req_rebuild first /\
      req_container_id req = req_container_id first
  | EvSleep _ => True
  | _ => False
  end.

(** [serves_until b volume n req st pages req' st']: asked from [st] on
    as [chunk_fetch] asks, the rdir answers the non-empty pages [pages];
    the next request is [req'], from the state [st']. *)
Inductive serves_until (b : Backend) (volume : string) (max_attempts : nat)
    : fetch_req -> state -> list body -> fetch_req -> state -> Prop :=
| serves_until_now req st :
    serves_until b volume max_attempts req st [] req st
| serves_until_page req st page k v st1 pages req' st' :
    fetch_page b volume req (Z.of_nat max_attempts) max_attempts 0 st
      = (Ok page, st1) ->
    last page = Some (k, v) ->
    serves_until b volume max_attempts (with_cursor req k) st1 pages req' st' ->
    serves_until b volume max_attempts req st (page :: pages) req' st'.

(** One failed attempt of a page request that starts without a cached
    address: a lookup, the request, and the sleep before the next. *)
Definition failed_attempt (volume host : string) (req : fetch_req) (i : nat)
    : list event :=
  [lookup_event volume;
   EvRequest "POST" (request_uri host "rdir" "fetch") (<["vol" := volume]> ∅)
             (Some req);
   EvSleep i].

Definition last_attempt (volume host : string) (req : fetch_req)
    : list event :=
  [lookup_event volume;
   EvRequest "POST" (request_uri host "rdir" "fetch") (<["vol" := volume]> ∅)
             (Some req)].

Definition pool_event (avoid known : option (list string)) : event :=
  EvPoll "__rawx_rdir" avoid known.

Definition create_pool_event : event :=
  EvCreatePool "__rawx_rdir" [(1, JOKER_SVC_TARGET); (1, "rdir")].

Definition not_rdir (svc : candidate) : Prop :=
  contains "rdir" (cand_id svc) = false.

(** What [_smart_link_rdir] may write and how long it may sleep. *)
Definition link_event (volume_id : string) (max_attempts : nat) (ev : event)
    : Prop :=
  match ev with
  | EvDirForce acct ref ty forced autocreate =>
      acct = RDIR_ACCT /\ ref = volume_id /\ ty = "rdir" /\
      autocreate = true /\
      link_type forced = "rdir" /\ link_seq forced = 1 /\ link_args forced = ""
  | EvSleep i => (i + 1 < max_attempts)%nat
  | _ => True
  end.

(** An application error that ends the force loop at once: a status of
    400 or more that is neither "already done" nor retriable, with a
    message that is not "already linked". *)
Definition fatal_status (ex : exn) : Prop :=
  is_ClientException ex = true /\
  String.prefix ALREADY0 (exc_message ex) = false /\
  String.prefix ALREADY1 (exc_message ex) = false /\
  exists s, exc_status ex = Some s /\ 400 <= s /\
            s <> 455 /\ s <> 406 /\ s <> 450 /\ s <> 503 /\ s <> 504.

(** The address of what a service carries. *)
Definition ref_addr (all_rdir : list service) (ref : rdir_ref) : option string :=
  match ref with
  | Known i => addr <$> all_rdir !! i
  | Placeholder host => Some host
  end.

(** The events of a batch for services of a type: listings, lookups,
    polls for a slot of that type, pool creation, writes, sleeps, and
    database creations under the prefix of the type. *)
Definition batch_event (ns service_type : string) (ev : event) : Prop :=
  match ev with
  | EvPoll pool _ known =>
      pool = "__rawx_rdir" /\
      exists v, known = Some [_make_id ns service_type v]
  | EvRequest method uri ps json =>
      method = "POST" /\ json = None /\
      exists host prefix v,
        base_url service_type = Some prefix /\
        uri = request_uri host prefix "create" /\
        ps = <["vol" := v]> ∅
  | _ => True
  end.

(** A directory in which every reference has an rdir link. *)
Definition all_linked (b : Backend) : Prop :=
  forall tr ref, exists resp host,
    directory_list b tr RDIR_ACCT ref "rdir" = Ok resp /\
    _filter_rdir_host resp = Ok host.

(** Two requests that differ in their cursor at most. *)
Definition same_filter (first req : fetch_req) : Prop :=
  req_limit req = req_limit first /\
  req_rebuild req = req_rebuild first /\
  req_container_id req = req_container_id first.

(** What [_smart_link_rdir] raises without a healthy rdir. *)
Definition nobody_healthy (ns : string) : exn :=
  mk ServiceUnavailable ("No valid rdir service found in " +:+ ns).

(** Every key of [by_id] is the identifier of an rdir address, and what
    it maps to has that address. *)
Definition by_id_sound (ns : string) (all_rdir : list service)
    (by_id : gmap string rdir_ref) : Prop :=
  forall k r, by_id !! k = Some r ->
    exists a, k = _make_id ns "rdir" a /\ ref_addr all_rdir r = Some a.

(** The database creations of a batch go to this path of the rdir. *)
Definition creates_under (path : string) (ev : event) : Prop :=
  match ev with
  | EvRequest method uri _ _ =>
      method = "POST" /\ exists host, uri = "http://" +:+ host +:+ path
  | _ => True
  end.
(* ===================================================================== *)
(** ** What a computation adds to the trace *)
(* ===================================================================== *)

Section Emits.

Context (P : event -> Prop).

Lemma emits_ret {A} (a : A) : emits P (ret a).
Proof.
  intros st r st' [= <- <-]. exists []. rewrite app_nil_r. by split.
Qed.

Lemma emits_raise {A} (e : exn) : emits P (@raise A e).
Proof.
  intros st r st' [= <- <-]. exists []. rewrite app_nil_r. by split.
Qed.

Lemma emits_lift {A} (x : result A) : emits P (lift x).
Proof.
  intros st r st' [= <- <-]. exists []. rewrite app_nil_r. by split.
Qed.

Lemma emits_call {A} (f : list event -> result A) ev :
  P ev -> emits P (call f ev).
Proof.
  intros HP st r st' [= <- <-]. exists [ev]. split; [done|].
  by constructor.
Qed.

Lemma emits_sleep n : P (EvSleep n) -> emits P (sleep n).
Proof.
  intros HP st r st' [= <- <-]. exists [EvSleep n]. split; [done|].
  by constructor.
Qed.

Lemma emits_bind {A B} (m : M A) (k : A -> M B) :
  emits P m -> (forall a, emits P (k a)) -> emits P (bind m k).
Proof.
  intros Hm Hk st r st'. unfold bind.
  destruct (m st) as [[a|e] st1] eqn:E; intros Hr.
  - destruct (Hm _ _ _ E) as (t1 & E1 & F1).
    destruct (Hk a _ _ _ Hr) as (t2 & E2 & F2).
    exists (t1 ++ t2). rewrite E2, E1, app_assoc. split; [done|].
    by apply Forall_app.
  - injection Hr as <- <-. exact (Hm _ _ _ E).
Qed.

Lemma emits_try {A} (m : M A) (h : exn -> M A) :
  emits P m -> (forall e, emits P (h e)) -> emits P (try_except m h).
Proof.
  intros Hm Hh st r st'. unfold try_except.
  destruct (m st) as [[a|e] st1] eqn:E; intros Hr.
  - injection Hr as <- <-. exact (Hm _ _ _ E).
  - destruct (Hm _ _ _ E) as (t1 & E1 & F1).
    destruct (Hh e _ _ _ Hr) as (t2 & E2 & F2).
    exists (t1 ++ t2). rewrite E2, E1, app_assoc. split; [done|].
    by apply Forall_app.
Qed.

End Emits.

Lemma emits_weaken {A} (P Q : event -> Prop) (m : M A) :
  (forall ev, P ev -> Q ev) -> emits P m -> emits Q m.
Proof.
  intros HPQ Hm st r st' E. destruct (Hm _ _ _ E) as (t & E1 & F).
  exists t. split; [done|]. eapply Forall_impl; eauto.
Qed.

Section ClientFacts.

Variable b : Backend.

Lemma emits_clear_cache P v : emits P (_clear_cache v).
Proof.
  intros st r st' [= <- <-]. exists []. simpl. rewrite app_nil_r. by split.
Qed.

Lemma emits_get_rdir_addr (P : event -> Prop) v :
  P (EvDirList RDIR_ACCT v "rdir") -> emits P (_get_rdir_addr b v).
Proof.
  intros HP st r st'. unfold _get_rdir_addr.
  destruct (addr_cache st !! v) eqn:E.
  - intros [= <- <-]. exists []. rewrite app_nil_r. by split.
  - apply emits_try.
    + apply emits_bind; [by apply emits_call|]. intros resp.
      apply emits_bind; [apply emits_lift|]. intros host.
      intros st1 r1 st2 [= <- <-]. exists []. simpl.
      rewrite app_nil_r. by split.
    + intros e. destruct (is_NotFound e); apply emits_raise.
Qed.

Lemma emits_rdir_request (P : event -> Prop) v method action cr params ty json :
  P (EvDirList RDIR_ACCT v "rdir") ->
  (forall uri ps, ps !! "vol" = Some v -> P (EvRequest method uri ps json)) ->
  emits P (_rdir_request b v method action cr params ty json).
Proof.
  intros HL HR. unfold _rdir_request, _make_uri.
  apply emits_bind.
  - apply emits_bind; [by apply emits_get_rdir_addr|]. intros host.
    destruct (base_url ty); [apply emits_ret|apply emits_raise].
  - intros uri. apply emits_try.
    + apply emits_call. apply HR.
      destruct cr.
      * rewrite lookup_insert_ne; [|done]. by rewrite lookup_insert_eq.
      * by rewrite lookup_insert_eq.
    + intros e. destruct (is_OioNetworkException e); [|apply emits_raise].
      apply emits_bind; [apply emits_clear_cache|]. intros _.
      apply emits_raise.
Qed.

(** A resolve that misses the cache asks the directory, and answers from
    the reply alone. *)
Lemma get_rdir_addr_miss v st :
  addr_cache st !! v = None ->
  trace (snd (_get_rdir_addr b v st)) =
    trace st ++ [EvDirList RDIR_ACCT v "rdir"] /\
  forall host, fst (_get_rdir_addr b v st) = Ok host ->
    exists resp, directory_list b (trace st) RDIR_ACCT v "rdir" = Ok resp /\
                 _filter_rdir_host resp = Ok host.
Proof.
  intros Hmiss. unfold _get_rdir_addr. rewrite Hmiss.
  unfold try_except, bind, call, lift. simpl.
  destruct (directory_list b (trace st) RDIR_ACCT v "rdir") as [resp|e] eqn:E.
  - destruct (_filter_rdir_host resp) as [host|e] eqn:F; simpl.
    + split; [done|]. intros h [= <-]. by exists resp.
    + destruct (is_NotFound e); simpl; (split; [done|]); by intros h [=].
  - destruct (is_NotFound e); simpl; (split; [done|]); by intros h [=].
Qed.

(** A successful resolve leaves the address in the cache. *)
Lemma get_rdir_addr_cached v st host st1 :
  _get_rdir_addr b v st = (Ok host, st1) ->
  addr_cache st1 !! v = Some host.
Proof.
  unfold _get_rdir_addr.
  destruct (addr_cache st !! v) as [h|] eqn:E.
  - by intros [= <- <-].
  - unfold try_except, bind, call, lift. simpl.
    destruct (directory_list b (trace st) RDIR_ACCT v "rdir") as [resp|e].
    + destruct (_filter_rdir_host resp) as [h|e]; simpl.
      * intros [= <- <-]. simpl. by rewrite lookup_insert_eq.
      * destruct (is_NotFound e); by intros [=].
    + destruct (is_NotFound e); by intros [=].
Qed.

(** A failed resolve had nothing in the cache and leaves it so. *)
Lemma get_rdir_addr_failed v st e st1 :
  _get_rdir_addr b v st = (Raise e, st1) ->
  addr_cache st1 !! v = None.
Proof.
  unfold _get_rdir_addr.
  destruct (addr_cache st !! v) as [h|] eqn:E.
  - by intros [=].
  - unfold try_except, bind, call, lift. simpl.
    destruct (directory_list b (trace st) RDIR_ACCT v "rdir") as [resp|e'].
    + destruct (_filter_rdir_host resp) as [h|e']; simpl.
      * by intros [=].
      * destruct (is_NotFound e'); by intros [= <- <-].
    + destruct (is_NotFound e'); by intros [= <- <-].
Qed.

(** The parameters [_rdir_request] sends. *)

(** C7. A request that fails with a network-level error leaves no cached
    address for its volume, so the next resolve of that volume asks the
    directory again and answers from that reply; when the HTTP call
    itself fails with any other error, that error is raised unchanged
    and the address used for the call stays in the cache. *)
Theorem rdir_request_cache_invalidation
    (volume method action : string) (cr : bool)
    (params : option (gmap string string)) (service_type : string)
    (json : option fetch_req) (st : state) :
  (forall e st',
      _rdir_request b volume method action cr params service_type json st
        = (Raise e, st') ->
      is_OioNetworkException e = true ->
      addr_cache st' !! volume = None /\
      trace (snd (_get_rdir_addr b volume st')) =
        trace st' ++ [EvDirList RDIR_ACCT volume "rdir"] /\
      forall host, fst (_get_rdir_addr b volume st') = Ok host ->
        exists resp,
          directory_list b (trace st') RDIR_ACCT volume "rdir" = Ok resp /\
          _filter_rdir_host resp = Ok host) /\
  (forall host st1 prefix e,
      _get_rdir_addr b volume st = (Ok host, st1) ->
      base_url service_type = Some prefix ->
      direct_request b (trace st1) method (request_uri host prefix action)
        (request_params volume cr params) json = Raise e ->
      is_OioNetworkException e = false ->
      exists st',
        _rdir_request b volume method action cr params service_type json st
          = (Raise e, st') /\
        addr_cache st' = addr_cache st1 /\
        addr_cache st' !! volume = Some host).
Proof.
  split.
  - intros e st' Hreq Hnet.
    assert (Hnone : addr_cache st' !! volume = None).
    { revert Hreq. unfold _rdir_request, _make_uri, bind.
      destruct (_get_rdir_addr b volume st) as [[host|e0] st1] eqn:G.
      - destruct (base_url service_type) as [prefix|]; simpl.
        + unfold try_except, call.
          match goal with
          | |- context [direct_request b ?t ?m ?u ?p ?j] =>
              destruct (direct_request b t m u p j) as [bd|e1]
          end; [by intros [=]|].
          destruct (is_OioNetworkException e1) eqn:N.
          * unfold bind, _clear_cache, raise. simpl.
            intros [= <- <-]. simpl. by rewrite lookup_delete_eq.
          * unfold raise. intros [= <- <-]. congruence.
        + unfold raise. intros [= <- <-]. discriminate.
      - intros [= <- <-]. by eapply get_rdir_addr_failed. }
    split; [done|]. by apply get_rdir_addr_miss.
  - intros host st1 prefix e G B D N.
    unfold _rdir_request, _make_uri, bind. rewrite G, B. simpl.
    unfold try_except, call.
    fold (request_uri host prefix action).
    change (if cr then <["create":="1"]> (<["vol":=volume]> (default ∅ params))
            else <["vol":=volume]> (default ∅ params))
      with (request_params volume cr params).
    rewrite D, N. unfold raise. eexists. split; [done|]. simpl.
    split; [done|]. by eapply get_rdir_addr_cached.
Qed.

End ClientFacts.

Lemma rdir_request_cache_invalidation_witness :
  (addr_cache
     (snd (_rdir_request Harness.unreachable "vol" "POST" "create" false None
             "rawx" None Harness.st0)) !! "vol" = None) /\
  (exists st',
      _rdir_request Harness.failing "vol" "POST" "create" false None
        "rawx" None Harness.st0
        = (Raise (Harness.http_error 500 "internal error"), st') /\
      addr_cache st' !! "vol" = Some Harness.rdir1).
Proof.
  split.
  - pose proof (proj1 (rdir_request_cache_invalidation Harness.unreachable
                         "vol" "POST" "create" false None "rawx" None
                         Harness.st0)) as H.
    destruct (_rdir_request Harness.unreachable "vol" "POST" "create" false
                None "rawx" None Harness.st0) as [r st'] eqn:E.
    vm_compute in E. injection E as <- <-.
    destruct (H Harness.net_error
                (State [EvDirList RDIR_ACCT "vol" "rdir";
                        EvRequest "POST" "http://10.0.0.1:6301/v1/rdir/create"
                          (<["vol" := "vol"]> ∅) None] ∅)) as (Hc & _).
    + vm_compute. reflexivity.
    + reflexivity.
    + exact Hc.
  - destruct (proj2 (rdir_request_cache_invalidation Harness.failing
                       "vol" "POST" "create" false None "rawx" None
                       Harness.st0)
                Harness.rdir1
                (State [EvDirList RDIR_ACCT "vol" "rdir"]
                       (<["vol" := Harness.rdir1]> ∅))
                "rdir" (Harness.http_error 500 "internal error"))
      as (st' & E & _ & Hc).
    + vm_compute. reflexivity.
    + reflexivity.
    + reflexivity.
    + reflexivity.
    + exists st'. by split.
Defined.

(* ===================================================================== *)
(** ** Paginated fetch *)
(* ===================================================================== *)

Lemma split_on_nonempty sep s : split_on sep s <> [].
Proof.
  destruct s as [|c s]; simpl; [done|].
  destruct (Ascii.eqb c sep); [done|]. by destruct (split_on sep s).
Qed.

(** Joining the parts of a split gives the string back. *)
Lemma concat_split_on sep s :
  String.concat (String sep EmptyString) (split_on sep s) = s.
Proof.
  induction s as [|c s IH]; simpl; [done|].
  destruct (Ascii.eqb_spec c sep) as [->|Hne].
  - pose proof (split_on_nonempty sep s) as Hn.
    destruct (split_on sep s) as [|p ps] eqn:E; [done|].
    change (String.concat (String sep EmptyString) (EmptyString :: p :: ps))
      with (String sep (String.concat (String sep EmptyString) (p :: ps))).
    by rewrite IH.
  - destruct (split_on sep s) as [|p ps] eqn:E.
    + by destruct (split_on_nonempty sep s).
    + destruct ps as [|q qs]; simpl in *; by rewrite <- IH.
Qed.

Lemma yield_page_well_formed recs :
  Forall well_formed_key recs ->
  exists ys, yield_page recs = (ys, None) /\ Forall2 is_tuple_of recs ys.
Proof.
  induction 1 as [|[key value] recs Hk _ (ys & E & F)]; simpl.
  - exists []. by split.
  - unfold well_formed_key in Hk. simpl in Hk.
    pose proof (concat_split_on "|" key) as J.
    destruct (split_on "|" key) as [|c1 [|c2 [|c3 [|c4 l]]]]; try done.
    rewrite E. exists ((c1, c2, c3, value) :: ys). split; [done|].
    constructor; [|done]. simpl. split; [|done]. by rewrite <- J.
Qed.

Section FetchFacts.

Variable b : Backend.
Variable volume : string.
Variable max_attempts : nat.

Local Abbreviation page_of req st :=
  (fetch_page b volume req (Z.of_nat max_attempts) max_attempts 0 st).
Local Abbreviation loop fuel req st :=
  (chunk_fetch_loop b fuel volume max_attempts req st).

Lemma chunk_fetch_loop_page fuel req st page k v st1 :
  page_of req st = (Ok page, st1) ->
  last page = Some (k, v) ->
  Forall well_formed_key page ->
  exists ys, Forall2 is_tuple_of page ys /\
    loop (S fuel) req st =
      (let '((zs, e), st') := loop fuel (with_cursor req k) st1 in
       ((ys ++ zs, e), st')).
Proof.
  intros Hp Hl Hwf. destruct (yield_page_well_formed page Hwf) as (ys & E & F).
  exists ys. split; [done|]. simpl. rewrite Hp.
  destruct page as [|rec page']; [done|].
  rewrite E, Hl. reflexivity.
Qed.

Lemma chunk_fetch_loop_serves req st pages st' :
  serves b volume max_attempts req st pages st' ->
  Forall well_formed_key (concat pages) ->
  forall fuel, (length pages < fuel)%nat ->
  exists ys, loop fuel req st = ((ys, Exhausted), st') /\
             Forall2 is_tuple_of (concat pages) ys.
Proof.
  induction 1 as [req st st' Hp|req st page k v st1 pages st' Hp Hl _ IH];
    intros Hwf fuel Hfuel.
  - destruct fuel as [|fuel]; [simpl in Hfuel; lia|].
    exists []. simpl. rewrite Hp. by split.
  - destruct fuel as [|fuel]; [simpl in Hfuel; lia|].
    simpl in Hwf. apply Forall_app in Hwf as [Hw1 Hw2].
    destruct (IH Hw2 fuel) as (zs & Ez & Fz); [simpl in Hfuel; lia|].
    destruct (chunk_fetch_loop_page fuel req st page k v st1 Hp Hl Hw1)
      as (ys & Fy & Ey).
    exists (ys ++ zs). rewrite Ey, Ez. split; [done|].
    simpl. by apply Forall2_app.
Qed.

Lemma chunk_fetch_loop_exhausted fuel : forall req st ys st',
  loop fuel req st = ((ys, Exhausted), st') ->
  exists pages, serves b volume max_attempts req st pages st'.
Proof.
  induction fuel as [|fuel IH]; intros req st ys st'; simpl; [done|].
  destruct (page_of req st) as [[page|e] st1] eqn:Hp; [|done].
  destruct page as [|rec page'].
  - intros [= <- <-]. exists []. by constructor.
  - destruct (yield_page (rec :: page')) as [ys1 [e|]]; [done|].
    destruct (last (rec :: page')) as [[k v]|] eqn:Hl.
    + simpl.
      destruct (loop fuel _ st1) as [[zs e] st2] eqn:El.
      intros [= <- -> <-].
      destruct (IH _ _ _ _ El) as (pages & Hs).
      exists ((rec :: page') :: pages). by econstructor.
    + by apply last_None in Hl.
Qed.

(** C8. [chunk_fetch] stops, having left the loop by [break], exactly
    when a page comes back empty; before that it yields one tuple for
    each record of each page, and after a page it asks again with
    [start_after] set to the last key of that page.  Keys are of the
    form [container|content|chunk]. *)
Theorem chunk_fetch_pagination (limit : Z) (rebuild : bool)
    (container_id : option string) (st : state) :
  let req := first_request limit rebuild container_id in
  (forall pages st',
      serves b volume max_attempts req st pages st' ->
      Forall well_formed_key (concat pages) ->
      forall fuel, (length pages < fuel)%nat ->
      exists ys,
        chunk_fetch b fuel volume limit rebuild container_id max_attempts st
          = ((ys, Exhausted), st') /\
        Forall2 is_tuple_of (concat pages) ys /\
        length ys = length (concat pages)) /\
  (forall fuel ys st',
      chunk_fetch b fuel volume limit rebuild container_id max_attempts st
        = ((ys, Exhausted), st') ->
      exists pages, serves b volume max_attempts req st pages st').
Proof.
  intros req. split.
  - intros pages st' Hs Hwf fuel Hfuel.
    destruct (chunk_fetch_loop_serves req st pages st' Hs Hwf fuel Hfuel)
      as (ys & E & F).
    exists ys. split; [exact E|]. split; [done|].
    symmetry. by eapply Forall2_length.
  - intros fuel ys st' E. by eapply chunk_fetch_loop_exhausted.
Qed.

End FetchFacts.

Lemma chunk_fetch_pagination_witness :
  exists ys st',
    chunk_fetch (Harness.paged Harness.three_pages) 5 "vol" 100 false None 3
      Harness.st0 = ((ys, Exhausted), st') /\
    length ys = 4%nat /\
    exists pages,
      serves (Harness.paged Harness.three_pages) "vol" 3
        (first_request 100 false None) Harness.st0 pages st'.
Proof.
  pose proof (chunk_fetch_pagination (Harness.paged Harness.three_pages)
                "vol" 3 100 false None Harness.st0) as [Hrun Hstop].
  eassert (Hs : serves (Harness.paged Harness.three_pages) "vol" 3
                  (first_request 100 false None) Harness.st0
                  [ [("c1|o1|k1", "v1"); ("c1|o1|k2", "v2")];
                    [("c1|o2|k3", "v3"); ("c2|o3|k4", "v4")] ] _).
  { eapply serves_page; [vm_compute; reflexivity|reflexivity|].
    eapply serves_page; [vm_compute; reflexivity|reflexivity|].
    eapply serves_last. vm_compute. reflexivity. }
  destruct (Hrun _ _ Hs) with (fuel := 5%nat) as (ys & E & _ & L).
  - repeat constructor.
  - simpl. lia.
  - exists ys. eexists. split; [exact E|]. split; [exact L|].
    exact (Hstop _ _ _ E).
Defined.

(** The requests of that run: no cursor, then the last key of each
    page. *)
Example chunk_fetch_three_pages_trace :
  trace (snd (chunk_fetch (Harness.paged Harness.three_pages) 5 "vol" 100
                false None 3 Harness.st0))
  = let uri := "http://10.0.0.1:6301/v1/rdir/fetch" in
    let params := <["vol" := "vol"]> ∅ in
    [EvDirList RDIR_ACCT "vol" "rdir";
     EvRequest "POST" uri params (Some (FetchReq 100 false None None));
     EvRequest "POST" uri params
       (Some (FetchReq 100 false None (Some "c1|o1|k2")));
     EvRequest "POST" uri params
       (Some (FetchReq 100 false None (Some "c2|o3|k4")))].
Proof. vm_compute. reflexivity. Qed.

(* ===================================================================== *)
(** ** The selection-and-link algorithm *)
(* ===================================================================== *)

Lemma any_event_I ev : any_event ev.
Proof. exact I. Qed.

#[local] Hint Resolve any_event_I : core.

Lemma starts_with_call {A} (f : list event -> result A) ev :
  starts_with ev (call f ev).
Proof. intros st. by exists []. Qed.

Lemma starts_with_bind {A B} ev (m : M A) (k : A -> M B) :
  starts_with ev m -> (forall a, emits any_event (k a)) ->
  starts_with ev (bind m k).
Proof.
  intros Hm Hk st. destruct (Hm st) as (t1 & E1). unfold bind.
  destruct (m st) as [[a|e] st1]; simpl in *; [|by exists t1].
  destruct (k a st1) as [r st2] eqn:E2.
  destruct (Hk a _ _ _ E2) as (t2 & E3 & _). simpl.
  exists (t1 ++ t2). by rewrite E3, E1, <- app_assoc.
Qed.

Lemma starts_with_try {A} ev (m : M A) (h : exn -> M A) :
  starts_with ev m -> (forall e, emits any_event (h e)) ->
  starts_with ev (try_except m h).
Proof.
  intros Hm Hh st. destruct (Hm st) as (t1 & E1). unfold try_except.
  destruct (m st) as [[a|e] st1]; simpl in *; [by exists t1|].
  destruct (h e st1) as [r st2] eqn:E2.
  destruct (Hh e _ _ _ E2) as (t2 & E3 & _). simpl.
  exists (t1 ++ t2). by rewrite E3, E1, <- app_assoc.
Qed.

Section SelectionFacts.

Variable b : Backend.
Variable ns : string.

Lemma emits_poll (P : event -> Prop) avoid known :
  P (EvPoll "__rawx_rdir" avoid known) -> emits P (poll b avoid known).
Proof. intros HP. by apply emits_call. Qed.

Lemma emits_poll_rdir (P : event -> Prop) avoid known :
  P (EvPoll "__rawx_rdir" avoid known) ->
  P (EvCreatePool "__rawx_rdir" [(1, JOKER_SVC_TARGET); (1, "rdir")]) ->
  emits P (_poll_rdir b avoid known).
Proof.
  intros HP HC. unfold _poll_rdir. apply emits_bind.
  - apply emits_try; [by apply emits_poll|]. intros exc.
    destruct (is_ClientException exc); [|apply emits_raise].
    destruct (negb (status_eq exc 400)); [apply emits_raise|].
    apply emits_bind; [by apply emits_call|]. intros _. by apply emits_poll.
  - intros svcs. destruct (List.find _ svcs); [apply emits_ret|apply emits_raise].
Qed.

Lemma emits_force_loop (P : event -> Prop) v forced maxz n :
  P (EvDirForce RDIR_ACCT v "rdir" forced true) ->
  (forall i, P (EvSleep i)) ->
  forall i, emits P (force_loop b v forced maxz n i).
Proof.
  intros HF HS. induction n as [|n IH]; intros i; simpl; [apply emits_ret|].
  apply emits_try; [by apply emits_call|]. intros ex.
  destruct (negb (is_ClientException ex)); [apply emits_raise|].
  destruct (status_in ex [455]); [apply emits_ret|].
  destruct (String.prefix ALREADY0 (exc_message ex)); [apply emits_ret|].
  destruct (String.prefix ALREADY1 (exc_message ex)); [apply emits_ret|].
  destruct (status_ge ex 400 && negb (status_in ex [406; 450; 503; 504]));
    [apply emits_raise|].
  destruct (Z.of_nat i <? maxz - 1); [|apply emits_raise].
  apply emits_bind; [by apply emits_sleep|]. intros _. apply IH.
Qed.

Lemma emits_create (P : event -> Prop) v ty :
  P (EvDirList RDIR_ACCT v "rdir") ->
  (forall uri ps, ps !! "vol" = Some v -> P (EvRequest "POST" uri ps None)) ->
  emits P (create b v ty).
Proof.
  intros HL HR. unfold create. apply emits_bind; [|intros; apply emits_ret].
  by apply emits_rdir_request.
Qed.

Lemma emits_link_polled (P : event -> Prop) v ma ty polled :
  P (force_event v polled) ->
  (forall i, P (EvSleep i)) ->
  P (EvDirList RDIR_ACCT v "rdir") ->
  (forall uri ps, ps !! "vol" = Some v -> P (EvRequest "POST" uri ps None)) ->
  emits P (link_polled b v ma ty polled).
Proof.
  intros HF HS HL HR. unfold link_polled.
  apply emits_bind; [by apply emits_force_loop|]. intros _.
  apply emits_bind; [|intros; apply emits_ret].
  apply emits_try; [by apply emits_create|]. intros; apply emits_ret.
Qed.

(** Everything [_smart_link_rdir] may do for a volume. *)
Lemma emits_smart_link (P : event -> Prop) v fleet mpr ma ty :
  (forall avoid, P (EvPoll "__rawx_rdir" avoid (Some [_make_id ns ty v]))) ->
  P (EvCreatePool "__rawx_rdir" [(1, JOKER_SVC_TARGET); (1, "rdir")]) ->
  (forall polled, P (force_event v polled)) ->
  (forall i, P (EvSleep i)) ->
  P (EvDirList RDIR_ACCT v "rdir") ->
  (forall uri ps, ps !! "vol" = Some v -> P (EvRequest "POST" uri ps None)) ->
  emits P (_smart_link_rdir b ns v fleet mpr ma ty).
Proof.
  intros HP HC HF HS HL HR. unfold _smart_link_rdir.
  destruct (Z.of_nat (length (opened_db fleet)) <=? 0); [apply emits_raise|].
  apply emits_bind.
  - apply emits_try; [by apply emits_poll_rdir|]. intros exc.
    destruct (is_ClientException exc); [|apply emits_raise].
    destruct (negb (status_eq exc 481) || truthy mpr); [apply emits_raise|].
    by apply emits_poll_rdir.
  - intros polled. by apply emits_link_polled.
Qed.

Lemma starts_with_poll_rdir avoid known :
  starts_with (EvPoll "__rawx_rdir" avoid known) (_poll_rdir b avoid known).
Proof.
  unfold _poll_rdir. apply starts_with_bind.
  - apply starts_with_try; [apply starts_with_call|]. intros exc.
    destruct (is_ClientException exc); [|apply emits_raise].
    destruct (negb (status_eq exc 400)); [apply emits_raise|].
    apply emits_bind; [by apply emits_call|]. intros _. by apply emits_poll.
  - intros svcs. destruct (List.find _ svcs); [apply emits_ret|apply emits_raise].
Qed.

End SelectionFacts.

(** *** The avoid-set *)

Lemma fold_left_add_foldr (l : list Z) (a : Z) :
  fold_left Z.add l a = a + foldr Z.add 0 l.
Proof.
  revert a. induction l as [|x l IH]; intros a; simpl; [lia|].
  rewrite IH. lia.
Qed.

Lemma sum_opened_db fleet : sum (opened_db fleet) = total_load fleet.
Proof.
  unfold sum, opened_db, total_load, healthy_of.
  rewrite fold_left_add_foldr.
  induction (List.filter (fun x => 0 <? score x) fleet) as [|x l IH];
    simpl; [done|].
  simpl in IH. lia.
Qed.

Lemma length_opened_db fleet :
  length (opened_db fleet) = length (healthy_of fleet).
Proof. unfold opened_db, healthy_of. by rewrite length_map. Qed.

Lemma healthy_of_nonempty fleet :
  (exists x, x ∈ fleet /\ 0 < score x) ->
  (0 < length (healthy_of fleet))%nat.
Proof.
  intros (x & Hin & Hs). apply list_elem_of_In in Hin.
  assert (Hf : In x (healthy_of fleet)).
  { apply filter_In. split; [done|]. by apply Z.ltb_lt. }
  destruct (healthy_of fleet); [done|]. simpl. lia.
Qed.

Lemma gt_limit_cap x c : gt_limit x (inject_Z c) = true <-> x > c.
Proof.
  unfold gt_limit. rewrite negb_true_iff.
  destruct (Qle_bool (inject_Z x) (inject_Z c)) eqn:E.
  - apply Qle_bool_iff in E. rewrite <- Zle_Qle in E. split; [done|lia].
  - split; [|done]. intros _.
    destruct (Z_le_gt_dec x c) as [Hle|Hgt]; [|done].
    rewrite Zle_Qle in Hle. apply Qle_bool_iff in Hle. congruence.
Qed.

Lemma gt_limit_mean x s n :
  (0 < n)%nat ->
  gt_limit x (inject_Z s / inject_Z (Z.of_nat n))%Q = true
  <-> x * Z.of_nat n > s.
Proof.
  intros Hn. unfold gt_limit. rewrite negb_true_iff.
  assert (Hle : Qle (inject_Z x) (inject_Z s / inject_Z (Z.of_nat n))
                <-> x * Z.of_nat n <= s).
  { destruct n as [|n]; [lia|].
    unfold Qle, Qdiv, Qmult, Qinv, inject_Z.
    rewrite Nat2Z.inj_succ, <- Z.add_1_r.
    destruct (Z.of_nat n + 1) as [|p|p] eqn:E; [lia| |lia].
    simpl Qnum. simpl Qden. rewrite !Z.mul_1_r. rewrite Pos.mul_1_l.
    reflexivity. }
  destruct (Qle_bool _ _) eqn:E.
  - apply Qle_bool_iff, Hle in E. split; [done|lia].
  - split; [|done]. intros _.
    destruct (Z_le_gt_dec (x * Z.of_nat n) s) as [Hl|Hg]; [|done].
    apply Hle, Qle_bool_iff in Hl. congruence.
Qed.

Section AvoidSet.

Variable b : Backend.
Variable ns : string.

Lemma gt_upper_limit fleet mpr x :
  (0 < length (healthy_of fleet))%nat ->
  gt_limit (opened_db_count x) (upper_limit mpr fleet) = true
  <-> exceeds (effective_threshold mpr) fleet x.
Proof.
  intros Hn. unfold upper_limit, effective_threshold, truthy.
  destruct mpr as [c|]; simpl.
  - destruct (c =? 0) eqn:E; simpl.
    + rewrite sum_opened_db, length_opened_db. by apply gt_limit_mean.
    + apply gt_limit_cap.
  - rewrite sum_opened_db, length_opened_db. by apply gt_limit_mean.
Qed.

Lemma elem_of_avoids fleet mpr id :
  (0 < length (healthy_of fleet))%nat ->
  id ∈ avoids ns mpr fleet
  <-> in_avoid_set ns (effective_threshold mpr) fleet id.
Proof.
  intros Hn. unfold avoids, in_avoid_set.
  rewrite list_elem_of_In, in_map_iff. split.
  - intros (x & <- & Hin). apply filter_In in Hin as [Hin Hc].
    apply andb_true_iff in Hc as [Hs Hg].
    exists x. split; [by apply list_elem_of_In|].
    split; [by apply Z.ltb_lt|]. split; [|done].
    by apply gt_upper_limit.
  - intros (x & Hin & Hs & Hex & ->). exists x. split; [done|].
    apply filter_In. split; [by apply list_elem_of_In|].
    apply andb_true_iff. split; [by apply Z.ltb_lt|].
    by apply gt_upper_limit.
Qed.

(** C1, amended.  With at least one healthy rdir, the first thing
    [_smart_link_rdir] does is to poll the load balancer with an
    avoid-set that holds exactly the healthy rdirs whose load is
    strictly above the threshold: the mean load of the healthy rdirs
    when [max_per_rdir] is absent or [0], and [max_per_rdir - 1]
    otherwise. *)
Theorem smart_link_avoid_set (volume_id : string) (fleet : list service)
    (max_per_rdir : option Z) (max_attempts : nat) (service_type : string)
    (st : state) :
  (exists x, x ∈ fleet /\ 0 < score x) ->
  exists A tr',
    trace (snd (_smart_link_rdir b ns volume_id fleet max_per_rdir
                  max_attempts service_type st))
    = trace st ++
        EvPoll "__rawx_rdir" (Some A)
               (Some [_make_id ns service_type volume_id]) :: tr' /\
    forall id,
      id ∈ A <->
      in_avoid_set ns (effective_threshold max_per_rdir) fleet id.
Proof.
  intros Hh. apply healthy_of_nonempty in Hh.
  exists (avoids ns max_per_rdir fleet).
  assert (Hs : starts_with
                 (EvPoll "__rawx_rdir" (Some (avoids ns max_per_rdir fleet))
                         (Some [_make_id ns service_type volume_id]))
                 (_smart_link_rdir b ns volume_id fleet max_per_rdir
                    max_attempts service_type)).
  { unfold _smart_link_rdir. rewrite length_opened_db.
    destruct (Z.leb_spec (Z.of_nat (length (healthy_of fleet))) 0); [lia|].
    apply starts_with_bind.
    - apply starts_with_try; [apply starts_with_poll_rdir|]. intros exc.
      destruct (is_ClientException exc); [|apply emits_raise].
      destruct (negb (status_eq exc 481) || truthy max_per_rdir);
        [apply emits_raise|].
      by apply emits_poll_rdir.
    - intros polled. by apply emits_link_polled. }
  destruct (Hs st) as (tr' & E). exists tr'. split; [done|].
  intros id. by apply elem_of_avoids.
Qed.

End AvoidSet.

Lemma smart_link_avoid_set_witness :
  exists A tr',
    trace (snd (_smart_link_rdir Harness.no_candidate "NS" "vol"
                  Harness.fleet246 None 7 "rawx" Harness.st0))
    = EvPoll "__rawx_rdir" (Some A) (Some ["NS|rawx|vol"]) :: tr' /\
    forall id, id ∈ A <-> in_avoid_set "NS" Mean Harness.fleet246 id.
Proof.
  apply (smart_link_avoid_set Harness.no_candidate "NS" "vol"
           Harness.fleet246 None 7 "rawx" Harness.st0).
  exists (Harness.rdir_with Harness.rdir1 2). split.
  - apply list_elem_of_here.
  - reflexivity.
Defined.

(** Loads 2, 4 and 6 and no cap: the mean is 4 and only the rdir that
    holds 6 databases is avoided. *)
Example avoids_2_4_6 :
  (upper_limit None Harness.fleet246 == 4)%Q /\
  avoids "NS" None Harness.fleet246 = ["NS|rdir|10.0.0.3:6301"].
Proof. split; reflexivity. Qed.

(** A cap of 3 sets the threshold to 2, whatever the loads. *)
Example upper_limit_cap_3 fleet : upper_limit (Some 3) fleet = inject_Z 2.
Proof. reflexivity. Qed.

(** C1 as stated fails for a cap of [0]: the claim puts the threshold at
    [-1] and every healthy rdir in the avoid-set; the code takes the
    mean and avoids the most loaded rdir only. *)
Lemma smart_link_avoid_set_cap_0 :
  exists A tr',
    trace (snd (_smart_link_rdir Harness.no_candidate "NS" "vol"
                  Harness.fleet246 (Some 0) 7 "rawx" Harness.st0))
    = EvPoll "__rawx_rdir" (Some A) (Some ["NS|rawx|vol"]) :: tr' /\
    ~ (forall id,
         id ∈ A <->
         in_avoid_set "NS" (claimed_threshold (Some 0)) Harness.fleet246 id).
Proof.
  exists ["NS|rdir|10.0.0.3:6301"]. eexists. split.
  - vm_compute. reflexivity.
  - intros Hall.
    assert (Hin : in_avoid_set "NS" (claimed_threshold (Some 0))
                    Harness.fleet246 "NS|rdir|10.0.0.1:6301").
    { exists (Harness.rdir_with Harness.rdir1 2).
      split; [apply list_elem_of_here|]. split; [reflexivity|].
      split; [|reflexivity]. vm_compute. reflexivity. }
    apply Hall in Hin. apply list_elem_of_singleton in Hin. discriminate.
Qed.

(** *** Polling and linking *)

Section LinkFacts.

Variable b : Backend.
Variable ns : string.

Lemma smart_link_healthy v fleet mpr ma ty st :
  (exists x, x ∈ fleet /\ 0 < score x) ->
  _smart_link_rdir b ns v fleet mpr ma ty st =
  (polled <- try_except
               (_poll_rdir b (Some (avoids ns mpr fleet))
                           (Some [_make_id ns ty v]))
               (fun exc =>
                  if is_ClientException exc
                  then if negb (status_eq exc 481) || truthy mpr
                       then raise exc
                       else _poll_rdir b None (Some [_make_id ns ty v])
                  else raise exc) ;;
   link_polled b v ma ty polled) st.
Proof.
  intros Hh. apply healthy_of_nonempty in Hh.
  unfold _smart_link_rdir. rewrite length_opened_db.
  by destruct (Z.leb_spec (Z.of_nat (length (healthy_of fleet))) 0); [lia|].
Qed.

Lemma status_eq_Some ex s n : exc_status ex = Some s -> status_eq ex n = (s =? n).
Proof. unfold status_eq. by intros ->. Qed.

(** C5, amended.  When the first poll fails, [_smart_link_rdir] polls
    once more, without avoid-set and from the state the first poll left,
    exactly when the failure is an application error of status 481 and
    [max_per_rdir] is absent or [0]; whatever that second poll raises is
    raised.  In every other case the failure of the first poll is raised
    as it is and nothing else is done. *)
Theorem smart_link_poll_retry (volume_id : string) (fleet : list service)
    (max_per_rdir : option Z) (max_attempts : nat) (service_type : string)
    (st : state) (exc : exn) (st1 : state) :
  let known := Some [_make_id ns service_type volume_id] in
  (exists x, x ∈ fleet /\ 0 < score x) ->
  _poll_rdir b (Some (avoids ns max_per_rdir fleet)) known st
    = (Raise exc, st1) ->
  (is_ClientException exc = true -> exc_status exc = Some 481 ->
   max_per_rdir = None \/ max_per_rdir = Some 0 ->
   _smart_link_rdir b ns volume_id fleet max_per_rdir max_attempts
     service_type st
   = (polled <- _poll_rdir b None known ;;
      link_polled b volume_id max_attempts service_type polled) st1 /\
   exists tr',
     trace (snd (_smart_link_rdir b ns volume_id fleet max_per_rdir
                   max_attempts service_type st))
     = trace st1 ++ EvPoll "__rawx_rdir" None known :: tr') /\
  (is_ClientException exc = false \/ exc_status exc <> Some 481 \/
   (exists cap, max_per_rdir = Some cap /\ cap <> 0) ->
   _smart_link_rdir b ns volume_id fleet max_per_rdir max_attempts
     service_type st
   = (Raise exc, st1)).
Proof.
  intros known Hh Hp. split.
  - intros Hc Hs Hm.
    assert (Ht : truthy max_per_rdir = false) by (by destruct Hm as [->| ->]).
    assert (Heq :
      _smart_link_rdir b ns volume_id fleet max_per_rdir max_attempts
        service_type st
      = (polled <- _poll_rdir b None known ;;
         link_polled b volume_id max_attempts service_type polled) st1).
    { rewrite smart_link_healthy by done. fold known.
      unfold bind at 1, try_except at 1.
      rewrite Hp, Hc, (status_eq_Some _ _ _ Hs), Ht. reflexivity. }
    split; [exact Heq|]. rewrite Heq.
    assert (Hs' : starts_with (EvPoll "__rawx_rdir" None known)
                    (polled <- _poll_rdir b None known ;;
                     link_polled b volume_id max_attempts service_type
                       polled)).
    { apply starts_with_bind; [apply starts_with_poll_rdir|].
      intros polled. by apply emits_link_polled. }
    exact (Hs' st1).
  - intros Hcase. rewrite smart_link_healthy by done. fold known.
    unfold bind at 1, try_except at 1. rewrite Hp.
    destruct Hcase as [Hc|[Hs|(cap & -> & Hcap)]].
    + by rewrite Hc.
    + destruct (is_ClientException exc); [|done].
      assert (Hn : status_eq exc 481 = false).
      { unfold status_eq. destruct (exc_status exc) as [s|]; [|done].
        apply Z.eqb_neq. congruence. }
      by rewrite Hn.
    + destruct (is_ClientException exc); [|done].
      assert (Ht : truthy (Some cap) = true).
      { simpl. by apply negb_true_iff, Z.eqb_neq. }
      rewrite Ht, orb_true_r. done.
Qed.

(** One attempt answered "already linked" ends the loop at once. *)
Lemma force_loop_already v forced maxz n i st ex :
  directory_force b (trace st) RDIR_ACCT v "rdir" forced true = Raise ex ->
  already_linked ex ->
  force_loop b v forced maxz (S n) i st
  = (Ok tt, log_event (EvDirForce RDIR_ACCT v "rdir" forced true) st).
Proof.
  intros Hf (Hc & Hdone). simpl. unfold try_except, call. rewrite Hf, Hc.
  simpl. destruct Hdone as [Hs|[Hm|Hm]].
  - unfold status_in. simpl. by rewrite (status_eq_Some _ _ _ Hs).
  - rewrite Hm. by destruct (status_in ex [455]).
  - rewrite Hm. destruct (status_in ex [455]); [done|].
    by destruct (String.prefix ALREADY0 (exc_message ex)).
Qed.

Lemma create_best_effort v ty st :
  exists st', try_except (create b v ty) (fun _ => ret tt) st = (Ok tt, st').
Proof.
  unfold try_except. destruct (create b v ty st) as [[[]|e] st1]; by eexists.
Qed.

(** C2. Once an rdir is selected, a force write that is answered with
    status 455, or with a message that starts with one of the two
    "already linked" messages, counts as done: [_smart_link_rdir] goes
    on and returns the identifier of the selected rdir.  The same holds
    at every attempt of the loop, not only the first. *)
Theorem smart_link_already_linked (volume_id : string) (fleet : list service)
    (max_per_rdir : option Z) (max_attempts : nat) (service_type : string)
    (st : state) (polled : candidate) (st1 : state) (ex : exn) :
  (forall n i s,
      directory_force b (trace s) RDIR_ACCT volume_id "rdir"
        (forced_link polled) true = Raise ex ->
      already_linked ex ->
      force_loop b volume_id (forced_link polled) (Z.of_nat max_attempts)
        (S n) i s
      = (Ok tt, log_event (force_event volume_id polled) s)) /\
  ((exists x, x ∈ fleet /\ 0 < score x) ->
   _poll_rdir b (Some (avoids ns max_per_rdir fleet))
     (Some [_make_id ns service_type volume_id]) st = (Ok polled, st1) ->
   (0 < max_attempts)%nat ->
   directory_force b (trace st1) RDIR_ACCT volume_id "rdir"
     (forced_link polled) true = Raise ex ->
   already_linked ex ->
   exists st',
     _smart_link_rdir b ns volume_id fleet max_per_rdir max_attempts
       service_type st
     = (Ok (cand_id polled), st')).
Proof.
  split.
  - intros n i s Hf Ha. by apply (force_loop_already _ _ _ _ _ _ ex).
  - intros Hh Hp Hm Hf Ha. rewrite smart_link_healthy by done.
    unfold bind at 1, try_except at 1. rewrite Hp.
    unfold link_polled. fold (forced_link polled).
    destruct max_attempts as [|m]; [lia|].
    unfold bind at 1. rewrite (force_loop_already _ _ _ _ _ _ ex) by done.
    unfold bind at 1.
    destruct (create_best_effort volume_id service_type
                (log_event (EvDirForce RDIR_ACCT volume_id "rdir"
                              (forced_link polled) true) st1))
      as (st' & ->).
    by exists st'.
Qed.

Lemma status_in_cons ex s l n :
  exc_status ex = Some s -> status_in ex (n :: l) = (s =? n) || status_in ex l.
Proof. intros Hs. unfold status_in. simpl. by rewrite (status_eq_Some _ _ _ Hs). Qed.

Lemma status_in_nil ex : status_in ex [] = false.
Proof. done. Qed.

(** What the loop does with a retriable failure that is not "already
    linked": sleep and go on, or give up at the last attempt. *)
Lemma force_loop_retriable v forced maxz n i st ex :
  directory_force b (trace st) RDIR_ACCT v "rdir" forced true = Raise ex ->
  retriable_status ex ->
  String.prefix ALREADY0 (exc_message ex) = false ->
  String.prefix ALREADY1 (exc_message ex) = false ->
  force_loop b v forced maxz (S n) i st
  = if Z.of_nat i <? maxz - 1
    then force_loop b v forced maxz n (S i)
           (log_event (EvSleep i)
              (log_event (EvDirForce RDIR_ACCT v "rdir" forced true) st))
    else (Raise ex, log_event (EvDirForce RDIR_ACCT v "rdir" forced true) st).
Proof.
  intros Hf (Hc & s & Hs & Hr) H0 H1. simpl. unfold try_except, call.
  rewrite Hf, Hc, H0, H1. simpl.
  rewrite !(status_in_cons _ _ _ _ Hs), status_in_nil.
  unfold status_ge. rewrite Hs.
  assert (E455 : (s =? 455) = false) by (apply Z.eqb_neq; lia).
  rewrite E455. simpl.
  assert (Er : (s =? 406) || ((s =? 450) || ((s =? 503) || ((s =? 504) || false)))
               = true).
  { destruct Hr as [->|[->|[->| ->]]]; reflexivity. }
  rewrite Er, andb_false_r.
  by destruct (Z.of_nat i <? maxz - 1).
Qed.

Lemma force_loop_exhausts v forced n : forall i st,
  (forall tr, exists ex,
      directory_force b tr RDIR_ACCT v "rdir" forced true = Raise ex /\
      retriable_status ex /\
      String.prefix ALREADY0 (exc_message ex) = false /\
      String.prefix ALREADY1 (exc_message ex) = false) ->
  exists ex,
    force_loop b v forced (Z.of_nat (i + S n)) (S n) i st
    = (Raise ex,
       State (trace st ++
                retry_trace (EvDirForce RDIR_ACCT v "rdir" forced true) i n)
             (addr_cache st)) /\
    directory_force b
      (trace st ++
         flat_map (fun j => [EvDirForce RDIR_ACCT v "rdir" forced true;
                             EvSleep j]) (seq i n))
      RDIR_ACCT v "rdir" forced true = Raise ex /\
    retriable_status ex.
Proof.
  induction n as [|n IH]; intros i st Hb.
  - destruct (Hb (trace st)) as (ex & Hf & Hr & H0 & H1).
    exists ex. rewrite (force_loop_retriable _ _ _ _ _ _ ex) by done.
    destruct (Z.ltb_spec (Z.of_nat i) (Z.of_nat (i + 1) - 1)); [lia|].
    split; [reflexivity|]. simpl. rewrite app_nil_r. by split.
  - destruct (Hb (trace st)) as (ex0 & Hf & Hr & H0 & H1).
    rewrite (force_loop_retriable _ _ _ _ _ _ ex0) by done.
    destruct (Z.ltb_spec (Z.of_nat i) (Z.of_nat (i + S (S n)) - 1)); [|lia].
    replace (i + S (S n))%nat with (S i + S n)%nat by lia.
    destruct (IH (S i)
                (log_event (EvSleep i)
                   (log_event (EvDirForce RDIR_ACCT v "rdir" forced true) st))
                Hb) as (ex & E & Hl & Hrl).
    exists ex. rewrite E. split; [|split; [|done]].
    + unfold retry_trace. simpl. by rewrite <- !app_assoc.
    + rewrite <- Hl. simpl. by rewrite <- !app_assoc.
Qed.

(** The loop does not catch a network-level error. *)
Lemma force_loop_network v forced maxz n i st ex :
  directory_force b (trace st) RDIR_ACCT v "rdir" forced true = Raise ex ->
  is_ClientException ex = false ->
  force_loop b v forced maxz (S n) i st
  = (Raise ex, log_event (EvDirForce RDIR_ACCT v "rdir" forced true) st).
Proof.
  intros Hf Hc. simpl. unfold try_except, call. by rewrite Hf, Hc.
Qed.

(** C3, amended.  Once an rdir is selected, against a directory whose
    force write always fails with status 406, 450, 503 or 504 and a
    message that starts with neither "already linked" message,
    [_smart_link_rdir] with its 7 attempts writes 7 times, sleeps 0, 1,
    2, 3, 4 and 5 seconds between the attempts, and raises the error of
    the seventh. *)
Theorem smart_link_retry_ceiling (volume_id : string) (fleet : list service)
    (max_per_rdir : option Z) (service_type : string)
    (st : state) (polled : candidate) (st1 : state) :
  let F := force_event volume_id polled in
  always_fails_retriable_plain b volume_id ->
  (exists x, x ∈ fleet /\ 0 < score x) ->
  _poll_rdir b (Some (avoids ns max_per_rdir fleet))
    (Some [_make_id ns service_type volume_id]) st = (Ok polled, st1) ->
  exists ex st',
    _smart_link_rdir b ns volume_id fleet max_per_rdir 7 service_type st
      = (Raise ex, st') /\
    trace st' = trace st1 ++
      [F; EvSleep 0; F; EvSleep 1; F; EvSleep 2; F; EvSleep 3;
       F; EvSleep 4; F; EvSleep 5; F] /\
    directory_force b
      (trace st1 ++
         [F; EvSleep 0; F; EvSleep 1; F; EvSleep 2; F; EvSleep 3;
          F; EvSleep 4; F; EvSleep 5])
      RDIR_ACCT volume_id "rdir" (forced_link polled) true = Raise ex /\
    retriable_status ex.
Proof.
  intros F Hb Hh Hp. rewrite smart_link_healthy by done.
  unfold bind at 1, try_except at 1. rewrite Hp.
  unfold link_polled. fold (forced_link polled).
  destruct (force_loop_exhausts volume_id (forced_link polled) 6 0 st1)
    as (ex & E & Hl & Hr).
  { intros tr. apply Hb. }
  exists ex. eexists. unfold bind at 1.
  change (Z.of_nat 7) with (Z.of_nat (0 + 7)). rewrite E.
  split; [reflexivity|]. split; [reflexivity|]. split; [exact Hl|exact Hr].
Qed.

End LinkFacts.

Lemma smart_link_poll_retry_witness :
  (_smart_link_rdir Harness.no_candidate "NS" "vol" Harness.fleet246 None 7
     "rawx" Harness.st0
   = (polled <- _poll_rdir Harness.no_candidate None (Some ["NS|rawx|vol"]) ;;
      link_polled Harness.no_candidate "vol" 7 "rawx" polled)
       (State [EvPoll "__rawx_rdir" (Some ["NS|rdir|10.0.0.3:6301"])
                      (Some ["NS|rawx|vol"])] ∅)) /\
  (_smart_link_rdir Harness.no_candidate "NS" "vol" Harness.fleet246 (Some 3) 7
     "rawx" Harness.st0
   = (Raise (Harness.http_error 481 "no service"),
      State [EvPoll "__rawx_rdir" (Some ["NS|rdir|10.0.0.2:6301";
                                         "NS|rdir|10.0.0.3:6301"])
                    (Some ["NS|rawx|vol"])] ∅)).
Proof.
  assert (Hh : exists x, x ∈ Harness.fleet246 /\ 0 < score x).
  { exists (Harness.rdir_with Harness.rdir1 2).
    split; [apply list_elem_of_here|reflexivity]. }
  split.
  - refine (proj1 (proj1 (smart_link_poll_retry Harness.no_candidate "NS" "vol"
                     Harness.fleet246 None 7 "rawx" Harness.st0
                     (Harness.http_error 481 "no service") _ Hh _)
                     _ _ _)).
    + vm_compute. reflexivity.
    + reflexivity.
    + reflexivity.
    + by left.
  - refine (proj2 (smart_link_poll_retry Harness.no_candidate "NS" "vol"
                     Harness.fleet246 (Some 3) 7 "rawx" Harness.st0
                     (Harness.http_error 481 "no service") _ Hh _) _).
    + vm_compute. reflexivity.
    + right. right. exists 3. split; [reflexivity|lia].
Defined.

(** C5 as stated fails for a cap of [0]: the first poll fails with
    status 481, a cap is given, and yet the poll is made again. *)
Lemma smart_link_poll_retry_cap_0 :
  exists exc st1,
    _poll_rdir Harness.no_candidate
      (Some (avoids "NS" (Some 0) Harness.fleet246)) (Some ["NS|rawx|vol"])
      Harness.st0 = (Raise exc, st1) /\
    exc_status exc = Some 481 /\
    _smart_link_rdir Harness.no_candidate "NS" "vol" Harness.fleet246 (Some 0)
      7 "rawx" Harness.st0 <> (Raise exc, st1) /\
    Harness.count_polls
      (trace (snd (_smart_link_rdir Harness.no_candidate "NS" "vol"
                     Harness.fleet246 (Some 0) 7 "rawx" Harness.st0)))
    = 2%nat.
Proof.
  exists (Harness.http_error 481 "no service"). eexists.
  split; [vm_compute; reflexivity|]. split; [reflexivity|].
  split; [|vm_compute; reflexivity].
  intros E. apply (f_equal (fun r => length (trace (snd r)))) in E.
  vm_compute in E. discriminate.
Qed.

Lemma smart_link_already_linked_witness :
  exists st',
    _smart_link_rdir (Harness.force_fails (Harness.http_error 455 "done"))
      "NS" "vol" Harness.fleet246 None 7 "rawx" Harness.st0
    = (Ok "NS|rdir|10.0.0.1:6301", st').
Proof.
  refine (proj2 (smart_link_already_linked
                   (Harness.force_fails (Harness.http_error 455 "done")) "NS"
                   "vol" Harness.fleet246 None 7 "rawx" Harness.st0
                   (Candidate "NS|rdir|10.0.0.1:6301" Harness.rdir1) _
                   (Harness.http_error 455 "done")) _ _ _ _ _).
  - exists (Harness.rdir_with Harness.rdir1 2).
    split; [apply list_elem_of_here|reflexivity].
  - vm_compute. reflexivity.
  - lia.
  - reflexivity.
  - split; [reflexivity|]. left. reflexivity.
Defined.

Lemma smart_link_retry_ceiling_witness :
  exists ex st',
    _smart_link_rdir (Harness.force_fails (Harness.http_error 503 "busy"))
      "NS" "vol" Harness.fleet246 None 7 "rawx" Harness.st0
    = (Raise ex, st') /\
    Harness.count_forces (trace st') = 7%nat.
Proof.
  destruct (smart_link_retry_ceiling
              (Harness.force_fails (Harness.http_error 503 "busy")) "NS"
              "vol" Harness.fleet246 None "rawx" Harness.st0
              (Candidate "NS|rdir|10.0.0.1:6301" Harness.rdir1)
              (State [EvPoll "__rawx_rdir" (Some ["NS|rdir|10.0.0.3:6301"])
                             (Some ["NS|rawx|vol"])] ∅))
    as (ex & st' & E & Ht & _).
  - intros tr forced. exists (Harness.http_error 503 "busy").
    split; [reflexivity|]. split.
    + split; [reflexivity|]. exists 503. split; [reflexivity|]. tauto.
    + split; reflexivity.
  - exists (Harness.rdir_with Harness.rdir1 2).
    split; [apply list_elem_of_here|reflexivity].
  - vm_compute. reflexivity.
  - exists ex, st'. split; [exact E|]. rewrite Ht. reflexivity.
Defined.

(** C3 as stated fails when the retriable status comes with an "already
    linked" message: the write always fails with status 503, yet the
    loop stops after one attempt and the link counts as made. *)
Lemma smart_link_retry_ceiling_already :
  always_fails_retriable Harness.busy_but_linked "vol" /\
  exists st',
    _smart_link_rdir Harness.busy_but_linked "NS" "vol" Harness.fleet246 None
      7 "rawx" Harness.st0
    = (Ok "NS|rdir|10.0.0.1:6301", st') /\
    Harness.count_forces (trace st') = 1%nat.
Proof.
  split.
  - intros tr forced. eexists. split; [reflexivity|].
    split; [reflexivity|]. exists 503. split; [reflexivity|]. tauto.
  - eexists. split; [vm_compute; reflexivity|]. reflexivity.
Qed.

(** C4 fails on the code.  A network-level error of the force write is
    not an application error, so the loop does not catch it: one
    attempt, no sleep, and the error is raised at once. *)
Theorem smart_link_network_error_not_retried :
  _smart_link_rdir (Harness.force_fails Harness.net_error) "NS" "vol"
    Harness.fleet246 None 7 "rawx" Harness.st0
  = (Raise Harness.net_error,
     State [EvPoll "__rawx_rdir" (Some ["NS|rdir|10.0.0.3:6301"])
                   (Some ["NS|rawx|vol"]);
            EvDirForce RDIR_ACCT "vol" "rdir"
              (Link Harness.rdir1 "rdir" 1 "" "NS|rdir|10.0.0.1:6301") true]
           ∅).
Proof. vm_compute. reflexivity. Qed.

(** A failure that the proxy reports as an application error with a
    status below 400 is retried up to the ceiling. *)
Example smart_link_low_status_retried :
  Harness.count_forces
    (trace (snd (_smart_link_rdir
                   (Harness.force_fails (Harness.http_error 2 "refused"))
                   "NS" "vol" Harness.fleet246 None 7 "rawx" Harness.st0)))
  = 7%nat.
Proof. vm_compute. reflexivity. Qed.

(* ===================================================================== *)
(** ** Assignments *)
(* ===================================================================== *)

Lemma string_app_inv_head (p a a' : string) : p +:+ a = p +:+ a' -> a = a'.
Proof.
  induction p as [|c p IH]; simpl; [done|]. intros [= E]. by apply IH.
Qed.

Lemma make_id_inj ns ty a a' : _make_id ns ty a = _make_id ns ty a' -> a = a'.
Proof.
  unfold _make_id. intros E.
  do 4 apply string_app_inv_head in E. exact E.
Qed.

Lemma make_id_inj_ref ns ty a a' : a <> a' -> _make_id ns ty a <> _make_id ns ty a'.
Proof. intros Hne E. by apply Hne, (make_id_inj ns ty). Qed.

Section IndexFacts.

Variable ns : string.

Lemma index_by_id_absent host l : forall i m,
  Forall (fun x => addr x <> host) l ->
  index_by_id ns i l m !! _make_id ns "rdir" host
  = m !! _make_id ns "rdir" host.
Proof.
  induction l as [|x l IH]; intros i m Hall; simpl; [done|].
  apply Forall_cons in Hall as [Hx Hl].
  rewrite IH by done. apply lookup_insert_ne. by apply make_id_inj_ref.
Qed.

Lemma index_by_id_present host l : forall i m,
  Exists (fun x => addr x = host) l ->
  exists j x,
    index_by_id ns i l m !! _make_id ns "rdir" host = Some (Known (i + j)) /\
    l !! j = Some x /\ addr x = host.
Proof.
  induction l as [|x l IH]; intros i m Hex; simpl.
  - by apply Exists_nil in Hex.
  - destruct (decide (Exists (fun x => addr x = host) l)) as [Hl|Hl].
    + destruct (IH (S i) (<[_make_id ns "rdir" (addr x) := Known i]> m) Hl)
        as (j & y & E & Hj & Hy).
      exists (S j), y. rewrite E. split; [f_equal; f_equal; lia|]. by split.
    + apply Exists_cons in Hex as [Hx|Hex]; [|done].
      exists 0%nat, x. rewrite index_by_id_absent.
      * rewrite <- Hx, lookup_insert_eq. split; [f_equal; f_equal; lia|].
        by split.
      * apply Forall_forall. intros y Hy Hc. apply Hl.
        apply Exists_exists. by exists y.
Qed.

Lemma index_by_id_known all_rdir host :
  (exists x, x ∈ all_rdir /\ addr x = host) ->
  attached_to all_rdir host
    (index_by_id ns 0 all_rdir ∅ !! _make_id ns "rdir" host).
Proof.
  intros (x & Hin & Hx).
  destruct (index_by_id_present host all_rdir 0 ∅) as (j & y & E & Hj & Hy).
  { apply Exists_exists. by exists x. }
  exists j, y. by rewrite E.
Qed.

Lemma index_by_id_unknown all_rdir host :
  Forall (fun x => addr x <> host) all_rdir ->
  index_by_id ns 0 all_rdir ∅ !! _make_id ns "rdir" host = None.
Proof. intros Hall. by rewrite index_by_id_absent. Qed.

End IndexFacts.

Section ReadPath.

Variable b : Backend.
Variable ns : string.

Lemma emits_directory_list_rdir (P : event -> Prop) ref :
  P (EvDirList RDIR_ACCT ref "rdir") -> emits P (directory_list_rdir b ref).
Proof. intros HP. by apply emits_call. Qed.

Lemma emits_get_assignment (P : event -> Prop) by_id svc :
  P (EvDirList RDIR_ACCT (read_ref svc) "rdir") ->
  emits P (get_assignment b ns by_id svc).
Proof.
  intros HP. unfold get_assignment. apply emits_try.
  - apply emits_bind; [by apply emits_directory_list_rdir|]. intros resp.
    apply emits_bind; [apply emits_lift|]. intros host.
    destruct (by_id !! _); apply emits_ret.
  - intros exc. destruct (is_NotFound exc); [apply emits_ret|].
    destruct (is_OioException exc); [apply emits_ret|apply emits_raise].
Qed.

Lemma emits_get_assignments_loop (P : event -> Prop) services :
  (forall ref, P (EvDirList RDIR_ACCT ref "rdir")) ->
  forall by_id, emits P (get_assignments_loop b ns by_id services).
Proof.
  intros HP. induction services as [|svc rest IH]; intros by_id; simpl.
  - apply emits_ret.
  - apply emits_bind; [by apply emits_get_assignment|]. intros r.
    apply emits_bind; [apply IH|]. intros out. apply emits_ret.
Qed.

Lemma emits_get_assignments service_type :
  emits read_only (get_assignments b ns service_type).
Proof.
  unfold get_assignments, all_of_type.
  apply emits_bind; [by apply emits_call|]. intros all_services.
  apply emits_bind; [by apply emits_call|]. intros all_rdir.
  apply emits_bind; [by apply emits_get_assignments_loop|]. intros out.
  apply emits_ret.
Qed.

(** One turn of the loop: the directory is asked once, at the history
    the turn starts from; [by_id] only grows; and a link to an rdir that
    [by_id] knows attaches that rdir. *)
Lemma get_assignment_turn by_id svc st :
  trace (snd (get_assignment b ns by_id svc st))
    = trace st ++ [EvDirList RDIR_ACCT (read_ref svc) "rdir"] /\
  forall att by_id',
    fst (get_assignment b ns by_id svc st) = Ok (att, by_id') ->
    by_id ⊆ by_id' /\
    forall resp host r,
      directory_list b (trace st) RDIR_ACCT (read_ref svc) "rdir" = Ok resp ->
      _filter_rdir_host resp = Ok host ->
      by_id !! _make_id ns "rdir" host = Some r ->
      att = Some r.
Proof.
  unfold get_assignment, try_except, bind, directory_list_rdir, call, lift.
  simpl.
  destruct (directory_list b (trace st) RDIR_ACCT (read_ref svc) "rdir")
    as [resp|e] eqn:D.
  - destruct (_filter_rdir_host resp) as [host|e] eqn:F.
    + destruct (by_id !! _make_id ns "rdir" host) as [r|] eqn:L; simpl.
      * split; [done|]. intros att by_id' [= <- <-]. split; [done|].
        intros resp' host' r' [= <-]. rewrite F. intros [= <-]. congruence.
      * split; [done|]. intros att by_id' [= <- <-].
        split; [by apply insert_subseteq|].
        intros resp' host' r' [= <-]. rewrite F. intros [= <-]. congruence.
    + destruct (is_NotFound e); simpl.
      * split; [done|]. intros att by_id' [= <- <-]. split; [done|].
        intros resp' host' r' [= <-]. by rewrite F.
      * destruct (is_OioException e); simpl; (split; [done|]).
        -- intros att by_id' [= <- <-]. split; [done|].
           intros resp' host' r' [= <-]. by rewrite F.
        -- by intros att by_id' [=].
  - destruct (is_NotFound e); simpl.
    + split; [done|]. intros att by_id' [= <- <-]. split; [done|].
      by intros resp' host' r' [=].
    + destruct (is_OioException e); simpl; (split; [done|]).
      * intros att by_id' [= <- <-]. split; [done|].
        by intros resp' host' r' [=].
      * by intros att by_id' [=].
Qed.

Lemma get_assignments_loop_attach by_id0 services : forall by_id st out st',
  by_id0 ⊆ by_id ->
  get_assignments_loop b ns by_id services st = (Ok out, st') ->
  map fst out = services /\
  forall i svc att, out !! i = Some (svc, att) ->
    exists tr,
      trace st `prefix_of` tr /\
      (tr ++ [EvDirList RDIR_ACCT (read_ref svc) "rdir"])
        `prefix_of` trace st' /\
      forall resp host r,
        directory_list b tr RDIR_ACCT (read_ref svc) "rdir" = Ok resp ->
        _filter_rdir_host resp = Ok host ->
        by_id0 !! _make_id ns "rdir" host = Some r ->
        att = Some r.
Proof.
  induction services as [|svc rest IH]; intros by_id st out st' Hsub; simpl.
  - intros [= <- <-]. split; [done|]. by intros i s a.
  - unfold bind at 1.
    destruct (get_assignment_turn by_id svc st) as (Ht & Hr).
    destruct (get_assignment b ns by_id svc st) as [[[att by_id']|e] st1] eqn:G;
      [|done].
    simpl in Ht. destruct (Hr att by_id' eq_refl) as (Hsub' & Hatt).
    unfold bind at 1. cbn [fst snd].
    destruct (get_assignments_loop b ns by_id' rest st1)
      as [[out'|e] st2] eqn:L; [|done].
    unfold ret. intros [= <- <-]. simpl.
    destruct (IH by_id' st1 out' st2) as (Hm & Hrest);
      [by etrans|done|].
    split; [by rewrite Hm|].
    destruct (emits_get_assignments_loop any_event rest
                (fun _ => I) by_id' _ _ _ L) as (t2 & Et2 & _).
    intros [|i] svc' att' Hi; simpl in Hi.
    + injection Hi as <- <-. exists (trace st). split; [done|].
      split.
      * rewrite Et2, Ht. by apply prefix_app_r.
      * intros resp host r D F Hl. eapply Hatt; eauto.
        by eapply lookup_weaken.
    + destruct (Hrest i svc' att' Hi) as (tr & Hp1 & Hp2 & Hatt').
      exists tr. split; [|by split].
      etrans; [|exact Hp1]. rewrite Ht. by apply prefix_app_r.
Qed.

(** With both listings answered and a directory that fails with
    [OioException]s only, the loop never raises. *)
Lemma get_assignments_loop_returns services :
  (forall tr ref e,
      directory_list b tr RDIR_ACCT ref "rdir" = Raise e ->
      is_OioException e = true) ->
  forall by_id st, exists out st',
    get_assignments_loop b ns by_id services st = (Ok out, st') /\
    map fst out = services.
Proof.
  intros Hdir. induction services as [|svc rest IH]; intros by_id st; simpl.
  - by exists [], st.
  - assert (Hturn : exists r st1,
              get_assignment b ns by_id svc st = (Ok r, st1)).
    { unfold get_assignment, try_except, bind, directory_list_rdir, call, lift.
      simpl.
      destruct (directory_list b (trace st) RDIR_ACCT (read_ref svc) "rdir")
        as [resp|e] eqn:D.
      - unfold _filter_rdir_host.
        destruct (List.find _ resp) as [srv|].
        + destruct (by_id !! _); by eexists; eexists.
        + simpl. by eexists; eexists.
      - destruct (is_NotFound e); [by eexists; eexists|].
        rewrite (Hdir _ _ _ D). by eexists; eexists. }
    destruct Hturn as (r & st1 & G). unfold bind at 1. rewrite G.
    destruct (IH (snd r) st1) as (out & st' & L & Hm).
    unfold bind at 1. rewrite L. unfold ret.
    exists ((svc, fst r) :: out), st'. split; [done|]. simpl. by rewrite Hm.
Qed.

(** C9. [get_assignments] only lists services and reads links: it never
    polls the load balancer, creates a pool, forces a link or sends a
    request to an rdir, for any service and whatever happens.  And when
    it returns, every service whose link, as the directory answered it
    when asked for that service, points to the address of one of the
    rdir services just listed, carries that rdir.  It does return, with
    every service of the listing, as soon as both listings are answered
    and the directory fails with [OioException]s only. *)
Theorem get_assignments_read_only (service_type : string) (st : state) :
  emits read_only (get_assignments b ns service_type) /\
  (forall all_services all_rdir,
      cs_all_services b (trace st) service_type false = Ok all_services ->
      cs_all_services b (trace st ++ [EvAllServices service_type false])
        "rdir" true = Ok all_rdir ->
      (forall tr ref e,
          directory_list b tr RDIR_ACCT ref "rdir" = Raise e ->
          is_OioException e = true) ->
      exists out st',
        get_assignments b ns service_type st = (Ok (out, all_rdir), st') /\
        map fst out = all_services) /\
  forall out all_rdir st',
    get_assignments b ns service_type st = (Ok (out, all_rdir), st') ->
    forall i svc att, out !! i = Some (svc, att) ->
    exists tr,
      trace st `prefix_of` tr /\
      (tr ++ [EvDirList RDIR_ACCT (read_ref svc) "rdir"])
        `prefix_of` trace st' /\
      forall resp host,
        directory_list b tr RDIR_ACCT (read_ref svc) "rdir" = Ok resp ->
        _filter_rdir_host resp = Ok host ->
        (exists x, x ∈ all_rdir /\ addr x = host) ->
        attached_to all_rdir host att.
Proof.
  split; [apply emits_get_assignments|]. split.
  { intros all_services all_rdir Hs Hr Hdir.
    unfold get_assignments, all_of_type, call.
    unfold bind at 1. simpl. rewrite Hs.
    unfold bind at 1. simpl. rewrite Hr.
    destruct (get_assignments_loop_returns all_services Hdir
                (index_by_id ns 0 all_rdir ∅)
                (log_event (EvAllServices "rdir" true)
                   (log_event (EvAllServices service_type false) st)))
      as (out & st' & L & Hm).
    unfold bind at 1. rewrite L. by exists out, st'. }
  intros out all_rdir st'. unfold get_assignments, all_of_type, call.
  unfold bind at 1. simpl.
  destruct (cs_all_services b (trace st) service_type false)
    as [all_services|e]; [|done].
  unfold bind at 1. simpl.
  destruct (cs_all_services b _ "rdir" true) as [fleet|e]; [|done].
  unfold bind at 1.
  destruct (get_assignments_loop b ns _ all_services _)
    as [[out'|e] st2] eqn:L; [|done].
  intros [= <- <- <-] i svc att Hi.
  destruct (get_assignments_loop_attach _ _ _ _ _ _ (reflexivity _) L)
    as (_ & Hall).
  destruct (Hall i svc att Hi) as (tr & Hp1 & Hp2 & Hatt).
  exists tr. split.
  { etrans; [|exact Hp1]. simpl. rewrite <- app_assoc. by apply prefix_app_r. }
  split; [done|].
  intros resp host D F Hk.
  destruct (index_by_id_known ns fleet host Hk) as (j & x & E & Hj & Hx).
  rewrite (Hatt resp host _ D F E). by exists j, x.
Qed.

End ReadPath.

Lemma get_assignments_read_only_witness :
  exists out st' att,
    get_assignments Harness.linked_cluster "NS" "rawx" Harness.st0
      = (Ok (out, Harness.fleet246), st') /\
    out !! 1%nat = Some (Harness.rawx "10.0.0.9:6201", att) /\
    attached_to Harness.fleet246 Harness.rdir1 att /\
    Forall read_only (trace st').
Proof.
  pose proof (get_assignments_read_only Harness.linked_cluster "NS" "rawx"
                Harness.st0) as (Hro & Hret & Hatt).
  destruct (Hret [Harness.rawx "10.0.0.8:6201"; Harness.rawx "10.0.0.9:6201"]
              Harness.fleet246 eq_refl eq_refl) as (out & st' & E & Hm).
  { intros tr ref e D. discriminate D. }
  destruct (Hro _ _ _ E) as (t & Et & Ft).
  assert (Hout : out !! 1%nat
                 = Some (Harness.rawx "10.0.0.9:6201", Some (Known 0))).
  { pose proof E as E'. vm_compute in E'. injection E' as <- _. reflexivity. }
  exists out, st', (Some (Known 0)). split; [exact E|].
  split; [exact Hout|]. split.
  - destruct (Hatt _ _ _ E _ _ _ Hout) as (tr & _ & _ & Hk).
    apply (Hk [SrvEntry "rdir" Harness.rdir1] Harness.rdir1);
      [reflexivity|reflexivity|].
    exists (Harness.rdir_with Harness.rdir1 2).
    split; [apply list_elem_of_here|reflexivity].
  - simpl in Et. rewrite Et. exact Ft.
Defined.

Section WritePath.

Variable b : Backend.
Variable ns : string.
Context {K : Type} `{EqDecision K}.
Variable signature : exn -> K.
Variable repr_errors : list (exn * list string) -> string.

Lemma index_by_id_only_known l : forall i m k r,
  index_by_id ns i l m !! k = Some r ->
  (exists j, r = Known j) \/ m !! k = Some r.
Proof.
  induction l as [|x l IH]; intros i m k r; simpl; [by right|].
  intros E. destruct (IH _ _ _ _ E) as [Hk|Hm]; [by left|].
  destruct (decide (_make_id ns "rdir" (addr x) = k)) as [<-|Hne].
  - rewrite lookup_insert_eq in Hm. injection Hm as <-. left. by eexists.
  - rewrite lookup_insert_ne in Hm by done. by right.
Qed.

Lemma index_by_id_no_placeholder all_rdir k host :
  index_by_id ns 0 all_rdir ∅ !! k <> Some (Placeholder host).
Proof.
  intros E. destruct (index_by_id_only_known _ _ _ _ _ E) as [[j Hj]|Hm].
  - discriminate.
  - by rewrite lookup_empty in Hm.
Qed.

(** The handler of [except NotFound] in [assign_services]. *)
Lemma emits_assign_provider (P : event -> Prop) ty mpr by_id s provider :
  let v := provider_id provider in
  P (EvDirList RDIR_ACCT v "rdir") ->
  (forall avoid, P (EvPoll "__rawx_rdir" avoid (Some [_make_id ns ty v]))) ->
  P (EvCreatePool "__rawx_rdir" [(1, JOKER_SVC_TARGET); (1, "rdir")]) ->
  (forall polled, P (force_event v polled)) ->
  (forall i, P (EvSleep i)) ->
  (forall uri ps, ps !! "vol" = Some v -> P (EvRequest "POST" uri ps None)) ->
  emits P (assign_provider b ns ty mpr by_id s provider).
Proof.
  intros v HL HP HC HF HS HR. unfold assign_provider. fold v.
  apply emits_try.
  - apply emits_bind; [by apply emits_directory_list_rdir|]. intros resp.
    apply emits_bind; [apply emits_lift|]. intros host.
    destruct (by_id !! _); apply emits_ret.
  - intros exc. destruct (is_NotFound exc).
    + intros st r st'.
      destruct (_smart_link_rdir b ns v (rdirs s) mpr 7 ty st)
        as [[rdir|exc'] st1] eqn:E;
        pose proof (emits_smart_link b ns P v (rdirs s) mpr 7 ty
                      HP HC HF HS HL HR _ _ _ E) as Hem.
      * destruct (by_id !! rdir) as [[i|h]|];
          [destruct (rdirs s !! i)| |]; by intros [= <- <-].
      * destruct (is_OioException exc'); by intros [= <- <-].
    + destruct (is_OioException exc); [apply emits_ret|apply emits_raise].
Qed.

Lemma emits_any_assign_provider ty mpr by_id s provider :
  emits any_event (assign_provider b ns ty mpr by_id s provider).
Proof. by apply emits_assign_provider. Qed.

Lemma emits_any_assign_services_loop ty mpr by_id providers : forall s,
  emits any_event (assign_services_loop b ns ty mpr by_id s providers).
Proof.
  induction providers as [|p rest IH]; intros s; simpl; [apply emits_ret|].
  apply emits_bind; [apply emits_any_assign_provider|]. intros r.
  apply emits_bind; [apply IH|]. intros out. apply emits_ret.
Qed.

(** A service whose link points to an rdir that [by_id] does not know:
    the turn reads the link and does nothing else. *)
Lemma assign_provider_unknown ty mpr by_id s provider st resp host :
  directory_list b (trace st) RDIR_ACCT (provider_id provider) "rdir"
    = Ok resp ->
  _filter_rdir_host resp = Ok host ->
  by_id !! _make_id ns "rdir" host = None ->
  assign_provider b ns ty mpr by_id s provider st
  = (Ok (None, s),
     log_event (EvDirList RDIR_ACCT (provider_id provider) "rdir") st).
Proof.
  intros D F L. unfold assign_provider, try_except, bind, directory_list_rdir,
    call, lift. simpl. by rewrite D, F, L.
Qed.

(** What every turn keeps: the trace grows from the lookup on, the rdir
    records keep their addresses, and what is attached comes from
    [by_id]. *)
Lemma assign_provider_turn ty mpr by_id s provider st r st' :
  assign_provider b ns ty mpr by_id s provider st = (r, st') ->
  (exists t, trace st' =
             trace st ++ EvDirList RDIR_ACCT (provider_id provider) "rdir" :: t)
  /\
  forall att s', r = Ok (att, s') ->
    addr <$> rdirs s' = addr <$> rdirs s /\
    (forall ref, att = Some ref -> exists k, by_id !! k = Some ref).
Proof.
  intros E. split.
  - assert (Hs : starts_with
                   (EvDirList RDIR_ACCT (provider_id provider) "rdir")
                   (assign_provider b ns ty mpr by_id s provider)).
    { unfold assign_provider. apply starts_with_try.
      - apply starts_with_bind; [apply starts_with_call|]. intros resp.
        apply emits_bind; [apply emits_lift|]. intros host.
        destruct (by_id !! _); apply emits_ret.
      - intros exc. destruct (is_NotFound exc).
        + intros st0 r0 st0'.
          destruct (_smart_link_rdir b ns (provider_id provider) (rdirs s)
                      mpr 7 ty st0) as [[rdir|exc'] st1] eqn:E1;
            pose proof (emits_smart_link b ns any_event _ _ _ _ _
                          (fun _ => I) I (fun _ => I) (fun _ => I) I
                          (fun _ _ _ => I) _ _ _ E1) as Hem.
          * destruct (by_id !! rdir) as [[i|h]|];
              [destruct (rdirs s !! i)| |]; by intros [= <- <-].
          * destruct (is_OioException exc'); by intros [= <- <-].
        + destruct (is_OioException exc); [apply emits_ret|apply emits_raise]. }
    destruct (Hs st) as (t & Et). rewrite E in Et. by exists t.
  - revert E. unfold assign_provider, try_except, bind, directory_list_rdir,
      call, lift. simpl.
    set (st1 := log_event _ st).
    assert (Hnf : forall r0 st0,
      match _smart_link_rdir b ns (provider_id provider) (rdirs s) mpr 7 ty st1
      with
      | (Ok rdir, st2) =>
          match by_id !! rdir with
          | Some (Known i) =>
              match rdirs s !! i with
              | Some x =>
                  (Ok (Some (Known i),
                       AssignState (<[i := bump x]> (rdirs s)) (errors s)), st2)
              | None => (Raise (mk KeyError rdir), st2)
              end
          | _ => (Raise (mk KeyError rdir), st2)
          end
      | (Raise exc', st2) =>
          if is_OioException exc'
          then (Ok (None, AssignState (rdirs s)
                            (errors s ++ [(provider_id provider, exc')])), st2)
          else (Raise exc', st2)
      end = (r0, st0) ->
      forall att s', r0 = Ok (att, s') ->
        addr <$> rdirs s' = addr <$> rdirs s /\
        (forall ref, att = Some ref -> exists k, by_id !! k = Some ref)).
    { intros r0 st0.
      destruct (_smart_link_rdir b ns (provider_id provider) (rdirs s) mpr 7
                  ty st1) as [[rdir|exc'] st2].
      - destruct (by_id !! rdir) as [[i|h]|] eqn:L;
          [destruct (rdirs s !! i) as [x|] eqn:Hx| |];
          intros [= <- <-] att s' [= <- <-].
        simpl. split.
        + rewrite list_fmap_insert. apply list_insert_id.
          rewrite list_lookup_fmap, Hx. done.
        + intros ref [= <-]. by exists rdir.
      - destruct (is_OioException exc');
          intros [= <- <-] att s' [= <- <-].
        split; [done|]. by intros ref. }
    destruct (directory_list b (trace st) RDIR_ACCT (provider_id provider)
                "rdir") as [resp|e].
    + destruct (_filter_rdir_host resp) as [host|e].
      * destruct (by_id !! _make_id ns "rdir" host) as [ref|] eqn:L;
          intros [= <- <-] att s' [= <- <-]; (split; [done|]).
        -- intros ref' [= <-]. by eexists.
        -- by intros ref'.
      * destruct (is_NotFound e); [apply Hnf|].
        destruct (is_OioException e);
          intros [= <- <-] att s' [= <- <-].
        split; [done|]. by intros ref.
    + destruct (is_NotFound e); [apply Hnf|].
      destruct (is_OioException e);
        intros [= <- <-] att s' [= <- <-].
      split; [done|]. by intros ref.
Qed.

Lemma assign_services_loop_unknown ty mpr by_id providers :
  forall s st out s' st',
  assign_services_loop b ns ty mpr by_id s providers st = (Ok (out, s'), st') ->
  addr <$> rdirs s' = addr <$> rdirs s /\
  forall i provider att, out !! i = Some (provider, att) ->
    (forall ref, att = Some ref -> exists k, by_id !! k = Some ref) /\
    exists tr,
      trace st `prefix_of` tr /\
      (tr ++ [EvDirList RDIR_ACCT (provider_id provider) "rdir"])
        `prefix_of` trace st' /\
      forall resp host,
        directory_list b tr RDIR_ACCT (provider_id provider) "rdir" = Ok resp ->
        _filter_rdir_host resp = Ok host ->
        by_id !! _make_id ns "rdir" host = None ->
        att = None.
Proof.
  induction providers as [|p rest IH]; intros s st out s' st'; simpl.
  - intros [= <- <- <-]. split; [done|]. by intros i q a.
  - unfold bind at 1.
    destruct (assign_provider b ns ty mpr by_id s p st)
      as [[[att s1]|e] st1] eqn:G; [|done].
    destruct (assign_provider_turn _ _ _ _ _ _ _ _ G) as ((t & Et) & Hr).
    destruct (Hr att s1 eq_refl) as (Haddr & Hfrom).
    unfold bind at 1. cbn [fst snd].
    destruct (assign_services_loop b ns ty mpr by_id s1 rest st1)
      as [[[out' s2]|e] st2] eqn:L; [|done].
    unfold ret. cbn [fst snd]. intros [= <- <- <-].
    destruct (IH _ _ _ _ _ L) as (Haddr' & Hrest).
    split; [by rewrite Haddr'|].
    destruct (emits_any_assign_services_loop ty mpr by_id rest s1 _ _ _ L)
      as (t2 & Et2 & _).
    intros [|i] q a Hi; simpl in Hi.
    + injection Hi as <- <-. split; [done|].
      exists (trace st). split; [done|]. split.
      * rewrite Et2, Et.
        exists (t ++ t2). by rewrite <- !app_assoc.
      * intros resp host D F Lk.
        rewrite (assign_provider_unknown _ _ _ _ _ _ _ _ D F Lk) in G.
        by injection G as <- _ _.
    + destruct (Hrest i q a Hi) as (Hf & tr & Hp1 & Hp2 & Hn).
      split; [done|]. exists tr. split; [|by split].
      etrans; [|exact Hp1]. rewrite Et. by apply prefix_app_r.
Qed.

Lemma raise_collected_ok {A} errs (a a' : A) st st' :
  raise_collected signature repr_errors errs a st = (Ok a', st') ->
  errs = [] /\ a' = a /\ st' = st.
Proof.
  unfold raise_collected. destruct errs as [|e errs].
  - by intros [= <- <-].
  - by destruct (group_chunk_errors signature (e :: errs)) as [|[err addrs] [|g gs]].
Qed.

(** C10. In [assign_services], a service whose link, as the directory
    answers it, points to an rdir address that is not among the rdir
    services of the conscience is left alone: its turn of the loop only
    reads the link, attaches nothing, collects no error and leaves the
    rdir records as they were; and when [assign_services] returns, that
    service carries no rdir, and no service carries a placeholder.  The
    turn of [get_assignments], for the same answer of the directory,
    attaches a placeholder and remembers it. *)
Theorem assign_services_unknown_rdir (service_type : string)
    (max_per_rdir : option Z) :
  (forall all_rdir s provider st resp host,
      directory_list b (trace st) RDIR_ACCT (provider_id provider) "rdir"
        = Ok resp ->
      _filter_rdir_host resp = Ok host ->
      Forall (fun x => addr x <> host) all_rdir ->
      assign_provider b ns service_type max_per_rdir
        (index_by_id ns 0 all_rdir ∅) s provider st
      = (Ok (None, s),
         log_event (EvDirList RDIR_ACCT (provider_id provider) "rdir") st)) /\
  (forall st out fleet st',
      assign_services b ns signature repr_errors service_type max_per_rdir st
        = (Ok (out, fleet), st') ->
      forall i provider att, out !! i = Some (provider, att) ->
        (forall host, att <> Some (Placeholder host)) /\
        exists tr,
          trace st `prefix_of` tr /\
          (tr ++ [EvDirList RDIR_ACCT (provider_id provider) "rdir"])
            `prefix_of` trace st' /\
          forall resp host,
            directory_list b tr RDIR_ACCT (provider_id provider) "rdir"
              = Ok resp ->
            _filter_rdir_host resp = Ok host ->
            Forall (fun x => addr x <> host) fleet ->
            att = None) /\
  (forall all_rdir svc st resp host,
      directory_list b (trace st) RDIR_ACCT (read_ref svc) "rdir" = Ok resp ->
      _filter_rdir_host resp = Ok host ->
      Forall (fun x => addr x <> host) all_rdir ->
      let by_id := index_by_id ns 0 all_rdir ∅ in
      get_assignment b ns by_id svc st
      = (Ok (Some (Placeholder host),
             <[_make_id ns "rdir" host := Placeholder host]> by_id),
         log_event (EvDirList RDIR_ACCT (read_ref svc) "rdir") st)).
Proof.
  split; [|split].
  - intros all_rdir s provider st resp host D F Hall.
    apply (assign_provider_unknown _ _ _ _ _ _ resp host); [done|done|].
    by apply index_by_id_unknown.
  - intros st out fleet st'. unfold assign_services, all_of_type, call.
    unfold bind at 1. simpl.
    destruct (cs_all_services b (trace st) service_type false)
      as [all_services|e]; [|done].
    unfold bind at 1. simpl.
    destruct (cs_all_services b _ "rdir" true) as [all_rdir|e]; [|done].
    destruct (Z.of_nat (length all_rdir) <=? 0); [done|].
    unfold bind at 1.
    destruct (assign_services_loop b ns service_type max_per_rdir _ _
                all_services _) as [[[out' s']|e] st2] eqn:L; [|done].
    cbn [fst snd]. intros E.
    apply raise_collected_ok in E as (_ & [= -> ->] & ->).
    destruct (assign_services_loop_unknown _ _ _ _ _ _ _ _ _ L)
      as (Haddr & Hall).
    intros i provider att Hi.
    destruct (Hall i provider att Hi) as (Hfrom & tr & Hp1 & Hp2 & Hn).
    split.
    + intros host Hatt. destruct (Hfrom _ Hatt) as (k & Hk).
      by apply index_by_id_no_placeholder in Hk.
    + exists tr. split.
      { etrans; [|exact Hp1]. simpl. rewrite <- app_assoc.
        by apply prefix_app_r. }
      split; [done|]. intros resp host D F Hfleet.
      apply (Hn resp host D F). apply index_by_id_unknown.
      simpl in Haddr.
      apply Forall_forall. intros x Hx.
      assert (Ha : addr x ∈ addr <$> rdirs s').
      { rewrite Haddr. apply list_elem_of_fmap. by exists x. }
      apply list_elem_of_fmap in Ha as (y & Hy & Hin). rewrite Hy.
      rewrite Forall_forall in Hfleet. by apply Hfleet.
  - intros all_rdir svc st resp host D F Hall by_id.
    unfold get_assignment, try_except, bind, directory_list_rdir, call, lift.
    simpl. rewrite D, F. unfold by_id.
    by rewrite (index_by_id_unknown ns all_rdir host Hall).
Qed.

End WritePath.

Lemma assign_services_unknown_rdir_witness :
  exists out st',
    assign_services Harness.stale_cluster "NS" exc_class Harness.repr_count
      "rawx" None Harness.st0 = (Ok (out, Harness.fleet246), st') /\
    out !! 0%nat = Some (Harness.rawx "10.0.0.8:6201", None) /\
    assign_provider Harness.stale_cluster "NS" "rawx" None
      (index_by_id "NS" 0 Harness.fleet246 ∅)
      (AssignState Harness.fleet246 []) (Harness.rawx "10.0.0.8:6201")
      Harness.st0
    = (Ok (None, AssignState Harness.fleet246 []),
       State [EvDirList RDIR_ACCT "10.0.0.8:6201" "rdir"] ∅).
Proof.
  pose proof (assign_services_unknown_rdir Harness.stale_cluster "NS"
                exc_class Harness.repr_count "rawx" None) as (Hturn & Hall & _).
  assert (Hfleet : Forall (fun x => addr x <> Harness.lost_rdir)
                     Harness.fleet246).
  { repeat constructor; discriminate. }
  destruct (assign_services Harness.stale_cluster "NS" exc_class
              Harness.repr_count "rawx" None Harness.st0) as [r st'] eqn:E.
  assert (Er : r = Ok ([(Harness.rawx "10.0.0.8:6201", None);
                        (Harness.rawx "10.0.0.9:6201", None)],
                       Harness.fleet246)).
  { apply (f_equal fst) in E. vm_compute in E. by rewrite <- E. }
  subst r. eexists. exists st'. split; [reflexivity|].
  destruct (Hall _ _ _ _ E 0%nat (Harness.rawx "10.0.0.8:6201") None eq_refl)
    as (_ & tr & _ & _ & Hnone).
  split.
  - pose proof (Hnone [SrvEntry "rdir" Harness.lost_rdir] Harness.lost_rdir
                  eq_refl eq_refl Hfleet) as Hatt.
    reflexivity.
  - exact (Hturn Harness.fleet246 (AssignState Harness.fleet246 [])
             (Harness.rawx "10.0.0.8:6201") Harness.st0
             [SrvEntry "rdir" Harness.lost_rdir] Harness.lost_rdir
             eq_refl eq_refl Hfleet).
Defined.

(* ===================================================================== *)
(** ** Collected errors *)
(* ===================================================================== *)

Section Groups.

Context {K : Type} `{EqDecision K}.
Variable signature : exn -> K.

Local Abbreviation keys groups := (map (fun g => signature (fst g)) groups).

Lemma in_group_add groups v0 e0 k v :
  in_group signature (group_add signature groups v0 e0) k v
  <-> in_group signature groups k v \/ (k = signature e0 /\ v = v0).
Proof.
  induction groups as [|[e vs] rest IH]; simpl.
  - split.
    + intros (e' & vs' & Hin & Hk & Hv).
      apply list_elem_of_singleton in Hin as [= -> ->].
      apply list_elem_of_singleton in Hv. right. by split.
    + intros [(e' & vs' & Hin & _)|[-> ->]].
      * by apply elem_of_nil in Hin.
      * exists e0, [v0]. split; [apply list_elem_of_here|].
        split; [done|apply list_elem_of_here].
  - destruct (decide (signature e = signature e0)) as [Heq|Hne].
    + split.
      * intros (e' & vs' & Hin & Hk & Hv).
        apply elem_of_cons in Hin as [[= -> ->]|Hin].
        -- apply elem_of_app in Hv as [Hv|Hv].
           ++ left. exists e, vs. split; [apply list_elem_of_here|done].
           ++ apply list_elem_of_singleton in Hv. right. split; congruence.
        -- left. exists e', vs'. split; [by apply list_elem_of_further|done].
      * intros [(e' & vs' & Hin & Hk & Hv)|[-> ->]].
        -- apply elem_of_cons in Hin as [[= -> ->]|Hin].
           ++ exists e, (vs ++ [v0]). split; [apply list_elem_of_here|].
              split; [done|]. apply elem_of_app. by left.
           ++ exists e', vs'. split; [by apply list_elem_of_further|done].
        -- exists e, (vs ++ [v0]). split; [apply list_elem_of_here|].
           split; [done|]. apply elem_of_app. right. apply list_elem_of_here.
    + split.
      * intros (e' & vs' & Hin & Hk & Hv).
        apply elem_of_cons in Hin as [[= -> ->]|Hin].
        -- left. exists e, vs. split; [apply list_elem_of_here|done].
        -- destruct (proj1 IH) as [(e2 & vs2 & Hin2 & Hk2 & Hv2)|Hnew].
           { by exists e', vs'. }
           ++ left. exists e2, vs2.
              split; [by apply list_elem_of_further|done].
           ++ by right.
      * intros Hcase.
        assert (Hc : in_group signature rest k v \/
                     (k = signature e0 /\ v = v0) \/
                     (signature e = k /\ v ∈ vs)).
        { destruct Hcase as [(e' & vs' & Hin & Hk & Hv)|Hnew]; [|tauto].
          apply elem_of_cons in Hin as [[= -> ->]|Hin]; [tauto|].
          left. by exists e', vs'. }
        destruct Hc as [Hr|[Hnew|[Hk Hv]]].
        -- destruct (proj2 IH (or_introl Hr)) as (e2 & vs2 & Hin2 & Hk2 & Hv2).
           exists e2, vs2. split; [by apply list_elem_of_further|done].
        -- destruct (proj2 IH (or_intror Hnew)) as (e2 & vs2 & Hin2 & Hk2 & Hv2).
           exists e2, vs2. split; [by apply list_elem_of_further|done].
        -- exists e, vs. split; [apply list_elem_of_here|done].
Qed.

Lemma keys_group_add groups v0 e0 :
  keys (group_add signature groups v0 e0)
  = if decide (signature e0 ∈ keys groups) then keys groups
    else keys groups ++ [signature e0].
Proof.
  induction groups as [|[e vs] rest IH]; simpl.
  - destruct (decide (signature e0 ∈ [])) as [Hin|_]; [|done].
    by apply elem_of_nil in Hin.
  - destruct (decide (signature e = signature e0)) as [Heq|Hne]; simpl.
    + destruct (decide (signature e0 ∈ signature e :: keys rest)) as [_|Hn];
        [done|].
      destruct Hn. rewrite Heq. apply list_elem_of_here.
    + rewrite IH.
      destruct (decide (signature e0 ∈ keys rest)) as [Hin|Hn];
        destruct (decide (signature e0 ∈ signature e :: keys rest))
          as [Hin'|Hn']; try done.
      * destruct Hn'. by apply list_elem_of_further.
      * apply elem_of_cons in Hin' as [Heq|Hin']; [congruence|done].
Qed.

Lemma NoDup_keys_group_add groups v0 e0 :
  NoDup (keys groups) -> NoDup (keys (group_add signature groups v0 e0)).
Proof.
  intros Hnd. rewrite keys_group_add.
  destruct (decide (signature e0 ∈ keys groups)) as [Hin|Hn]; [done|].
  apply NoDup_app. split; [done|]. split.
  - intros k Hk Hk'. apply list_elem_of_singleton in Hk'. congruence.
  - apply NoDup_singleton.
Qed.

Lemma fold_group_add errs : forall groups,
  let out := fold_left (fun groups '(item, err) =>
                          group_add signature groups item err) errs groups in
  (NoDup (keys groups) -> NoDup (keys out)) /\
  forall k v,
    in_group signature out k v
    <-> in_group signature groups k v \/
        exists e, (v, e) ∈ errs /\ signature e = k.
Proof.
  induction errs as [|[v0 e0] rest IH]; intros groups; simpl.
  - split; [done|]. intros k v. split; [by left|].
    intros [Hg|(e & Hin & _)]; [done|]. by apply elem_of_nil in Hin.
  - destruct (IH (group_add signature groups v0 e0)) as (Hnd & Hin).
    split.
    + intros Hk. by apply Hnd, NoDup_keys_group_add.
    + intros k v. rewrite Hin, in_group_add. split.
      * intros [[Hg|[-> ->]]|(e & He & Hk)].
        -- by left.
        -- right. exists e0. split; [apply list_elem_of_here|done].
        -- right. exists e. split; [by apply list_elem_of_further|done].
      * intros [Hg|(e & He & Hk)]; [by left; left|].
        apply elem_of_cons in He as [[= -> ->]|He].
        -- left. right. by split.
        -- right. by exists e.
Qed.

(** The groups partition the collected errors by signature. *)
Lemma group_chunk_errors_partition errs :
  let groups := group_chunk_errors signature errs in
  NoDup (keys groups) /\
  forall k v,
    in_group signature groups k v
    <-> exists e, (v, e) ∈ errs /\ signature e = k.
Proof.
  unfold group_chunk_errors.
  destruct (fold_group_add errs []) as (Hnd & Hin).
  split; [apply Hnd; constructor|].
  intros k v. rewrite Hin. split; [|by right].
  intros [(e & vs & He & _)|Hr]; [|done]. by apply elem_of_nil in He.
Qed.

(** Errors of one signature make one group, which lists every volume. *)
Lemma group_chunk_errors_same v0 e0 rest :
  Forall (fun p => signature (snd p) = signature e0) rest ->
  group_chunk_errors signature ((v0, e0) :: rest)
  = [(e0, v0 :: map fst rest)].
Proof.
  unfold group_chunk_errors. simpl.
  assert (Hgen : forall vs,
    Forall (fun p => signature (snd p) = signature e0) rest ->
    fold_left (fun groups '(item, err) =>
                 group_add signature groups item err) rest [(e0, vs)]
    = [(e0, vs ++ map fst rest)]).
  { induction rest as [|[v e] rest IH]; intros vs Hall; simpl.
    - by rewrite app_nil_r.
    - apply Forall_cons in Hall as [He Hall]. simpl in He.
      destruct (decide (signature e0 = signature e)) as [_|Hne]; [|congruence].
      rewrite IH by done. by rewrite <- app_assoc. }
  intros Hall. by rewrite (Hgen [v0] Hall).
Qed.

(** Errors of two signatures make two groups at least. *)
Lemma group_chunk_errors_several errs p q :
  p ∈ errs -> q ∈ errs -> signature (snd p) <> signature (snd q) ->
  (2 <= length (group_chunk_errors signature errs))%nat.
Proof.
  intros Hp Hq Hne.
  destruct (group_chunk_errors_partition errs) as (_ & Hin).
  destruct p as [vp ep], q as [vq eq]. simpl in Hne.
  destruct (proj2 (Hin (signature ep) vp)) as (e1 & vs1 & H1 & K1 & _);
    [by exists ep|].
  destruct (proj2 (Hin (signature eq) vq)) as (e2 & vs2 & H2 & K2 & _);
    [by exists eq|].
  destruct (group_chunk_errors signature errs) as [|g1 [|g2 gs]].
  - by apply elem_of_nil in H1.
  - apply list_elem_of_singleton in H1, H2. congruence.
  - simpl. lia.
Qed.

End Groups.

Section Aggregation.

Variable b : Backend.
Variable ns : string.
Context {K : Type} `{EqDecision K}.
Variable signature : exn -> K.
Variable repr_errors : list (exn * list string) -> string.

Lemma assign_services_unfold ty mpr st all_services all_rdir r st' :
  cs_all_services b (trace st) ty false = Ok all_services ->
  cs_all_services b (trace st ++ [EvAllServices ty false]) "rdir" true
    = Ok all_rdir ->
  all_rdir <> [] ->
  assign_services_loop b ns ty mpr (index_by_id ns 0 all_rdir ∅)
    (AssignState all_rdir []) all_services
    (State (trace st ++ [EvAllServices ty false; EvAllServices "rdir" true])
           (addr_cache st))
    = (Ok r, st') ->
  assign_services b ns signature repr_errors ty mpr st
  = raise_collected signature repr_errors (errors (snd r))
      (fst r, rdirs (snd r)) st'.
Proof.
  intros Hs Hr Hne L. unfold assign_services, all_of_type, call.
  unfold bind at 1. simpl. rewrite Hs.
  unfold bind at 1. simpl. rewrite Hr.
  assert (Hlen : (Z.of_nat (length all_rdir) <=? 0) = false).
  { destruct all_rdir; [done|]. apply Z.leb_gt. simpl length. lia. }
  rewrite Hlen. unfold bind at 1. unfold log_event. cbn [trace addr_cache].
  rewrite <- app_assoc. cbn [app]. by rewrite L.
Qed.

(** C6. In [assign_services] an [OioException] met while reading the
    link of a service, or while linking it, is added to the list of
    errors and the loop goes on.  Once the loop is over: with no error
    the services are returned; with errors of one signature only, the
    first of them is raised again, as its own kind, with the list of
    all the volumes that failed; with errors of two signatures or more,
    one [OioException] is raised whose message renders the groups, and
    these groups split the errors by signature. *)
Theorem assign_services_errors (service_type : string)
    (max_per_rdir : option Z) :
  (forall by_id s provider st exc,
      directory_list b (trace st) RDIR_ACCT (provider_id provider) "rdir"
        = Raise exc ->
      is_NotFound exc = false -> is_OioException exc = true ->
      assign_provider b ns service_type max_per_rdir by_id s provider st
      = (Ok (None, AssignState (rdirs s)
                     (errors s ++ [(provider_id provider, exc)])),
         log_event (EvDirList RDIR_ACCT (provider_id provider) "rdir") st)) /\
  (forall by_id s provider st exc exc' st1,
      directory_list b (trace st) RDIR_ACCT (provider_id provider) "rdir"
        = Raise exc ->
      is_NotFound exc = true ->
      _smart_link_rdir b ns (provider_id provider) (rdirs s) max_per_rdir 7
        service_type
        (log_event (EvDirList RDIR_ACCT (provider_id provider) "rdir") st)
        = (Raise exc', st1) ->
      is_OioException exc' = true ->
      assign_provider b ns service_type max_per_rdir by_id s provider st
      = (Ok (None, AssignState (rdirs s)
                     (errors s ++ [(provider_id provider, exc')])),
         st1)) /\
  (forall st all_services all_rdir out s' st',
      cs_all_services b (trace st) service_type false = Ok all_services ->
      cs_all_services b (trace st ++ [EvAllServices service_type false])
        "rdir" true = Ok all_rdir ->
      all_rdir <> [] ->
      assign_services_loop b ns service_type max_per_rdir
        (index_by_id ns 0 all_rdir ∅) (AssignState all_rdir []) all_services
        (State (trace st ++ [EvAllServices service_type false;
                             EvAllServices "rdir" true])
               (addr_cache st))
        = (Ok (out, s'), st') ->
      let run := assign_services b ns signature repr_errors service_type
                   max_per_rdir st in
      (errors s' = [] -> run = (Ok (out, rdirs s'), st')) /\
      (forall v0 e0 rest,
          errors s' = (v0, e0) :: rest ->
          Forall (fun p => signature (snd p) = signature e0) rest ->
          run = (Raise (oio_reraise (exc_class e0) e0
                          (py_str_list (map fst (errors s')))), st')) /\
      (forall p q,
          p ∈ errors s' -> q ∈ errors s' ->
          signature (snd p) <> signature (snd q) ->
          exists groups,
            run = (Raise (mk OioException
                            ("Several errors encountered: " +:+
                             repr_errors groups)), st') /\
            (2 <= length groups)%nat /\
            NoDup (map (fun g => signature (fst g)) groups) /\
            forall k v,
              in_group signature groups k v
              <-> exists e, (v, e) ∈ errors s' /\ signature e = k)).
Proof.
  split; [|split].
  - intros by_id s provider st exc D Hnf Ho.
    unfold assign_provider, try_except, bind, directory_list_rdir, call, lift.
    simpl. by rewrite D, Hnf, Ho.
  - intros by_id s provider st exc exc' st1 D Hnf L Ho.
    unfold assign_provider, try_except, bind, directory_list_rdir, call, lift.
    simpl. by rewrite D, Hnf, L, Ho.
  - intros st all_services all_rdir out s' st' Hs Hr Hne L run.
    assert (Hrun : run = raise_collected signature repr_errors (errors s')
                           (out, rdirs s') st').
    { exact (assign_services_unfold _ _ _ _ _ _ _ Hs Hr Hne L). }
    rewrite Hrun. unfold raise_collected. split; [|split].
    + by intros ->.
    + intros v0 e0 rest -> Hall.
      by rewrite (group_chunk_errors_same signature v0 e0 rest Hall).
    + intros p q Hp Hq Hpq.
      exists (group_chunk_errors signature (errors s')).
      pose proof (group_chunk_errors_several signature _ p q Hp Hq Hpq) as Hlen.
      destruct (group_chunk_errors_partition signature (errors s'))
        as (Hnd & Hin).
      split; [|by split].
      destruct (errors s') as [|e1 errs]; [by apply elem_of_nil in Hp|].
      destruct (group_chunk_errors signature (e1 :: errs))
        as [|[err addrs] [|g gs]]; simpl in Hlen; [lia|lia|done].
Qed.

End Aggregation.

Lemma assign_services_errors_witness :
  (assign_services Harness.broken_directory "NS" exc_class Harness.repr_count
     "rawx" None Harness.st0
   = (Raise (Exn ClientException (Some 500) "internal error"
               (Some "['10.0.0.8:6201', '10.0.0.9:6201']")),
      State [EvAllServices "rawx" false; EvAllServices "rdir" true;
             EvDirList RDIR_ACCT "10.0.0.8:6201" "rdir";
             EvDirList RDIR_ACCT "10.0.0.9:6201" "rdir"] ∅)) /\
  (exists groups st',
      assign_services Harness.flaky_directory "NS" exc_status
        Harness.repr_count "rawx" None Harness.st0
      = (Raise (mk OioException
                  ("Several errors encountered: " +:+
                   Harness.repr_count groups)), st') /\
      (2 <= length groups)%nat).
Proof.
  split.
  - pose proof (assign_services_errors Harness.broken_directory "NS" exc_class
                  Harness.repr_count "rawx" None) as (_ & _ & Hend).
    edestruct (Hend Harness.st0) as (_ & Hsame & _);
      [reflexivity|reflexivity|discriminate|vm_compute; reflexivity|].
    rewrite (Hsame "10.0.0.8:6201" (Harness.http_error 500 "internal error")
               [("10.0.0.9:6201", Harness.http_error 500 "internal error")]
               eq_refl).
    + reflexivity.
    + repeat constructor.
  - pose proof (assign_services_errors Harness.flaky_directory "NS" exc_status
                  Harness.repr_count "rawx" None) as (_ & _ & Hend).
    edestruct (Hend Harness.st0) as (_ & _ & Hseveral);
      [reflexivity|reflexivity|discriminate|vm_compute; reflexivity|].
    destruct (Hseveral ("10.0.0.8:6201", Harness.http_error 500 "internal error")
                ("10.0.0.9:6201", Harness.http_error 503 "busy"))
      as (groups & E & Hlen & Hnd & Hin).
    + apply list_elem_of_here.
    + apply list_elem_of_further, list_elem_of_here.
    + discriminate.
    + exists groups. eexists. split; [exact E|exact Hlen].
Defined.

(* ===================================================================== *)
(** ** Further properties: the rdir client *)
(* ===================================================================== *)

Lemma find_rdir_skip (pre : list srv_entry) srv post :
  no_rdir_entry pre -> srv_type srv = "rdir" ->
  List.find (fun s => String.eqb (srv_type s) "rdir") (pre ++ srv :: post)
  = Some srv.
Proof.
  intros Hpre Hs. induction Hpre as [|x pre Hx _ IH]; simpl.
  - by rewrite Hs.
  - apply String.eqb_neq in Hx. by rewrite Hx.
Qed.

Lemma find_rdir_none (resp : list srv_entry) :
  no_rdir_entry resp ->
  List.find (fun s => String.eqb (srv_type s) "rdir") resp = None.
Proof.
  induction 1 as [|x l Hx _ IH]; simpl; [done|].
  apply String.eqb_neq in Hx. by rewrite Hx.
Qed.

(** X1. [_filter_rdir_host] answers with the host of the first entry of
    type [rdir], whatever stands before or after it, and raises
    [NotFound] when the listing holds no such entry; a host it answers
    with is the host of an [rdir] entry of the listing. *)
Theorem filter_rdir_host_first (allsrv : list srv_entry) :
  (forall pre srv post,
      allsrv = pre ++ srv :: post -> no_rdir_entry pre ->
      srv_type srv = "rdir" ->
      _filter_rdir_host allsrv = Ok (srv_host srv)) /\
  (no_rdir_entry allsrv ->
   exists e, _filter_rdir_host allsrv = Raise e /\ is_NotFound e = true) /\
  (forall host, _filter_rdir_host allsrv = Ok host ->
     exists srv, srv ∈ allsrv /\ srv_type srv = "rdir" /\ srv_host srv = host).
Proof.
  unfold _filter_rdir_host. split; [|split].
  - intros pre srv post -> Hpre Hs. by rewrite find_rdir_skip.
  - intros Hno. rewrite find_rdir_none by done. by eexists.
  - intros host.
    destruct (List.find _ allsrv) as [srv|] eqn:E; [|done].
    intros [= <-]. apply find_some in E as [Hin Ht].
    exists srv. split; [by apply list_elem_of_In|].
    split; [by apply String.eqb_eq|done].
Qed.

Lemma filter_rdir_host_first_witness :
  _filter_rdir_host [SrvEntry "meta2" "10.0.0.5:6120";
                     SrvEntry "rdir" "10.0.0.1:6301";
                     SrvEntry "rdir" "10.0.0.2:6301"]
  = Ok "10.0.0.1:6301" /\
  exists e, _filter_rdir_host [SrvEntry "meta2" "10.0.0.5:6120"] = Raise e /\
            is_NotFound e = true.
Proof.
  split.
  - apply (proj1 (filter_rdir_host_first _) [SrvEntry "meta2" "10.0.0.5:6120"]
             (SrvEntry "rdir" "10.0.0.1:6301")
             [SrvEntry "rdir" "10.0.0.2:6301"]); [reflexivity| |reflexivity].
    repeat constructor. discriminate.
  - apply (proj1 (proj2 (filter_rdir_host_first _))).
    repeat constructor. discriminate.
Defined.

Lemma get_rdir_addr_hit (b : Backend) v st host :
  addr_cache st !! v = Some host -> _get_rdir_addr b v st = (Ok host, st).
Proof. intros E. unfold _get_rdir_addr. by rewrite E. Qed.

(** X2. Once [_get_rdir_addr] has answered for a volume, it answers the
    same again without asking the directory, whatever the directory
    would say by then. *)
Theorem get_rdir_addr_memo (b : Backend) (volume_id : string) (st : state)
    (host : string) (st1 : state) :
  _get_rdir_addr b volume_id st = (Ok host, st1) ->
  forall b' : Backend, _get_rdir_addr b' volume_id st1 = (Ok host, st1).
Proof.
  intros E b'. apply get_rdir_addr_hit. by eapply get_rdir_addr_cached.
Qed.

Section ClientExtras.

Variable b : Backend.

(** X3. On a cache miss [_get_rdir_addr] asks the directory once.  A
    [NotFound] of the directory, or a listing without any [rdir] entry,
    is raised as a [VolumeException]; any other error of the directory
    is raised as it is; in each case the cache is left as it was. *)
Theorem get_rdir_addr_errors (volume_id : string) (st : state) :
  addr_cache st !! volume_id = None ->
  (forall e,
      directory_list b (trace st) RDIR_ACCT volume_id "rdir" = Raise e ->
      _get_rdir_addr b volume_id st
      = (Raise (if is_NotFound e then no_volume volume_id else e),
         State (trace st ++ [lookup_event volume_id]) (addr_cache st))) /\
  (forall resp,
      directory_list b (trace st) RDIR_ACCT volume_id "rdir" = Ok resp ->
      no_rdir_entry resp ->
      _get_rdir_addr b volume_id st
      = (Raise (no_volume volume_id),
         State (trace st ++ [lookup_event volume_id]) (addr_cache st))).
Proof.
  intros Hmiss. unfold _get_rdir_addr. rewrite Hmiss.
  unfold try_except, bind, call, lift. simpl. split.
  - intros e ->. by destruct (is_NotFound e).
  - intros resp -> Hno. unfold _filter_rdir_host.
    by rewrite find_rdir_none.
Qed.

Lemma get_rdir_addr_frame v st r st' :
  _get_rdir_addr b v st = (r, st') ->
  forall w, w <> v -> addr_cache st' !! w = addr_cache st !! w.
Proof.
  unfold _get_rdir_addr.
  destruct (addr_cache st !! v) as [h|] eqn:E.
  - by intros [= <- <-].
  - unfold try_except, bind, call, lift. simpl.
    destruct (directory_list b (trace st) RDIR_ACCT v "rdir") as [resp|e].
    + destruct (_filter_rdir_host resp) as [h|e]; simpl.
      * intros [= <- <-] w Hw. simpl. by rewrite lookup_insert_ne.
      * destruct (is_NotFound e); by intros [= <- <-].
    + destruct (is_NotFound e); by intros [= <- <-].
Qed.

(** X4. A request for a volume never changes what the cache holds for
    another volume. *)
Theorem rdir_request_cache_frame (volume method action : string) (cr : bool)
    (params : option (gmap string string)) (service_type : string)
    (json : option fetch_req) (st : state) (r : result body) (st' : state) :
  _rdir_request b volume method action cr params service_type json st
    = (r, st') ->
  forall other, other <> volume ->
    addr_cache st' !! other = addr_cache st !! other.
Proof.
  unfold _rdir_request, _make_uri, bind.
  destruct (_get_rdir_addr b volume st) as [[host|e0] st1] eqn:G.
  - pose proof (get_rdir_addr_frame _ _ _ _ G) as Hf.
    destruct (base_url service_type) as [prefix|]; simpl.
    + unfold try_except, call.
      match goal with
      | |- context [direct_request b ?t ?m ?u ?p ?j] =>
          destruct (direct_request b t m u p j) as [bd|e1]
      end.
      * intros [= <- <-] w Hw. simpl. by apply Hf.
      * destruct (is_OioNetworkException e1).
        -- unfold bind, _clear_cache, raise. simpl.
           intros [= <- <-] w Hw. simpl.
           rewrite lookup_delete_ne by done. by apply Hf.
        -- unfold raise. intros [= <- <-] w Hw. simpl. by apply Hf.
    + unfold raise. intros [= <- <-]. exact Hf.
  - intros [= <- <-]. by eapply get_rdir_addr_frame.
Qed.

Lemma get_rdir_addr_calls v st r st' :
  _get_rdir_addr b v st = (r, st') ->
  (is_Some (addr_cache st !! v) /\ trace st' = trace st) \/
  (addr_cache st !! v = None /\ trace st' = trace st ++ [lookup_event v]).
Proof.
  unfold _get_rdir_addr.
  destruct (addr_cache st !! v) as [h|] eqn:E.
  - intros [= <- <-]. left. by split.
  - unfold try_except, bind, call, lift. simpl. right. split; [done|].
    destruct (directory_list b (trace st) RDIR_ACCT v "rdir") as [resp|e].
    + destruct (_filter_rdir_host resp) as [h|e]; simpl in *.
      * by injection H as <- <-.
      * destruct (is_NotFound e); by injection H as <- <-.
    + destruct (is_NotFound e); by injection H as <- <-.
Qed.

(** The calls of one [_rdir_request]. *)
Lemma rdir_request_trace volume method action cr params service_type json
    st r st' :
  _rdir_request b volume method action cr params service_type json st
    = (r, st') ->
  exists lookups reqs,
    trace st' = trace st ++ lookups ++ reqs /\
    (lookups = [] /\ is_Some (addr_cache st !! volume) \/
     lookups = [lookup_event volume] /\ addr_cache st !! volume = None) /\
    (reqs = [] /\ (exists e, r = Raise e) \/
     exists host prefix,
       base_url service_type = Some prefix /\
       reqs = [EvRequest method (request_uri host prefix action)
                 (request_params volume cr params) json]).
Proof.
  unfold _rdir_request, _make_uri, bind.
  destruct (_get_rdir_addr b volume st) as [[host|e0] st1] eqn:G.
  - apply get_rdir_addr_calls in G.
    assert (Hl : exists lookups,
              trace st1 = trace st ++ lookups /\
              (lookups = [] /\ is_Some (addr_cache st !! volume) \/
               lookups = [lookup_event volume] /\
               addr_cache st !! volume = None)).
    { destruct G as [[Hs Et]|[Hn Et]].
      - exists []. rewrite app_nil_r. split; [done|]. by left.
      - exists [lookup_event volume]. split; [done|]. by right. }
    destruct Hl as (lookups & Et & Hl).
    destruct (base_url service_type) as [prefix|] eqn:B; simpl.
    + unfold try_except, call.
      fold (request_uri host prefix action).
      change (if cr
              then <["create":="1"]> (<["vol":=volume]> (default ∅ params))
              else <["vol":=volume]> (default ∅ params))
        with (request_params volume cr params).
      intros E.
      exists lookups,
        [EvRequest method (request_uri host prefix action)
           (request_params volume cr params) json].
      split; [|split; [done|]].
      * destruct (direct_request b (trace st1) method
                    (request_uri host prefix action)
                    (request_params volume cr params) json) as [bd|e1].
        -- injection E as <- <-. simpl. by rewrite Et, app_assoc.
        -- destruct (is_OioNetworkException e1);
             injection E as <- <-; simpl; by rewrite Et, app_assoc.
      * right. by exists host, prefix.
    + unfold raise. intros [= <- <-]. exists lookups, [].
      rewrite app_nil_r. split; [done|]. split; [done|].
      left. split; [done|]. by eexists.
  - intros [= <- <-]. apply get_rdir_addr_calls in G.
    destruct G as [[Hs Et]|[Hn Et]].
    + exists [], []. simpl. rewrite app_nil_r. split; [done|].
      split; [by left|]. left. split; [done|]. by eexists.
    + exists [lookup_event volume], []. simpl. split; [done|].
      split; [by right|]. left. split; [done|]. by eexists.
Qed.

(** X5. A call of [_rdir_request] asks the directory at most once, and
    only when the cache holds nothing for the volume, then sends at most
    one HTTP request; a call that sends none raises.  The request
    carries the parameters of the caller with [vol] set to the volume
    and, when asked for, [create] set to [1]. *)
Theorem rdir_request_calls (volume method action : string) (cr : bool)
    (params : option (gmap string string)) (service_type : string)
    (json : option fetch_req) (st : state) (r : result body) (st' : state) :
  _rdir_request b volume method action cr params service_type json st
    = (r, st') ->
  let ps := request_params volume cr params in
  (exists lookups reqs,
      trace st' = trace st ++ lookups ++ reqs /\
      (lookups = [] /\ is_Some (addr_cache st !! volume) \/
       lookups = [lookup_event volume] /\ addr_cache st !! volume = None) /\
      (reqs = [] /\ (exists e, r = Raise e) \/
       exists host prefix,
         base_url service_type = Some prefix /\
         reqs = [EvRequest method (request_uri host prefix action) ps json])) /\
  ps !! "vol" = Some volume /\
  (cr = true -> ps !! "create" = Some "1") /\
  (forall k, k <> "vol" -> (cr = true -> k <> "create") ->
             ps !! k = default ∅ params !! k).
Proof.
  intros E ps. split; [|split; [|split]].
  - by eapply rdir_request_trace.
  - unfold ps, request_params. destruct cr.
    + rewrite lookup_insert_ne by done. by rewrite lookup_insert_eq.
    + by rewrite lookup_insert_eq.
  - intros ->. unfold ps, request_params. by rewrite lookup_insert_eq.
  - intros k Hv Hc. unfold ps, request_params. destruct cr.
    + rewrite lookup_insert_ne by (intros <-; by apply Hc).
      by rewrite lookup_insert_ne.
    + by rewrite lookup_insert_ne.
Qed.

Lemma rdir_request_ok_cached v method action cr params ty json st bd st1 :
  _rdir_request b v method action cr params ty json st = (Ok bd, st1) ->
  exists host, addr_cache st1 !! v = Some host.
Proof.
  unfold _rdir_request, _make_uri, bind.
  destruct (_get_rdir_addr b v st) as [[host|e0] st0] eqn:G; [|done].
  apply get_rdir_addr_cached in G.
  destruct (base_url ty) as [prefix|]; simpl; [|done].
  unfold try_except, call.
  match goal with
  | |- context [direct_request b ?t ?m ?u ?p ?j] =>
      destruct (direct_request b t m u p j) as [bd'|e1]
  end.
  - intros [= <- <-]. by exists host.
  - destruct (is_OioNetworkException e1); by intros [=].
Qed.

End ClientExtras.

(** X6. After a request that succeeded, no request for the same volume,
    whatever its method, action or service type and whatever backend
    answers it, asks the directory. *)
Theorem rdir_request_then_no_lookup (b : Backend)
    (volume method action : string) (cr : bool)
    (params : option (gmap string string)) (service_type : string)
    (json : option fetch_req) (st : state) (bd : body) (st1 : state) :
  _rdir_request b volume method action cr params service_type json st
    = (Ok bd, st1) ->
  forall (b2 : Backend) method2 action2 cr2 params2 service_type2 json2 r2 st2,
    _rdir_request b2 volume method2 action2 cr2 params2 service_type2 json2 st1
      = (r2, st2) ->
    exists tr', trace st2 = trace st1 ++ tr' /\ count is_dir_list tr' = 0%nat.
Proof.
  intros E b2 method2 action2 cr2 params2 service_type2 json2 r2 st2 E2.
  destruct (rdir_request_ok_cached _ _ _ _ _ _ _ _ _ _ _ E) as (host & Hc).
  revert E2. unfold _rdir_request, _make_uri, bind.
  rewrite (get_rdir_addr_hit b2 _ _ _ Hc).
  destruct (base_url service_type2) as [prefix|]; simpl.
  - unfold try_except, call.
    match goal with
    | |- context [direct_request b2 ?t ?m ?u ?p ?j] =>
        destruct (direct_request b2 t m u p j) as [bd'|e1]
    end.
    + intros [= <- <-]. by eexists.
    + destruct (is_OioNetworkException e1); intros [= <- <-]; by eexists.
  - unfold raise. intros [= <- <-]. exists []. by rewrite app_nil_r.
Qed.

Lemma get_rdir_addr_memo_witness :
  _get_rdir_addr Harness.unreachable "vol"
    (State [lookup_event "vol"] (<["vol" := Harness.rdir1]> ∅))
  = (Ok Harness.rdir1,
     State [lookup_event "vol"] (<["vol" := Harness.rdir1]> ∅)).
Proof.
  apply (get_rdir_addr_memo (Harness.paged Harness.three_pages) "vol"
           Harness.st0).
  vm_compute. reflexivity.
Defined.

Lemma get_rdir_addr_errors_witness :
  _get_rdir_addr Harness.no_candidate "vol" Harness.st0
  = (Raise (no_volume "vol"), State [lookup_event "vol"] ∅).
Proof.
  apply (proj1 (get_rdir_addr_errors Harness.no_candidate "vol" Harness.st0
                  eq_refl)
           (Exn NotFound (Some 404) "no such reference" None)).
  reflexivity.
Defined.

Lemma rdir_request_cache_frame_witness :
  addr_cache
    (snd (_rdir_request Harness.unreachable "vol" "POST" "create" false None
            "rawx" None (State [] (<["other" := Harness.rdir2]> ∅))))
    !! "other" = Some Harness.rdir2.
Proof.
  destruct (_rdir_request Harness.unreachable "vol" "POST" "create" false None
              "rawx" None (State [] (<["other" := Harness.rdir2]> ∅)))
    as [r st'] eqn:E.
  simpl. rewrite (rdir_request_cache_frame _ _ _ _ _ _ _ _ _ _ _ E "other");
    [reflexivity|discriminate].
Defined.

Lemma rdir_request_calls_witness :
  exists lookups reqs,
    trace (snd (_rdir_request Harness.failing "vol" "POST" "push" true None
                  "meta2" None Harness.st0))
    = lookups ++ reqs /\
    lookups = [lookup_event "vol"] /\
    reqs = [EvRequest "POST" "http://10.0.0.1:6301/v1/rdir/meta2/push"
              (<["create" := "1"]> (<["vol" := "vol"]> ∅)) None].
Proof.
  destruct (_rdir_request Harness.failing "vol" "POST" "push" true None
              "meta2" None Harness.st0) as [r st'] eqn:E.
  destruct (rdir_request_calls _ _ _ _ _ _ _ _ _ _ _ E)
    as ((lookups & reqs & Et & _ & _) & _).
  exists [lookup_event "vol"],
    [EvRequest "POST" "http://10.0.0.1:6301/v1/rdir/meta2/push"
       (<["create" := "1"]> (<["vol" := "vol"]> ∅)) None].
  split; [|by split].
  vm_compute in E. by injection E as <- <-.
Defined.

Lemma rdir_request_then_no_lookup_witness :
  exists tr',
    trace (snd (_rdir_request Harness.unreachable "vol" "GET" "status" false
                  None "rawx" None
                  (State [lookup_event "vol";
                          EvRequest "POST" "http://10.0.0.1:6301/v1/rdir/create"
                            (<["vol" := "vol"]> ∅) None]
                         (<["vol" := Harness.rdir1]> ∅))))
    = [lookup_event "vol";
       EvRequest "POST" "http://10.0.0.1:6301/v1/rdir/create"
         (<["vol" := "vol"]> ∅) None] ++ tr' /\
    count is_dir_list tr' = 0%nat.
Proof.
  destruct (_rdir_request Harness.unreachable "vol" "GET" "status" false
              None "rawx" None _) as [r2 st2] eqn:E2.
  apply (rdir_request_then_no_lookup (Harness.paged Harness.three_pages)
           "vol" "POST" "create" false None "rawx" None Harness.st0
           [("c1|o1|k1", "v1"); ("c1|o1|k2", "v2")] _
           ltac:(vm_compute; reflexivity)
           Harness.unreachable "GET" "status" false None "rawx" None r2 st2).
  exact E2.
Defined.

(* ===================================================================== *)
(** ** Further properties: the paginated fetch *)
(* ===================================================================== *)

Lemma yield_page_malformed good key value rest :
  Forall well_formed_key good ->
  length (split_on "|" key) <> 3%nat ->
  exists ys, yield_page (good ++ (key, value) :: rest)
             = (ys, Some (mk ValueError "unpack")) /\
             Forall2 is_tuple_of good ys.
Proof.
  intros Hg Hbad. induction Hg as [|[k v] good Hk _ (ys & E & F)]; simpl.
  - exists []. split; [|done].
    by destruct (split_on "|" key) as [|c1 [|c2 [|c3 [|c4 l]]]].
  - unfold well_formed_key in Hk. simpl in Hk.
    pose proof (concat_split_on "|" k) as J.
    destruct (split_on "|" k) as [|c1 [|c2 [|c3 [|c4 l]]]]; try done.
    rewrite E. exists ((c1, c2, c3, v) :: ys). split; [done|].
    constructor; [|done]. simpl. split; [|done]. by rewrite <- J.
Qed.

Section FetchExtras.

Variable b : Backend.
Variable volume : string.
Variable max_attempts : nat.

Local Abbreviation page_of req st :=
  (fetch_page b volume req (Z.of_nat max_attempts) max_attempts 0 st).
Local Abbreviation loop fuel req st :=
  (chunk_fetch_loop b fuel volume max_attempts req st).
Local Abbreviation fetch_request req :=
  (_rdir_request b volume "POST" "fetch" false None "rawx" (Some req)).

(** The tuples of the pages served come first, whatever follows. *)
Lemma chunk_fetch_loop_serves_until req st pages req' st' :
  serves_until b volume max_attempts req st pages req' st' ->
  Forall well_formed_key (concat pages) ->
  forall fuel, exists ys,
    Forall2 is_tuple_of (concat pages) ys /\
    loop (length pages + fuel) req st
    = (let '((zs, e), st'') := loop fuel req' st' in ((ys ++ zs, e), st'')).
Proof.
  induction 1 as [req st|req st page k v st1 pages req' st' Hp Hl _ IH];
    intros Hwf fuel.
  - exists []. split; [constructor|]. simpl.
    by destruct (loop fuel req st) as [[zs e] st''].
  - simpl in Hwf. apply Forall_app in Hwf as [Hw1 Hw2].
    destruct (IH Hw2 fuel) as (zs & Fz & Ez).
    destruct (chunk_fetch_loop_page b volume max_attempts
                (length pages + fuel) req st page k v st1 Hp Hl Hw1)
      as (ys & Fy & Ey).
    exists (ys ++ zs). split; [simpl; by apply Forall2_app|].
    simpl length. simpl Nat.add. rewrite Ey, Ez.
    destruct (loop fuel req' st') as [[ws e] st'']. by rewrite app_assoc.
Qed.

(** A page request gives up at once on an error that is not a network
    error. *)
Lemma fetch_page_no_retry req maxz n i st e st1 :
  fetch_request req st = (Raise e, st1) ->
  is_OioNetworkException e = false ->
  fetch_page b volume req maxz (S n) i st = (Raise e, st1).
Proof.
  intros E N. simpl. unfold try_except. by rewrite E, N.
Qed.

Lemma page_of_no_retry req st e st1 :
  (0 < max_attempts)%nat ->
  fetch_request req st = (Raise e, st1) ->
  is_OioNetworkException e = false ->
  page_of req st = (Raise e, st1).
Proof.
  intros Hm E N. generalize (Z.of_nat max_attempts). intros maxz.
  destruct max_attempts as [|m]; [lia|].
  by apply fetch_page_no_retry.
Qed.

Lemma chunk_fetch_loop_error fuel req st e st1 :
  page_of req st = (Raise e, st1) ->
  loop (S fuel) req st = (([], Raised e), st1).
Proof. intros Hp. simpl. by rewrite Hp. Qed.

(** X7. [chunk_fetch] does not retry an error that is not a network
    error, be it an HTTP status or a volume without rdir: when the
    request of a page raises one, the run ends with that error, after
    the tuples of the pages served before, and nothing else is done. *)
Theorem chunk_fetch_error_after_pages (limit : Z) (rebuild : bool)
    (container_id : option string) (st : state) (pages : list body)
    (req' : fetch_req) (st' : state) (e : exn) (st'' : state) :
  serves_until b volume max_attempts
    (first_request limit rebuild container_id) st pages req' st' ->
  Forall well_formed_key (concat pages) ->
  (0 < max_attempts)%nat ->
  fetch_request req' st' = (Raise e, st'') ->
  is_OioNetworkException e = false ->
  forall fuel, (length pages < fuel)%nat ->
  exists ys,
    chunk_fetch b fuel volume limit rebuild container_id max_attempts st
      = ((ys, Raised e), st'') /\
    Forall2 is_tuple_of (concat pages) ys.
Proof.
  intros Hs Hwf Hm E N fuel Hfuel.
  destruct (chunk_fetch_loop_serves_until _ _ _ _ _ Hs Hwf
              (fuel - length pages)) as (ys & F & El).
  exists ys. split; [|done]. unfold chunk_fetch.
  fold (first_request limit rebuild container_id).
  replace fuel with (length pages + (fuel - length pages))%nat at 1 by lia.
  rewrite El.
  destruct (fuel - length pages)%nat as [|f] eqn:Ef; [lia|].
  rewrite (chunk_fetch_loop_error f req' st' e st'')
    by (by apply page_of_no_retry).
  by rewrite app_nil_r.
Qed.

(** X8. A key that does not split in three on ["|"] ends the run with a
    [ValueError]: the records before it in the page are yielded, the
    rest of the page is dropped and no further page is asked for. *)
Theorem chunk_fetch_malformed_key (fuel : nat) (req : fetch_req) (st : state)
    (good : body) (key value : string) (rest : body) (st1 : state) :
  page_of req st = (Ok (good ++ (key, value) :: rest), st1) ->
  Forall well_formed_key good ->
  length (split_on "|" key) <> 3%nat ->
  exists ys,
    loop (S fuel) req st = ((ys, Raised (mk ValueError "unpack")), st1) /\
    Forall2 is_tuple_of good ys.
Proof.
  intros Hp Hg Hbad.
  destruct (yield_page_malformed good key value rest Hg Hbad) as (ys & E & F).
  exists ys. split; [|done]. simpl. rewrite Hp.
  destruct (good ++ (key, value) :: rest) as [|r l] eqn:El.
  - by destruct good.
  - by rewrite E.
Qed.

Lemma count_app p (l1 l2 : list event) :
  count p (l1 ++ l2) = (count p l1 + count p l2)%nat.
Proof. unfold count. by rewrite List.filter_app, length_app. Qed.

Lemma count_failed_attempts p host req n : forall i,
  (forall j, p (EvSleep j) = false) ->
  count p (flat_map (failed_attempt volume host req) (seq i n))
  = (n * count p (last_attempt volume host req))%nat.
Proof.
  induction n as [|n IH]; intros i Hs; [done|].
  cbn [seq flat_map]. rewrite count_app, IH by done.
  unfold count, failed_attempt, last_attempt. cbn [List.filter].
  rewrite Hs.
  destruct (p (lookup_event volume)), (p (EvRequest _ _ _ _)); simpl; lia.
Qed.

(** One attempt without a cached address, against a directory that
    names [host] and an rdir that fails with the network error [e]. *)
Lemma fetch_request_unreachable req st resp host e :
  addr_cache st !! volume = None ->
  directory_list b (trace st) RDIR_ACCT volume "rdir" = Ok resp ->
  _filter_rdir_host resp = Ok host ->
  direct_request b (trace st ++ [lookup_event volume]) "POST"
    (request_uri host "rdir" "fetch") (<["vol" := volume]> ∅) (Some req)
    = Raise e ->
  is_OioNetworkException e = true ->
  fetch_request req st
  = (Raise e, State (trace st ++ last_attempt volume host req) (addr_cache st)).
Proof.
  intros Hmiss D F R N.
  unfold _rdir_request, _make_uri, bind, _get_rdir_addr. rewrite Hmiss.
  unfold try_except, bind, call, lift. simpl. rewrite D, F. simpl.
  fold (request_uri host "rdir" "fetch"). unfold lookup_event in R.
  rewrite R, N. unfold bind, _clear_cache, raise. simpl.
  rewrite delete_insert_id by done. unfold last_attempt.
  by rewrite <- app_assoc.
Qed.

Lemma fetch_page_unreachable resp host req n : forall i st,
  (forall tr, directory_list b tr RDIR_ACCT volume "rdir" = Ok resp) ->
  _filter_rdir_host resp = Ok host ->
  (forall tr method uri ps json, exists e,
      direct_request b tr method uri ps json = Raise e /\
      is_OioNetworkException e = true) ->
  addr_cache st !! volume = None ->
  exists e,
    fetch_page b volume req (Z.of_nat (i + S n)) (S n) i st
    = (Raise e,
       State (trace st ++
                flat_map (failed_attempt volume host req) (seq i n) ++
                last_attempt volume host req)
             (addr_cache st)) /\
    is_OioNetworkException e = true.
Proof.
  induction n as [|n IH]; intros i st Hd Hf Hr Hmiss.
  - destruct (Hr (trace st ++ [lookup_event volume]) "POST"
                (request_uri host "rdir" "fetch") (<["vol" := volume]> ∅)
                (Some req)) as (e & R & N).
    exists e. split; [|done]. simpl fetch_page. unfold try_except.
    rewrite (fetch_request_unreachable req st resp host e) by done.
    rewrite N.
    by destruct (Z.ltb_spec (Z.of_nat i) (Z.of_nat (i + 1) - 1)); [lia|].
  - destruct (Hr (trace st ++ [lookup_event volume]) "POST"
                (request_uri host "rdir" "fetch") (<["vol" := volume]> ∅)
                (Some req)) as (e0 & R & N).
    set (st1 := State (trace st ++ failed_attempt volume host req i)
                      (addr_cache st)).
    destruct (IH (S i) st1 Hd Hf Hr Hmiss) as (e & E & Ne).
    exists e. split; [|done].
    change (fetch_page b volume req (Z.of_nat (i + S (S n))) (S (S n)) i st)
      with (try_except (fetch_request req)
              (fun e =>
                 if is_OioNetworkException e
                 then if Z.of_nat i <? Z.of_nat (i + S (S n)) - 1
                      then (sleep i ;;;
                            fetch_page b volume req
                              (Z.of_nat (i + S (S n))) (S n) (S i))
                      else raise e
                 else raise e) st).
    unfold try_except.
    rewrite (fetch_request_unreachable req st resp host e0) by done.
    rewrite N.
    destruct (Z.ltb_spec (Z.of_nat i) (Z.of_nat (i + S (S n)) - 1)); [|lia].
    unfold bind, sleep, log_event. cbn [trace addr_cache].
    replace (i + S (S n))%nat with (S i + S n)%nat by lia.
    replace ((trace st ++ last_attempt volume host req) ++ [EvSleep i])
      with (trace st1).
    2:{ unfold st1, failed_attempt, last_attempt. simpl.
        by rewrite <- app_assoc. }
    change (addr_cache st) with (addr_cache st1) at 1.
    replace (State (trace st1) (addr_cache st1)) with st1 by done.
    rewrite E. f_equal. unfold st1. simpl. f_equal.
    rewrite <- !app_assoc. reflexivity.
Qed.

(** X9. Against an rdir that the network never reaches, a page request
    of [chunk_fetch] is tried as many times as [max_attempts] says, with
    sleeps of 0, 1, 2, ... seconds in between, and raises a network
    error.  Every attempt clears the cached address, so every attempt
    asks the directory again. *)
Theorem fetch_page_retry_ceiling (resp : list srv_entry) (host : string)
    (req : fetch_req) (m : nat) (st : state) :
  (forall tr, directory_list b tr RDIR_ACCT volume "rdir" = Ok resp) ->
  _filter_rdir_host resp = Ok host ->
  (forall tr method uri ps json, exists e,
      direct_request b tr method uri ps json = Raise e /\
      is_OioNetworkException e = true) ->
  addr_cache st !! volume = None ->
  exists e st',
    fetch_page b volume req (Z.of_nat (S m)) (S m) 0 st = (Raise e, st') /\
    is_OioNetworkException e = true /\
    trace st' = trace st ++
                  flat_map (failed_attempt volume host req) (seq 0 m) ++
                  last_attempt volume host req /\
    count is_request (trace st') = (count is_request (trace st) + S m)%nat /\
    count is_dir_list (trace st') = (count is_dir_list (trace st) + S m)%nat /\
    addr_cache st' = addr_cache st.
Proof.
  intros Hd Hf Hr Hmiss.
  destruct (fetch_page_unreachable resp host req m 0 st Hd Hf Hr Hmiss)
    as (e & E & N).
  exists e. eexists. split; [exact E|]. split; [done|]. split; [done|].
  cbn [trace addr_cache].
  rewrite !count_app, !count_failed_attempts by done.
  unfold count, last_attempt. simpl. split; [lia|]. split; [lia|done].
Qed.

End FetchExtras.

Section FetchEvents.

Variable b : Backend.
Variable volume : string.

Lemma emits_rdir_request_shape (P : event -> Prop) method action cr params ty
    json :
  P (lookup_event volume) ->
  (forall host prefix,
      base_url ty = Some prefix ->
      P (EvRequest method (request_uri host prefix action)
           (request_params volume cr params) json)) ->
  emits P (_rdir_request b volume method action cr params ty json).
Proof.
  intros HL HR st r st' E.
  destruct (rdir_request_trace b _ _ _ _ _ _ _ _ _ _ E)
    as (lookups & reqs & Et & Hl & Hq).
  exists (lookups ++ reqs). split; [done|]. apply Forall_app. split.
  - destruct Hl as [[-> _]|[-> _]]; by repeat constructor.
  - destruct Hq as [[-> _]|(host & prefix & B & ->)]; [constructor|].
    repeat constructor. by apply HR.
Qed.

Lemma emits_fetch_page first req maxz n : forall i,
  same_filter first req ->
  emits (fetch_event volume first) (fetch_page b volume req maxz n i).
Proof.
  intros i (Hl & Hr & Hc). revert i.
  induction n as [|n IH]; intros i; simpl; [apply emits_raise|].
  apply emits_try.
  - apply emits_rdir_request_shape; [done|].
    intros host prefix [= <-]. simpl. split; [done|].
    split; [by exists host|]. by repeat split.
  - intros e. destruct (is_OioNetworkException e); [|apply emits_raise].
    destruct (Z.of_nat i <? maxz - 1); [|apply emits_raise].
    apply emits_bind; [by apply emits_sleep|]. intros _. apply IH.
Qed.

Lemma chunk_fetch_loop_events first max_attempts fuel : forall req st,
  same_filter first req ->
  exists t,
    trace (snd (chunk_fetch_loop b fuel volume max_attempts req st))
    = trace st ++ t /\
    Forall (fetch_event volume first) t.
Proof.
  induction fuel as [|fuel IH]; intros req st Hsame; simpl.
  - exists []. by rewrite app_nil_r.
  - destruct (fetch_page b volume req (Z.of_nat max_attempts) max_attempts 0
                st) as [[page|e] st1] eqn:Hp;
      destruct (emits_fetch_page first req _ _ 0 Hsame _ _ _ Hp)
        as (t1 & Et1 & F1); [|by exists t1].
    destruct page as [|rec page']; [by exists t1|].
    destruct (yield_page (rec :: page')) as [ys [e|]]; [by exists t1|].
    set (req' := match fst <$> last (rec :: page') with
                 | Some k => FetchReq (req_limit req) (req_rebuild req)
                               (req_container_id req) (Some k)
                 | None => req
                 end).
    assert (Hsame' : same_filter first req').
    { unfold req'. by destruct (fst <$> last (rec :: page')). }
    destruct (IH req' st1 Hsame') as (t2 & Et2 & F2).
    destruct (chunk_fetch_loop b fuel volume max_attempts req' st1)
      as [[zs e] st2]. simpl in *.
    exists (t1 ++ t2). rewrite Et2, Et1, app_assoc. split; [done|].
    by apply Forall_app.
Qed.

(** X10. Whatever the rdir answers, a run of [chunk_fetch] only looks
    the volume up, sleeps, and posts [fetch] requests for that volume;
    every request carries the limit, the rebuild flag and the container
    filter the run was started with: only the cursor changes from a
    request to the next. *)
Theorem chunk_fetch_events (fuel : nat) (limit : Z) (rebuild : bool)
    (container_id : option string) (max_attempts : nat) (st : state) :
  exists t,
    trace (snd (chunk_fetch b fuel volume limit rebuild container_id
                  max_attempts st))
    = trace st ++ t /\
    Forall (fetch_event volume (first_request limit rebuild container_id)) t.
Proof.
  unfold chunk_fetch. fold (first_request limit rebuild container_id).
  apply chunk_fetch_loop_events. by repeat split.
Qed.

End FetchEvents.

Lemma chunk_fetch_error_after_pages_witness :
  exists ys st'',
    chunk_fetch Harness.one_page_then_500 5 "vol" 100 false None 3 Harness.st0
      = ((ys, Raised (Harness.http_error 500 "internal error")), st'') /\
    length ys = 2%nat.
Proof.
  set (req0 := first_request 100 false None).
  set (st1 := State [lookup_event "vol";
                     EvRequest "POST" "http://10.0.0.1:6301/v1/rdir/fetch"
                       (<["vol" := "vol"]> ∅) (Some req0)]
                    (<["vol" := Harness.rdir1]> ∅)).
  set (st2 := State (trace st1 ++
                     [EvRequest "POST" "http://10.0.0.1:6301/v1/rdir/fetch"
                        (<["vol" := "vol"]> ∅)
                        (Some (with_cursor req0 "c1|o1|k2"))])
                    (<["vol" := Harness.rdir1]> ∅)).
  assert (Hs : serves_until Harness.one_page_then_500 "vol" 3 req0 Harness.st0
                 [ [("c1|o1|k1", "v1"); ("c1|o1|k2", "v2")] ]
                 (with_cursor req0 "c1|o1|k2") st1).
  { eapply serves_until_page with (k := "c1|o1|k2") (v := "v2") (st1 := st1);
      [vm_compute; reflexivity|reflexivity|].
    apply serves_until_now. }
  destruct (chunk_fetch_error_after_pages Harness.one_page_then_500 "vol" 3
              100 false None Harness.st0
              [ [("c1|o1|k1", "v1"); ("c1|o1|k2", "v2")] ]
              (with_cursor req0 "c1|o1|k2") st1
              (Harness.http_error 500 "internal error") st2 Hs)
    with (fuel := 5%nat) as (ys & E & F).
  - repeat constructor.
  - lia.
  - vm_compute. reflexivity.
  - reflexivity.
  - simpl. lia.
  - exists ys, st2. split; [exact E|].
    apply Forall2_length in F. by rewrite <- F.
Defined.

Lemma chunk_fetch_malformed_key_witness :
  exists ys st1,
    chunk_fetch_loop Harness.bad_page 1 "vol" 3 (first_request 100 false None)
      Harness.st0
    = ((ys, Raised (mk ValueError "unpack")), st1) /\
    length ys = 1%nat.
Proof.
  edestruct (chunk_fetch_malformed_key Harness.bad_page "vol" 3 0
               (first_request 100 false None) Harness.st0
               [("c1|o1|k1", "v1")] "c1-o1-k2" "v2" [("c1|o1|k3", "v3")])
    as (ys & E & F).
  - vm_compute. reflexivity.
  - repeat constructor.
  - vm_compute. lia.
  - exists ys. eexists. split; [exact E|].
    apply Forall2_length in F. by rewrite <- F.
Defined.

Lemma fetch_page_retry_ceiling_witness :
  exists e st',
    fetch_page Harness.unreachable "vol" (first_request 100 false None) 3 3 0
      Harness.st0 = (Raise e, st') /\
    count is_request (trace st') = 3%nat /\
    count is_dir_list (trace st') = 3%nat.
Proof.
  destruct (fetch_page_retry_ceiling Harness.unreachable "vol"
              [SrvEntry "rdir" Harness.rdir1] Harness.rdir1
              (first_request 100 false None) 2 Harness.st0)
    as (e & st' & E & _ & _ & Hr & Hl & _).
  - reflexivity.
  - reflexivity.
  - intros tr method uri ps json. exists Harness.net_error. by split.
  - reflexivity.
  - exists e, st'. split; [exact E|]. by split.
Defined.

(* ===================================================================== *)
(** ** Further properties: polling the load balancer *)
(* ===================================================================== *)

Lemma prefix_spec (sub s : string) :
  String.prefix sub s = true <-> exists q, s = sub +:+ q.
Proof.
  revert s. induction sub as [|c sub IH]; intros s; simpl.
  - split; [intros _; by exists s|intros _; by destruct s].
  - destruct s as [|d s].
    + split; [done|]. by intros (q & [=]).
    + change (String.prefix (String c sub) (String d s))
        with (if Ascii.ascii_dec c d then String.prefix sub s else false).
      destruct (Ascii.ascii_dec c d) as [<-|Hne].
      * rewrite IH. split; intros (q & E); exists q.
        -- simpl. by rewrite E.
        -- simpl in E. by injection E.
      * split; [done|]. intros (q & [= ? _]). congruence.
Qed.

(** [sub in s]: [sub] occurs somewhere in [s]. *)
Lemma contains_spec (sub s : string) :
  contains sub s = true <-> exists p q, s = p +:+ sub +:+ q.
Proof.
  induction s as [|d s IH].
  - change (contains sub "") with (String.prefix sub "" || false).
    rewrite orb_false_r, prefix_spec. split.
    + intros (q & E). by exists EmptyString, q.
    + intros (p & q & E). destruct p as [|c p]; [by exists q|done].
  - change (contains sub (String d s))
      with (String.prefix sub (String d s) || contains sub s).
    rewrite orb_true_iff, prefix_spec, IH. split.
    + intros [(q & E)|(p & q & E)].
      * by exists EmptyString, q.
      * exists (String d p), q. simpl. by rewrite E.
    + intros (p & q & E). destruct p as [|c p].
      * left. by exists q.
      * right. simpl in E. injection E as _ E. by exists p, q.
Qed.

Lemma find_candidate_skip (pre : list candidate) svc post :
  Forall not_rdir pre -> contains "rdir" (cand_id svc) = true ->
  List.find (fun c => contains "rdir" (cand_id c)) (pre ++ svc :: post)
  = Some svc.
Proof.
  intros Hpre Hs. induction Hpre as [|x pre Hx _ IH]; simpl in *.
  - by rewrite Hs.
  - unfold not_rdir in Hx. simpl in Hx. by rewrite Hx.
Qed.

Lemma find_candidate_none (svcs : list candidate) :
  Forall not_rdir svcs ->
  List.find (fun c => contains "rdir" (cand_id c)) svcs = None.
Proof.
  induction 1 as [|x l Hx _ IH]; [done|].
  unfold not_rdir in Hx. simpl in *. by rewrite Hx.
Qed.

Section PollExtras.

Variable b : Backend.

(** X11. When the first poll fails: an application error of status 400
    makes [_poll_rdir] create the pool, with the fixed targets, and poll
    once more with the same arguments; an error of the pool creation or
    of that second poll is raised as it is, even another 400.  Any other
    failure of the first poll is raised at once. *)
Theorem poll_rdir_creates_pool (avoid known : option (list string))
    (st : state) (exc : exn) :
  cs_poll b (trace st) "__rawx_rdir" avoid known = Raise exc ->
  let P := pool_event avoid known in
  let C := create_pool_event in
  (is_ClientException exc = false \/ exc_status exc <> Some 400 ->
   _poll_rdir b avoid known st = (Raise exc, log_event P st)) /\
  (is_ClientException exc = true -> exc_status exc = Some 400 ->
   (forall e,
       cs_create_pool b (trace st ++ [P]) "__rawx_rdir"
         [(1, JOKER_SVC_TARGET); (1, "rdir")] = Raise e ->
       _poll_rdir b avoid known st
       = (Raise e, State (trace st ++ [P; C]) (addr_cache st))) /\
   (cs_create_pool b (trace st ++ [P]) "__rawx_rdir"
      [(1, JOKER_SVC_TARGET); (1, "rdir")] = Ok tt ->
    trace (snd (_poll_rdir b avoid known st)) = trace st ++ [P; C; P] /\
    forall e,
      cs_poll b (trace st ++ [P; C]) "__rawx_rdir" avoid known = Raise e ->
      _poll_rdir b avoid known st
      = (Raise e, State (trace st ++ [P; C; P]) (addr_cache st)))).
Proof.
  intros Hp P C. subst P C. unfold pool_event, create_pool_event.
  unfold _poll_rdir, poll, bind, try_except, call.
  rewrite Hp. unfold log_event. cbn [trace addr_cache]. split.
  - intros [Hc|Hs].
    + by rewrite Hc.
    + destruct (is_ClientException exc); [|done].
      assert (Hn : status_eq exc 400 = false).
      { unfold status_eq. destruct (exc_status exc) as [s|]; [|done].
        apply Z.eqb_neq. congruence. }
      by rewrite Hn.
  - intros Hc Hs. rewrite Hc, (status_eq_Some _ _ _ Hs).
    change (negb (400 =? 400)) with false. cbv beta iota.
    cbn [trace addr_cache]. rewrite <- !app_assoc. cbn [app]. split.
    + intros e ->. done.
    + intros ->. unfold ret, raise. split.
      * match goal with
        | |- context [cs_poll b ?t _ _ _] =>
            destruct (cs_poll b t "__rawx_rdir" avoid known) as [svcs|e]
        end.
        -- destruct (List.find _ svcs); reflexivity.
        -- reflexivity.
      * by intros e ->.
Qed.

(** X12. From the candidates the load balancer returns, [_poll_rdir]
    takes the first whose identifier holds the text [rdir], anywhere in
    it and whatever the type of the service; without such a candidate,
    and so for an empty answer, it raises a [ServerException]. *)
Theorem poll_rdir_picks_first_rdir (avoid known : option (list string))
    (st : state) (svcs : list candidate) :
  cs_poll b (trace st) "__rawx_rdir" avoid known = Ok svcs ->
  (forall pre svc post p q,
      svcs = pre ++ svc :: post -> Forall not_rdir pre ->
      cand_id svc = p +:+ "rdir" +:+ q ->
      _poll_rdir b avoid known st
      = (Ok svc, log_event (pool_event avoid known) st)) /\
  (Forall not_rdir svcs ->
   _poll_rdir b avoid known st
   = (Raise (mk ServerException "LB returned incoherent result"),
      log_event (pool_event avoid known) st)) /\
  (forall svc st',
      _poll_rdir b avoid known st = (Ok svc, st') ->
      svc ∈ svcs /\ exists p q, cand_id svc = p +:+ "rdir" +:+ q).
Proof.
  intros Hp. unfold _poll_rdir, poll, bind, try_except, call. rewrite Hp.
  split; [|split].
  - intros pre svc post p q -> Hpre Hid.
    rewrite find_candidate_skip; [done|done|].
    apply contains_spec. by exists p, q.
  - intros Hno. by rewrite find_candidate_none.
  - intros svc st'.
    destruct (List.find _ svcs) as [c|] eqn:E; [|done].
    intros [= <- <-]. apply find_some in E as [Hin Hc].
    split; [by apply list_elem_of_In|]. by apply contains_spec.
Qed.

End PollExtras.

Lemma poll_rdir_creates_pool_witness :
  _poll_rdir Harness.no_pool (Some []) (Some ["NS|rawx|vol"]) Harness.st0
  = (Raise (Harness.http_error 400 "no such pool"),
     State [pool_event (Some []) (Some ["NS|rawx|vol"]); create_pool_event;
            pool_event (Some []) (Some ["NS|rawx|vol"])] ∅) /\
  _poll_rdir Harness.no_candidate (Some []) (Some ["NS|rawx|vol"]) Harness.st0
  = (Raise (Harness.http_error 481 "no service"),
     State [pool_event (Some []) (Some ["NS|rawx|vol"])] ∅).
Proof.
  split.
  - apply (proj2 (proj2 (poll_rdir_creates_pool Harness.no_pool (Some [])
                           (Some ["NS|rawx|vol"]) Harness.st0
                           (Harness.http_error 400 "no such pool") eq_refl)
                    eq_refl eq_refl) eq_refl).
    reflexivity.
  - apply (proj1 (poll_rdir_creates_pool Harness.no_candidate (Some [])
                    (Some ["NS|rawx|vol"]) Harness.st0
                    (Harness.http_error 481 "no service") eq_refl)).
    right. discriminate.
Defined.

Lemma poll_rdir_picks_first_rdir_witness :
  _poll_rdir Harness.mixed_pool None (Some ["NS|rawx|vol"]) Harness.st0
  = (Ok (Candidate "NS|rdir|10.0.0.2:6301" Harness.rdir2),
     State [pool_event None (Some ["NS|rawx|vol"])] ∅).
Proof.
  apply (proj1 (poll_rdir_picks_first_rdir Harness.mixed_pool None
                  (Some ["NS|rawx|vol"]) Harness.st0
                  [Candidate "NS|rawx|10.0.0.8:6201" "10.0.0.8:6201";
                   Candidate "NS|rdir|10.0.0.2:6301" Harness.rdir2;
                   Candidate "NS|rdir|10.0.0.3:6301" Harness.rdir3]
                  eq_refl)
           [Candidate "NS|rawx|10.0.0.8:6201" "10.0.0.8:6201"]
           (Candidate "NS|rdir|10.0.0.2:6301" Harness.rdir2)
           [Candidate "NS|rdir|10.0.0.3:6301" Harness.rdir3]
           "NS|" "|10.0.0.2:6301"); [reflexivity| |reflexivity].
  repeat constructor.
Defined.

(* ===================================================================== *)
(** ** Further properties: selecting and linking *)
(* ===================================================================== *)

Section AtMost.

Context (p : event -> bool).

Lemma at_most_le {A} (n n' : nat) (m : M A) :
  (n <= n')%nat -> at_most p n m -> at_most p n' m.
Proof.
  intros Hle Hm st r st' E. destruct (Hm _ _ _ E) as (t & Et & Hc).
  exists t. split; [done|lia].
Qed.

Lemma at_most_ret {A} (a : A) n : at_most p n (ret a).
Proof.
  intros st r st' [= <- <-]. exists []. rewrite app_nil_r.
  split; [done|unfold count; simpl; lia].
Qed.

Lemma at_most_raise {A} (e : exn) n : at_most p n (@raise A e).
Proof.
  intros st r st' [= <- <-]. exists []. rewrite app_nil_r.
  split; [done|unfold count; simpl; lia].
Qed.

Lemma at_most_call {A} (f : list event -> result A) ev n :
  (count p [ev] <= n)%nat -> at_most p n (call f ev).
Proof. intros Hc st r st' [= <- <-]. by exists [ev]. Qed.

Lemma at_most_sleep i n :
  (count p [EvSleep i] <= n)%nat -> at_most p n (sleep i).
Proof. intros Hc st r st' [= <- <-]. by exists [EvSleep i]. Qed.

Lemma at_most_bind {A B} (m : M A) (k : A -> M B) n1 n2 :
  at_most p n1 m -> (forall a, at_most p n2 (k a)) ->
  at_most p (n1 + n2) (bind m k).
Proof.
  intros Hm Hk st r st'. unfold bind.
  destruct (m st) as [[a|e] st1] eqn:E; intros Hr.
  - destruct (Hm _ _ _ E) as (t1 & E1 & C1).
    destruct (Hk a _ _ _ Hr) as (t2 & E2 & C2).
    exists (t1 ++ t2). rewrite E2, E1, app_assoc. split; [done|].
    rewrite count_app. lia.
  - injection Hr as <- <-. destruct (Hm _ _ _ E) as (t1 & E1 & C1).
    exists t1. split; [done|lia].
Qed.

Lemma at_most_try {A} (m : M A) (h : exn -> M A) n1 n2 :
  at_most p n1 m -> (forall e, at_most p n2 (h e)) ->
  at_most p (n1 + n2) (try_except m h).
Proof.
  intros Hm Hh st r st'. unfold try_except.
  destruct (m st) as [[a|e] st1] eqn:E; intros Hr.
  - injection Hr as <- <-. destruct (Hm _ _ _ E) as (t1 & E1 & C1).
    exists t1. split; [done|lia].
  - destruct (Hm _ _ _ E) as (t1 & E1 & C1).
    destruct (Hh e _ _ _ Hr) as (t2 & E2 & C2).
    exists (t1 ++ t2). rewrite E2, E1, app_assoc. split; [done|].
    rewrite count_app. lia.
Qed.

Variable b : Backend.
Variable ns : string.

(** What one event of each kind weighs for [p]. *)
Variables nP nC nF nS nL nR : nat.
Hypothesis HP : forall avoid known,
  (count p [EvPoll "__rawx_rdir" avoid known] <= nP)%nat.
Hypothesis HC : (count p [create_pool_event] <= nC)%nat.
Hypothesis HF : forall acct ref ty forced ac,
  (count p [EvDirForce acct ref ty forced ac] <= nF)%nat.
Hypothesis HS : forall i, (count p [EvSleep i] <= nS)%nat.
Hypothesis HL : forall v, (count p [lookup_event v] <= nL)%nat.
Hypothesis HR : forall method uri ps json,
  (count p [EvRequest method uri ps json] <= nR)%nat.

Lemma at_most_poll_rdir avoid known :
  at_most p (nP + (nC + nP)) (_poll_rdir b avoid known).
Proof.
  unfold _poll_rdir.
  apply (at_most_le (nP + (nC + nP) + 0)); [lia|]. apply at_most_bind.
  - apply at_most_try; [by apply at_most_call|]. intros exc.
    destruct (is_ClientException exc); [|apply at_most_raise].
    destruct (negb (status_eq exc 400)); [apply at_most_raise|].
    apply at_most_bind; [apply at_most_call, HC|]. intros _.
    by apply at_most_call.
  - intros svcs.
    destruct (List.find _ svcs); [apply at_most_ret|apply at_most_raise].
Qed.

Lemma at_most_force_loop v forced maxz n : forall i,
  at_most p (n * (nF + nS)) (force_loop b v forced maxz n i).
Proof.
  induction n as [|n IH]; intros i; simpl; [apply at_most_ret|].
  apply (at_most_le (nF + (nS + n * (nF + nS)))); [lia|].
  apply at_most_try; [by apply at_most_call|]. intros ex.
  destruct (negb (is_ClientException ex)); [apply at_most_raise|].
  destruct (status_in ex [455]); [apply at_most_ret|].
  destruct (String.prefix ALREADY0 (exc_message ex)); [apply at_most_ret|].
  destruct (String.prefix ALREADY1 (exc_message ex)); [apply at_most_ret|].
  destruct (status_ge ex 400 && negb (status_in ex [406; 450; 503; 504]));
    [apply at_most_raise|].
  destruct (Z.of_nat i <? maxz - 1); [|apply at_most_raise].
  apply at_most_bind; [by apply at_most_sleep|]. intros _. apply IH.
Qed.

Lemma at_most_rdir_request v method action cr params ty json :
  at_most p (nL + nR) (_rdir_request b v method action cr params ty json).
Proof.
  intros st r st' E.
  destruct (rdir_request_trace b _ _ _ _ _ _ _ _ _ _ E)
    as (lookups & reqs & Et & Hl & Hq).
  exists (lookups ++ reqs). split; [done|]. rewrite count_app.
  assert (count p lookups <= nL)%nat.
  { destruct Hl as [[-> _]|[-> _]]; [unfold count; simpl; lia|apply HL]. }
  assert (count p reqs <= nR)%nat.
  { destruct Hq as [[-> _]|(host & prefix & _ & ->)];
      [unfold count; simpl; lia|apply HR]. }
  lia.
Qed.

Lemma at_most_link_polled v ma ty polled :
  at_most p (ma * (nF + nS) + (nL + nR)) (link_polled b v ma ty polled).
Proof.
  unfold link_polled. apply at_most_bind; [apply at_most_force_loop|].
  intros _. apply (at_most_le (nL + nR + 0 + 0)); [lia|].
  apply at_most_bind; [|intros; apply at_most_ret].
  apply at_most_try; [|intros; apply at_most_ret].
  unfold create. apply (at_most_le (nL + nR + 0)); [lia|].
  apply at_most_bind; [apply at_most_rdir_request|intros; apply at_most_ret].
Qed.

Lemma at_most_smart_link v fleet mpr ma ty :
  at_most p (2 * (nP + (nC + nP)) + (ma * (nF + nS) + (nL + nR)))
    (_smart_link_rdir b ns v fleet mpr ma ty).
Proof.
  unfold _smart_link_rdir.
  destruct (Z.of_nat (length (opened_db fleet)) <=? 0); [apply at_most_raise|].
  apply at_most_bind; [|intros; apply at_most_link_polled].
  apply (at_most_le ((nP + (nC + nP)) + (nP + (nC + nP)))); [lia|].
  apply at_most_try; [apply at_most_poll_rdir|]. intros exc.
  destruct (is_ClientException exc); [|apply at_most_raise].
  destruct (negb (status_eq exc 481) || truthy mpr); [apply at_most_raise|].
  apply at_most_poll_rdir.
Qed.

End AtMost.

Section LinkExtras.

Variable b : Backend.
Variable ns : string.

Lemma emits_force_loop_bounded (P : event -> Prop) v forced maxz n :
  P (EvDirForce RDIR_ACCT v "rdir" forced true) ->
  (forall i, Z.of_nat i < maxz - 1 -> P (EvSleep i)) ->
  forall i, emits P (force_loop b v forced maxz n i).
Proof.
  intros HF HS. induction n as [|n IH]; intros i; simpl; [apply emits_ret|].
  apply emits_try; [by apply emits_call|]. intros ex.
  destruct (negb (is_ClientException ex)); [apply emits_raise|].
  destruct (status_in ex [455]); [apply emits_ret|].
  destruct (String.prefix ALREADY0 (exc_message ex)); [apply emits_ret|].
  destruct (String.prefix ALREADY1 (exc_message ex)); [apply emits_ret|].
  destruct (status_ge ex 400 && negb (status_in ex [406; 450; 503; 504]));
    [apply emits_raise|].
  destruct (Z.ltb_spec (Z.of_nat i) (maxz - 1)); [|apply emits_raise].
  apply emits_bind; [by apply emits_sleep, HS|]. intros _. apply IH.
Qed.

Lemma emits_link_events v fleet mpr ma ty :
  emits (link_event v ma) (_smart_link_rdir b ns v fleet mpr ma ty).
Proof.
  unfold _smart_link_rdir.
  destruct (Z.of_nat (length (opened_db fleet)) <=? 0); [apply emits_raise|].
  apply emits_bind.
  - apply emits_try; [by apply emits_poll_rdir|]. intros exc.
    destruct (is_ClientException exc); [|apply emits_raise].
    destruct (negb (status_eq exc 481) || truthy mpr); [apply emits_raise|].
    by apply emits_poll_rdir.
  - intros polled. unfold link_polled.
    apply emits_bind.
    + apply emits_force_loop_bounded; [by repeat split|].
      intros i Hi. simpl. lia.
    + intros _. apply emits_bind; [|intros; apply emits_ret].
      apply emits_try; [by apply emits_create|]. intros; apply emits_ret.
Qed.

(** X13. For every backend and every answer it may give, a call of
    [_smart_link_rdir] writes the link at most [max_attempts] times,
    polls the load balancer at most four times, creates the pool at most
    twice and asks the rdir at most once; every write is an
    auto-creating write of an [rdir] link of sequence 1 for the volume,
    and every sleep is shorter than [max_attempts - 1] seconds. *)
Theorem smart_link_bounded (volume_id : string) (fleet : list service)
    (max_per_rdir : option Z) (max_attempts : nat) (service_type : string)
    (st : state) :
  exists t,
    trace (snd (_smart_link_rdir b ns volume_id fleet max_per_rdir
                  max_attempts service_type st)) = trace st ++ t /\
    (count is_force t <= max_attempts)%nat /\
    (count is_poll t <= 4)%nat /\
    (count is_create_pool t <= 2)%nat /\
    (count is_request t <= 1)%nat /\
    Forall (link_event volume_id max_attempts) t.
Proof.
  destruct (_smart_link_rdir b ns volume_id fleet max_per_rdir max_attempts
              service_type st) as [r st'] eqn:E.
  destruct (emits_link_events _ _ _ _ _ _ _ _ E) as (t & Et & Ft).
  exists t. split; [done|].
  assert (Hsame : forall t', trace st' = trace st ++ t' -> t' = t).
  { intros t' Et'. rewrite Et in Et'. by apply app_inv_head in Et'. }
  repeat split; [| | | |done].
  - destruct (at_most_smart_link is_force b ns 0 0 1 0 0 0
                ltac:(done) ltac:(done) ltac:(done) ltac:(done) ltac:(done)
                ltac:(done) volume_id fleet max_per_rdir max_attempts
                service_type _ _ _ E) as (t' & Et' & Hc).
    apply Hsame in Et' as ->. lia.
  - destruct (at_most_smart_link is_poll b ns 1 0 0 0 0 0
                ltac:(done) ltac:(done) ltac:(done) ltac:(done) ltac:(done)
                ltac:(done) volume_id fleet max_per_rdir max_attempts
                service_type _ _ _ E) as (t' & Et' & Hc).
    apply Hsame in Et' as ->. lia.
  - destruct (at_most_smart_link is_create_pool b ns 0 1 0 0 0 0
                ltac:(done) ltac:(done) ltac:(done) ltac:(done) ltac:(done)
                ltac:(done) volume_id fleet max_per_rdir max_attempts
                service_type _ _ _ E) as (t' & Et' & Hc).
    apply Hsame in Et' as ->. lia.
  - destruct (at_most_smart_link is_request b ns 0 0 0 0 0 1
                ltac:(done) ltac:(done) ltac:(done) ltac:(done) ltac:(done)
                ltac:(done) volume_id fleet max_per_rdir max_attempts
                service_type _ _ _ E) as (t' & Et' & Hc).
    apply Hsame in Et' as ->. lia.
Qed.

Lemma opened_db_unhealthy fleet :
  Forall (fun x => score x <= 0) fleet -> opened_db fleet = [].
Proof.
  intros Hall. unfold opened_db.
  induction Hall as [|x l Hx _ IH]; simpl; [done|].
  by destruct (Z.ltb_spec 0 (score x)); [lia|].
Qed.

Lemma smart_link_no_healthy v fleet mpr ma ty st :
  Forall (fun x => score x <= 0) fleet ->
  _smart_link_rdir b ns v fleet mpr ma ty st
  = (Raise (mk ServiceUnavailable ("No valid rdir service found in " +:+ ns)),
     st).
Proof.
  intros Hall. unfold _smart_link_rdir.
  by rewrite (opened_db_unhealthy fleet Hall).
Qed.

(** X14. Without a healthy rdir, and so without any rdir at all,
    [_smart_link_rdir] raises [ServiceUnavailable] and calls nothing:
    no poll, no write, no request. *)
Theorem smart_link_unavailable (volume_id : string) (fleet : list service)
    (max_per_rdir : option Z) (max_attempts : nat) (service_type : string)
    (st : state) :
  Forall (fun x => score x <= 0) fleet ->
  _smart_link_rdir b ns volume_id fleet max_per_rdir max_attempts
    service_type st
  = (Raise (mk ServiceUnavailable ("No valid rdir service found in " +:+ ns)),
     st).
Proof. apply smart_link_no_healthy. Qed.

Lemma force_loop_fatal v forced maxz n i st ex :
  directory_force b (trace st) RDIR_ACCT v "rdir" forced true = Raise ex ->
  fatal_status ex ->
  force_loop b v forced maxz (S n) i st
  = (Raise ex, log_event (EvDirForce RDIR_ACCT v "rdir" forced true) st).
Proof.
  intros Hf (Hc & H0 & H1 & s & Hs & Hge & H455 & H406 & H450 & H503 & H504).
  simpl. unfold try_except, call. rewrite Hf, Hc, H0, H1. simpl.
  rewrite !(status_in_cons _ _ _ _ Hs), status_in_nil.
  unfold status_ge. rewrite Hs.
  repeat match goal with
         | |- context [s =? ?n] =>
             replace (s =? n) with false by (symmetry; apply Z.eqb_neq; lia)
         end.
  simpl. by destruct (Z.leb_spec 400 s); [|lia].
Qed.

(** X15. An application error of the force write with a status of 400 or
    more that is neither 455 nor one of 406, 450, 503 and 504, and
    without an "already linked" message, ends [_smart_link_rdir] at that
    attempt: the error is raised, there is no sleep and no retry, and
    the rdir is not asked to create its database. *)
Theorem smart_link_fatal_status (volume_id : string) (fleet : list service)
    (max_per_rdir : option Z) (max_attempts : nat) (service_type : string)
    (st : state) (polled : candidate) (st1 : state) (ex : exn) :
  (exists x, x ∈ fleet /\ 0 < score x) ->
  _poll_rdir b (Some (avoids ns max_per_rdir fleet))
    (Some [_make_id ns service_type volume_id]) st = (Ok polled, st1) ->
  (0 < max_attempts)%nat ->
  directory_force b (trace st1) RDIR_ACCT volume_id "rdir"
    (forced_link polled) true = Raise ex ->
  fatal_status ex ->
  _smart_link_rdir b ns volume_id fleet max_per_rdir max_attempts
    service_type st
  = (Raise ex, log_event (force_event volume_id polled) st1).
Proof.
  intros Hh Hp Hm Hf Hfatal. rewrite smart_link_healthy by done.
  unfold bind at 1, try_except at 1. rewrite Hp.
  unfold link_polled. fold (forced_link polled).
  destruct max_attempts as [|m]; [lia|].
  unfold bind at 1. by rewrite (force_loop_fatal _ _ _ _ _ _ ex).
Qed.

(** X16. The creation of the database on the rdir is best effort: once
    the force loop is over without an error, [_smart_link_rdir] returns
    the identifier of the polled rdir whatever [create] returns or
    raises, and ends in the state [create] leaves.  With no attempt
    allowed the loop is over at once, without any write. *)
Theorem smart_link_best_effort_create (volume_id : string)
    (fleet : list service) (max_per_rdir : option Z) (max_attempts : nat)
    (service_type : string) (st : state) (polled : candidate)
    (st1 st2 : state) :
  (exists x, x ∈ fleet /\ 0 < score x) ->
  _poll_rdir b (Some (avoids ns max_per_rdir fleet))
    (Some [_make_id ns service_type volume_id]) st = (Ok polled, st1) ->
  (force_loop b volume_id (forced_link polled) (Z.of_nat max_attempts)
     max_attempts 0 st1 = (Ok tt, st2) ->
   _smart_link_rdir b ns volume_id fleet max_per_rdir max_attempts
     service_type st
   = (Ok (cand_id polled), snd (create b volume_id service_type st2))) /\
  (max_attempts = 0%nat ->
   _smart_link_rdir b ns volume_id fleet max_per_rdir max_attempts
     service_type st
   = (Ok (cand_id polled), snd (create b volume_id service_type st1))).
Proof.
  intros Hh Hp.
  assert (Hgen : forall st2,
    force_loop b volume_id (forced_link polled) (Z.of_nat max_attempts)
      max_attempts 0 st1 = (Ok tt, st2) ->
    _smart_link_rdir b ns volume_id fleet max_per_rdir max_attempts
      service_type st
    = (Ok (cand_id polled), snd (create b volume_id service_type st2))).
  { intros st3 Hl. rewrite smart_link_healthy by done.
    unfold bind at 1, try_except at 1. rewrite Hp.
    unfold link_polled. fold (forced_link polled).
    unfold bind at 1. rewrite Hl. unfold bind at 1, try_except.
    by destruct (create b volume_id service_type st3) as [[[]|e] st4]. }
  split; [apply Hgen|]. intros ->. by apply Hgen.
Qed.

End LinkExtras.

Lemma smart_link_unavailable_witness :
  _smart_link_rdir Harness.no_candidate "NS" "vol" Harness.fleet_down None 7
    "rawx" Harness.st0
  = (Raise (mk ServiceUnavailable "No valid rdir service found in NS"),
     Harness.st0).
Proof.
  apply (smart_link_unavailable Harness.no_candidate "NS" "vol"
           Harness.fleet_down None 7 "rawx" Harness.st0).
  repeat constructor; simpl; lia.
Defined.

Lemma smart_link_fatal_status_witness :
  _smart_link_rdir (Harness.force_fails (Harness.http_error 500 "internal"))
    "NS" "vol" Harness.fleet246 None 7 "rawx" Harness.st0
  = (Raise (Harness.http_error 500 "internal"),
     State [pool_event (Some ["NS|rdir|10.0.0.3:6301"]) (Some ["NS|rawx|vol"]);
            force_event "vol" (Candidate "NS|rdir|10.0.0.1:6301" Harness.rdir1)]
           ∅).
Proof.
  apply (smart_link_fatal_status
           (Harness.force_fails (Harness.http_error 500 "internal")) "NS" "vol"
           Harness.fleet246 None 7 "rawx" Harness.st0
           (Candidate "NS|rdir|10.0.0.1:6301" Harness.rdir1)
           (State [pool_event (Some ["NS|rdir|10.0.0.3:6301"])
                     (Some ["NS|rawx|vol"])] ∅)).
  - exists (Harness.rdir_with Harness.rdir1 2).
    split; [apply list_elem_of_here|reflexivity].
  - vm_compute. reflexivity.
  - lia.
  - reflexivity.
  - split; [reflexivity|]. split; [reflexivity|]. split; [reflexivity|].
    exists 500. split; [reflexivity|]. lia.
Defined.

Lemma smart_link_best_effort_create_witness :
  fst (_smart_link_rdir Harness.create_fails "NS" "vol" Harness.fleet246 None
         7 "rawx" Harness.st0)
  = Ok "NS|rdir|10.0.0.1:6301" /\
  fst (create Harness.create_fails "vol" "rawx"
         (State [pool_event (Some ["NS|rdir|10.0.0.3:6301"])
                   (Some ["NS|rawx|vol"]);
                 force_event "vol"
                   (Candidate "NS|rdir|10.0.0.1:6301" Harness.rdir1)] ∅))
  = Raise (no_volume "vol").
Proof.
  split; [|vm_compute; reflexivity].
  set (polled := Candidate "NS|rdir|10.0.0.1:6301" Harness.rdir1).
  set (st1 := State [pool_event (Some ["NS|rdir|10.0.0.3:6301"])
                       (Some ["NS|rawx|vol"])] ∅).
  set (st2 := State [pool_event (Some ["NS|rdir|10.0.0.3:6301"])
                       (Some ["NS|rawx|vol"]);
                     force_event "vol" polled] ∅).
  assert (Hh : exists x, x ∈ Harness.fleet246 /\ 0 < score x).
  { exists (Harness.rdir_with Harness.rdir1 2).
    split; [apply list_elem_of_here|reflexivity]. }
  assert (Hp : _poll_rdir Harness.create_fails
                 (Some (avoids "NS" None Harness.fleet246))
                 (Some [_make_id "NS" "rawx" "vol"]) Harness.st0
               = (Ok polled, st1)) by (vm_compute; reflexivity).
  assert (Hl : force_loop Harness.create_fails "vol" (forced_link polled)
                 (Z.of_nat 7) 7 0 st1 = (Ok tt, st2))
    by (vm_compute; reflexivity).
  rewrite (proj1 (smart_link_best_effort_create Harness.create_fails "NS"
                    "vol" Harness.fleet246 None 7 "rawx" Harness.st0
                    polled st1 st2 Hh Hp) Hl).
  reflexivity.
Defined.

(* ===================================================================== *)
(** ** Further properties: the batches *)
(* ===================================================================== *)

Section BatchExtras.

Variable b : Backend.
Variable ns : string.
Context {K : Type} `{EqDecision K}.
Variable signature : exn -> K.
Variable repr_errors : list (exn * list string) -> string.

Local Abbreviation listings ty :=
  [EvAllServices ty false; EvAllServices "rdir" true].
Local Abbreviation lookups providers :=
  (map (fun p => lookup_event (provider_id p)) providers).

Lemma assign_services_listed ty mpr st all_services all_rdir :
  cs_all_services b (trace st) ty false = Ok all_services ->
  cs_all_services b (trace st ++ [EvAllServices ty false]) "rdir" true
    = Ok all_rdir ->
  all_rdir <> [] ->
  assign_services b ns signature repr_errors ty mpr st
  = (out <- assign_services_loop b ns ty mpr (index_by_id ns 0 all_rdir ∅)
              (AssignState all_rdir []) all_services ;;
     raise_collected signature repr_errors (errors (snd out))
       (fst out, rdirs (snd out)))
      (State (trace st ++ listings ty) (addr_cache st)).
Proof.
  intros Hs Hr Hne. unfold assign_services, all_of_type, call.
  unfold bind at 1. simpl. rewrite Hs.
  unfold bind at 1. simpl. rewrite Hr.
  assert (Hlen : (Z.of_nat (length all_rdir) <=? 0) = false).
  { destruct all_rdir; [done|]. apply Z.leb_gt. simpl length. lia. }
  rewrite Hlen. unfold log_event. cbn [trace addr_cache].
  by rewrite <- app_assoc.
Qed.

Lemma assign_loop_no_healthy ty mpr by_id providers : forall s st,
  Forall (fun x => score x <= 0) (rdirs s) ->
  (forall tr ref, exists e,
      directory_list b tr RDIR_ACCT ref "rdir" = Raise e /\
      is_NotFound e = true) ->
  assign_services_loop b ns ty mpr by_id s providers st
  = (Ok (map (fun p => (p, None)) providers,
         AssignState (rdirs s)
           (errors s ++ map (fun p => (provider_id p, (nobody_healthy ns)))
                            providers)),
     State (trace st ++ lookups providers) (addr_cache st)).
Proof.
  induction providers as [|p rest IH]; intros s st Hdown Hdir; simpl.
  - unfold ret. rewrite !app_nil_r. by destruct s, st.
  - assert (Hturn :
      assign_provider b ns ty mpr by_id s p st
      = (Ok (None, AssignState (rdirs s)
                     (errors s ++ [(provider_id p, (nobody_healthy ns))])),
         log_event (lookup_event (provider_id p)) st)).
    { destruct (Hdir (trace st) (provider_id p)) as (e & D & Hnf).
      unfold assign_provider, try_except, bind, directory_list_rdir, call,
        lift. simpl. rewrite D, Hnf.
      by rewrite (smart_link_no_healthy b ns _ _ _ _ _ _ Hdown). }
    unfold bind at 1. rewrite Hturn. cbn [fst snd].
    unfold bind at 1. rewrite IH by done. unfold ret. cbn [fst snd rdirs errors].
    unfold log_event. cbn [trace addr_cache].
    by rewrite <- !app_assoc.
Qed.

(** X17. Without any rdir in the listing, [assign_services] raises
    [ServiceUnavailable] right after the two listings.  With rdirs
    listed but none of them healthy, and no volume linked yet, nothing
    is polled or written: every volume is looked up once, fails with
    [ServiceUnavailable], and one [ServiceUnavailable] that names all
    the volumes is raised at the end. *)
Theorem assign_services_no_healthy_rdir (service_type : string)
    (max_per_rdir : option Z) (st : state)
    (all_services all_rdir : list service) :
  cs_all_services b (trace st) service_type false = Ok all_services ->
  cs_all_services b (trace st ++ [EvAllServices service_type false])
    "rdir" true = Ok all_rdir ->
  (all_rdir = [] ->
   assign_services b ns signature repr_errors service_type max_per_rdir st
   = (Raise (mk ServiceUnavailable ("No rdir service found in " +:+ ns)),
      State (trace st ++ listings service_type) (addr_cache st))) /\
  (all_rdir <> [] -> Forall (fun x => score x <= 0) all_rdir ->
   all_services <> [] ->
   (forall tr ref, exists e,
       directory_list b tr RDIR_ACCT ref "rdir" = Raise e /\
       is_NotFound e = true) ->
   assign_services b ns signature repr_errors service_type max_per_rdir st
   = (Raise (oio_reraise ServiceUnavailable (nobody_healthy ns)
               (py_str_list (map provider_id all_services))),
      State (trace st ++ listings service_type ++ lookups all_services)
            (addr_cache st))).
Proof.
  intros Hs Hr. split.
  - intros ->. unfold assign_services, all_of_type, call.
    unfold bind at 1. simpl. rewrite Hs.
    unfold bind at 1. simpl. rewrite Hr. simpl. unfold raise, log_event.
    simpl. by rewrite <- app_assoc.
  - intros Hne Hdown Hsv Hdir.
    rewrite (assign_services_listed _ _ _ _ _ Hs Hr Hne).
    unfold bind. rewrite assign_loop_no_healthy by done.
    cbn [fst snd errors rdirs app trace addr_cache].
    destruct all_services as [|p rest]; [done|].
    unfold raise_collected. cbn [map].
    rewrite (group_chunk_errors_same signature).
    + unfold raise. rewrite <- app_assoc. do 3 f_equal. simpl.
      do 2 f_equal. clear. induction rest as [|q rest IH]; [done|].
      simpl. by rewrite IH.
    + clear. induction rest as [|q rest IH]; by constructor.
Qed.

Lemma index_by_id_absent_key k l : forall i m,
  Forall (fun x => _make_id ns "rdir" (addr x) <> k) l ->
  index_by_id ns i l m !! k = m !! k.
Proof.
  induction l as [|x l IH]; intros i m Hall; simpl; [done|].
  apply Forall_cons in Hall as [Hx Hl].
  rewrite IH by done. by apply lookup_insert_ne.
Qed.

(** X18. When [_smart_link_rdir] has linked a volume to the rdir of some
    listed address, the turn attaches a record of that address and
    raises its counter of open databases by one; the address and the
    score of the record, every other record and the errors collected so
    far are left as they were. *)
Theorem assign_provider_bumps_counter (service_type : string)
    (max_per_rdir : option Z) (all_rdir : list service) (s : assign_state)
    (provider : service) (st : state) (exc : exn) (a : string) (st1 : state) :
  addr <$> rdirs s = addr <$> all_rdir ->
  directory_list b (trace st) RDIR_ACCT (provider_id provider) "rdir"
    = Raise exc ->
  is_NotFound exc = true ->
  _smart_link_rdir b ns (provider_id provider) (rdirs s) max_per_rdir 7
    service_type (log_event (lookup_event (provider_id provider)) st)
    = (Ok (_make_id ns "rdir" a), st1) ->
  a ∈ addr <$> all_rdir ->
  exists i x,
    rdirs s !! i = Some x /\ addr x = a /\
    assign_provider b ns service_type max_per_rdir
      (index_by_id ns 0 all_rdir ∅) s provider st
    = (Ok (Some (Known i),
           AssignState (<[i := bump x]> (rdirs s)) (errors s)), st1) /\
    opened_db_count (bump x) = opened_db_count x + 1 /\
    addr (bump x) = addr x /\ score (bump x) = score x /\
    forall j, j <> i -> <[i := bump x]> (rdirs s) !! j = rdirs s !! j.
Proof.
  intros Haddr D Hnf L Ha.
  apply list_elem_of_fmap in Ha as (y & Hy & Hin).
  destruct (index_by_id_present ns a all_rdir 0 ∅) as (i & z & E & Hi & Hz).
  { apply Exists_exists. exists y. by split. }
  assert (Hx : exists x, rdirs s !! i = Some x /\ addr x = a).
  { assert (Hl : (addr <$> rdirs s) !! i = Some a).
    { rewrite Haddr, list_lookup_fmap, Hi. simpl. by rewrite Hz. }
    rewrite list_lookup_fmap in Hl.
    destruct (rdirs s !! i) as [x|]; [|done].
    exists x. split; [done|]. by injection Hl. }
  destruct Hx as (x & Hx & Hxa). exists i, x.
  split; [done|]. split; [done|]. split.
  - unfold assign_provider, try_except, bind, directory_list_rdir, call, lift.
    simpl. rewrite D, Hnf. unfold lookup_event in L. rewrite L.
    simpl in E. by rewrite E, Hx.
  - split.
    + unfold opened_db_count, bump. simpl. by rewrite lookup_insert_eq.
    + split; [done|]. split; [done|].
      intros j Hj. by apply list_lookup_insert_ne.
Qed.

(** X19. When the load balancer names an rdir that the listing of the
    conscience does not hold, the lookup of that rdir in [by_id] fails
    with a [KeyError] after the link has been written; the error is not
    collected: it ends the loop, whatever services are left. *)
Theorem assign_services_unlisted_rdir (service_type : string)
    (max_per_rdir : option Z) (all_rdir : list service) (s : assign_state)
    (provider : service) (st : state) (exc : exn) (rdir : string)
    (st1 : state) :
  directory_list b (trace st) RDIR_ACCT (provider_id provider) "rdir"
    = Raise exc ->
  is_NotFound exc = true ->
  _smart_link_rdir b ns (provider_id provider) (rdirs s) max_per_rdir 7
    service_type (log_event (lookup_event (provider_id provider)) st)
    = (Ok rdir, st1) ->
  Forall (fun x => _make_id ns "rdir" (addr x) <> rdir) all_rdir ->
  forall rest,
    assign_services_loop b ns service_type max_per_rdir
      (index_by_id ns 0 all_rdir ∅) s (provider :: rest) st
    = (Raise (mk KeyError rdir), st1).
Proof.
  intros D Hnf L Hall rest. simpl. unfold bind at 1.
  assert (Hturn :
    assign_provider b ns service_type max_per_rdir
      (index_by_id ns 0 all_rdir ∅) s provider st
    = (Raise (mk KeyError rdir), st1)).
  { unfold assign_provider, try_except, bind, directory_list_rdir, call, lift.
    simpl. rewrite D, Hnf. unfold lookup_event in L. rewrite L.
    by rewrite (index_by_id_absent_key rdir all_rdir 0 ∅ Hall). }
  by rewrite Hturn.
Qed.

Lemma assign_loop_all_linked ty mpr by_id providers : forall s st,
  all_linked b ->
  exists out,
    assign_services_loop b ns ty mpr by_id s providers st
    = (Ok (out, s), State (trace st ++ lookups providers) (addr_cache st)) /\
    map fst out = providers.
Proof.
  induction providers as [|p rest IH]; intros s st Hall; simpl.
  - exists []. unfold ret. rewrite app_nil_r. by destruct st.
  - destruct (Hall (trace st) (provider_id p)) as (resp & host & D & F).
    assert (Hturn :
      assign_provider b ns ty mpr by_id s p st
      = (Ok (by_id !! _make_id ns "rdir" host, s),
         log_event (lookup_event (provider_id p)) st)).
    { unfold assign_provider, try_except, bind, directory_list_rdir, call,
        lift. simpl. rewrite D, F.
      by destruct (by_id !! _make_id ns "rdir" host). }
    destruct (IH s (log_event (lookup_event (provider_id p)) st) Hall)
      as (out & E & Hm).
    exists ((p, by_id !! _make_id ns "rdir" host) :: out).
    unfold bind at 1. rewrite Hturn. cbn [fst snd].
    unfold bind at 1. rewrite E. unfold ret. cbn [fst snd].
    unfold log_event. cbn [trace addr_cache]. rewrite <- !app_assoc.
    split; [done|]. simpl. by rewrite Hm.
Qed.

(** X20. Run on a cluster in which every volume already has an rdir
    link, [assign_services] writes nothing: after the two listings it
    looks every volume up once and returns all the services, with the
    rdir records as the conscience listed them, no counter raised. *)
Theorem assign_services_all_linked (service_type : string)
    (max_per_rdir : option Z) (st : state)
    (all_services all_rdir : list service) :
  all_linked b ->
  cs_all_services b (trace st) service_type false = Ok all_services ->
  cs_all_services b (trace st ++ [EvAllServices service_type false])
    "rdir" true = Ok all_rdir ->
  all_rdir <> [] ->
  exists out,
    assign_services b ns signature repr_errors service_type max_per_rdir st
    = (Ok (out, all_rdir),
       State (trace st ++ listings service_type ++ lookups all_services)
             (addr_cache st)) /\
    map fst out = all_services.
Proof.
  intros Hall Hs Hr Hne.
  rewrite (assign_services_listed _ _ _ _ _ Hs Hr Hne).
  destruct (assign_loop_all_linked service_type max_per_rdir
              (index_by_id ns 0 all_rdir ∅) all_services
              (AssignState all_rdir [])
              (State (trace st ++ listings service_type) (addr_cache st)) Hall)
    as (out & E & Hm).
  exists out. unfold bind. rewrite E. cbn [fst snd errors rdirs].
  unfold raise_collected, ret. cbn [trace addr_cache].
  by rewrite <- app_assoc.
Qed.

End BatchExtras.

Lemma assign_services_no_healthy_rdir_witness :
  assign_services Harness.down_cluster "NS" exc_class Harness.repr_count
    "rawx" None Harness.st0
  = (Raise (Exn ServiceUnavailable None "No valid rdir service found in NS"
              (Some "['10.0.0.8:6201', '10.0.0.9:6201']")),
     State [EvAllServices "rawx" false; EvAllServices "rdir" true;
            lookup_event "10.0.0.8:6201"; lookup_event "10.0.0.9:6201"] ∅).
Proof.
  apply (proj2 (assign_services_no_healthy_rdir Harness.down_cluster "NS"
                  exc_class Harness.repr_count "rawx" None Harness.st0
                  [Harness.rawx "10.0.0.8:6201"; Harness.rawx "10.0.0.9:6201"]
                  Harness.fleet_down eq_refl eq_refl)).
  - discriminate.
  - repeat constructor; simpl; lia.
  - discriminate.
  - intros tr ref. eexists. split; reflexivity.
Defined.

Lemma assign_provider_bumps_counter_witness :
  exists i x,
    Harness.fleet246 !! i = Some x /\ addr x = Harness.rdir1 /\
    fst (assign_provider Harness.create_fails "NS" "rawx" None
           (index_by_id "NS" 0 Harness.fleet246 ∅)
           (AssignState Harness.fleet246 []) (Harness.rawx "10.0.0.8:6201")
           Harness.st0)
    = Ok (Some (Known i),
          AssignState (<[i := bump x]> Harness.fleet246) []) /\
    opened_db_count (bump x) = opened_db_count x + 1.
Proof.
  destruct (_smart_link_rdir Harness.create_fails "NS" "10.0.0.8:6201"
              Harness.fleet246 None 7 "rawx"
              (log_event (lookup_event "10.0.0.8:6201") Harness.st0))
    as [r st1] eqn:L.
  assert (Hr : r = Ok (_make_id "NS" "rdir" Harness.rdir1)).
  { apply (f_equal fst) in L. vm_compute in L. by rewrite <- L. }
  subst r.
  destruct (assign_provider_bumps_counter Harness.create_fails "NS" "rawx"
              None Harness.fleet246 (AssignState Harness.fleet246 [])
              (Harness.rawx "10.0.0.8:6201") Harness.st0
              (Exn NotFound (Some 404) "no such reference" None)
              Harness.rdir1 st1 eq_refl eq_refl eq_refl L)
    as (i & x & Hx & Ha & E & Hc & _).
  - apply list_elem_of_here.
  - exists i, x. split; [exact Hx|]. split; [exact Ha|].
    split; [by rewrite E|exact Hc].
Defined.

Lemma assign_services_unlisted_rdir_witness :
  fst (assign_services_loop Harness.stray_pool "NS" "rawx" None
         (index_by_id "NS" 0 Harness.fleet246 ∅)
         (AssignState Harness.fleet246 [])
         [Harness.rawx "10.0.0.8:6201"; Harness.rawx "10.0.0.9:6201"]
         Harness.st0)
  = Raise (mk KeyError "NS|rdir|10.0.0.7:6301").
Proof.
  destruct (_smart_link_rdir Harness.stray_pool "NS" "10.0.0.8:6201"
              Harness.fleet246 None 7 "rawx"
              (log_event (lookup_event "10.0.0.8:6201") Harness.st0))
    as [r st1] eqn:L.
  assert (Hr : r = Ok "NS|rdir|10.0.0.7:6301").
  { apply (f_equal fst) in L. vm_compute in L. by rewrite <- L. }
  subst r.
  rewrite (assign_services_unlisted_rdir Harness.stray_pool "NS" "rawx" None
             Harness.fleet246 (AssignState Harness.fleet246 [])
             (Harness.rawx "10.0.0.8:6201") Harness.st0
             (Exn NotFound (Some 404) "no such reference" None)
             "NS|rdir|10.0.0.7:6301" st1 eq_refl eq_refl L).
  - reflexivity.
  - repeat constructor; discriminate.
Defined.

Lemma assign_services_all_linked_witness :
  exists out,
    assign_services Harness.linked_cluster "NS" exc_class Harness.repr_count
      "rawx" None Harness.st0
    = (Ok (out, Harness.fleet246),
       State [EvAllServices "rawx" false; EvAllServices "rdir" true;
              lookup_event "10.0.0.8:6201"; lookup_event "10.0.0.9:6201"] ∅) /\
    map fst out = [Harness.rawx "10.0.0.8:6201"; Harness.rawx "10.0.0.9:6201"].
Proof.
  apply (assign_services_all_linked Harness.linked_cluster "NS" exc_class
           Harness.repr_count "rawx" None Harness.st0
           [Harness.rawx "10.0.0.8:6201"; Harness.rawx "10.0.0.9:6201"]
           Harness.fleet246).
  - intros tr ref. exists [SrvEntry "rdir" Harness.rdir1], Harness.rdir1.
    split; reflexivity.
  - reflexivity.
  - reflexivity.
  - discriminate.
Defined.

(* ===================================================================== *)
(** ** Further properties: the index of rdirs and the read path *)
(* ===================================================================== *)

Section IndexExtras.

Variable ns : string.

Lemma index_by_id_origin l : forall i m k r,
  index_by_id ns i l m !! k = Some r ->
  m !! k = Some r \/
  exists j x, r = Known (i + j) /\ l !! j = Some x /\
              k = _make_id ns "rdir" (addr x).
Proof.
  induction l as [|x l IH]; intros i m k r; simpl; [by left|].
  intros E. destruct (IH _ _ _ _ E) as [Hm|(j & y & -> & Hj & ->)].
  - destruct (decide (_make_id ns "rdir" (addr x) = k)) as [<-|Hne].
    + rewrite lookup_insert_eq in Hm. injection Hm as <-. right.
      exists 0%nat, x. split; [f_equal; lia|]. by split.
    + rewrite lookup_insert_ne in Hm by done. by left.
  - right. exists (S j), y. split; [f_equal; lia|]. by split.
Qed.

Lemma index_by_id_last host l : forall i m,
  Exists (fun x => addr x = host) l ->
  exists j x,
    index_by_id ns i l m !! _make_id ns "rdir" host = Some (Known (i + j)) /\
    l !! j = Some x /\ addr x = host /\
    forall k y, (j < k)%nat -> l !! k = Some y -> addr y <> host.
Proof.
  induction l as [|x l IH]; intros i m Hex; simpl.
  - by apply Exists_nil in Hex.
  - destruct (decide (Exists (fun x => addr x = host) l)) as [Hl|Hl].
    + destruct (IH (S i) (<[_make_id ns "rdir" (addr x) := Known i]> m) Hl)
        as (j & y & E & Hj & Hy & Hlast).
      exists (S j), y. rewrite E. split; [f_equal; f_equal; lia|].
      split; [done|]. split; [done|].
      intros [|k] z Hk Hz; [lia|]. simpl in Hz.
      apply (Hlast k z); [lia|done].
    + apply Exists_cons in Hex as [Hx|Hex]; [|done].
      exists 0%nat, x. rewrite index_by_id_absent.
      * rewrite <- Hx, lookup_insert_eq. split; [f_equal; f_equal; lia|].
        split; [done|]. split; [done|].
        intros [|k] z Hk Hz; [lia|]. simpl in Hz. rewrite Hx.
        intros Hc. apply Hl. apply Exists_exists. exists z.
        split; [|done]. by eapply list_elem_of_lookup_2.
      * apply Forall_forall. intros y Hy Hc. apply Hl.
        apply Exists_exists. by exists y.
Qed.

(** X21. The index [by_id] built from the listing of the rdirs holds the
    identifiers of the listed addresses and nothing else; an address
    listed more than once is mapped to its last record. *)
Theorem by_id_last_wins (all_rdir : list service) :
  let by_id := index_by_id ns 0 all_rdir ∅ in
  (forall host,
      (exists x, x ∈ all_rdir /\ addr x = host) ->
      exists j x,
        by_id !! _make_id ns "rdir" host = Some (Known j) /\
        all_rdir !! j = Some x /\ addr x = host /\
        forall k y, (j < k)%nat -> all_rdir !! k = Some y -> addr y <> host) /\
  (forall k r,
      by_id !! k = Some r ->
      exists j x, r = Known j /\ all_rdir !! j = Some x /\
                  k = _make_id ns "rdir" (addr x)).
Proof.
  intros by_id. split.
  - intros host (x & Hin & Hx).
    destruct (index_by_id_last host all_rdir 0 ∅) as (j & y & E & Hrest).
    { apply Exists_exists. by exists x. }
    by exists j, y.
  - intros k r E. destruct (index_by_id_origin _ _ _ _ _ E) as [Hm|Ho].
    + by rewrite lookup_empty in Hm.
    + destruct Ho as (j & x & -> & Hj & ->). by exists j, x.
Qed.

Lemma index_by_id_sound all_rdir :
  by_id_sound ns all_rdir (index_by_id ns 0 all_rdir ∅).
Proof.
  intros k r E. destruct (index_by_id_origin _ _ _ _ _ E) as [Hm|Ho].
  - by rewrite lookup_empty in Hm.
  - destruct Ho as (j & x & -> & Hj & ->). exists (addr x).
    split; [done|]. simpl. by rewrite Hj.
Qed.

End IndexExtras.

Lemma by_id_last_wins_witness :
  exists j x,
    index_by_id "NS" 0
      [Harness.rdir_with Harness.rdir1 2; Harness.rdir_with Harness.rdir2 4;
       Harness.rdir_with Harness.rdir1 9] ∅
      !! "NS|rdir|10.0.0.1:6301" = Some (Known j) /\
    [Harness.rdir_with Harness.rdir1 2; Harness.rdir_with Harness.rdir2 4;
     Harness.rdir_with Harness.rdir1 9] !! j = Some x /\
    addr x = Harness.rdir1.
Proof.
  destruct (proj1 (by_id_last_wins "NS"
                     [Harness.rdir_with Harness.rdir1 2;
                      Harness.rdir_with Harness.rdir2 4;
                      Harness.rdir_with Harness.rdir1 9]) Harness.rdir1)
    as (j & x & E & Hj & Hx & _).
  - exists (Harness.rdir_with Harness.rdir1 2).
    split; [apply list_elem_of_here|reflexivity].
  - by exists j, x.
Defined.

Section ReadExtras.

Variable b : Backend.
Variable ns : string.

Lemma get_assignment_outcome all_rdir by_id svc st :
  by_id_sound ns all_rdir by_id ->
  forall att by_id',
    fst (get_assignment b ns by_id svc st) = Ok (att, by_id') ->
    by_id_sound ns all_rdir by_id' /\
    (forall e,
        directory_list b (trace st) RDIR_ACCT (read_ref svc) "rdir" = Raise e ->
        att = None) /\
    (forall resp,
        directory_list b (trace st) RDIR_ACCT (read_ref svc) "rdir" = Ok resp ->
        no_rdir_entry resp -> att = None) /\
    (forall resp host,
        directory_list b (trace st) RDIR_ACCT (read_ref svc) "rdir" = Ok resp ->
        _filter_rdir_host resp = Ok host ->
        exists r, att = Some r /\ ref_addr all_rdir r = Some host).
Proof.
  intros Hsound att by_id'.
  unfold get_assignment, try_except, bind, directory_list_rdir, call, lift.
  simpl.
  destruct (directory_list b (trace st) RDIR_ACCT (read_ref svc) "rdir")
    as [resp|e] eqn:D.
  - destruct (_filter_rdir_host resp) as [host|e] eqn:F.
    + destruct (by_id !! _make_id ns "rdir" host) as [r|] eqn:L; simpl;
        intros [= <- <-].
      * split; [done|]. split; [done|]. split.
        -- intros resp' [= <-] Hno. unfold _filter_rdir_host in F.
           by rewrite find_rdir_none in F.
        -- intros resp' host' [= <-]. rewrite F. intros [= <-].
           exists r. split; [done|].
           destruct (Hsound _ _ L) as (a & Ha & Hr).
           apply make_id_inj in Ha. by subst a.
      * split.
        { intros k r E.
          destruct (decide (_make_id ns "rdir" host = k)) as [<-|Hne].
          - rewrite lookup_insert_eq in E. injection E as <-. by exists host.
          - rewrite lookup_insert_ne in E by done. by apply Hsound. }
        split; [done|]. split.
        -- intros resp' [= <-] Hno. unfold _filter_rdir_host in F.
           by rewrite find_rdir_none in F.
        -- intros resp' host' [= <-]. rewrite F. intros [= <-].
           by exists (Placeholder host).
    + destruct (is_NotFound e); simpl.
      * intros [= <- <-]. split; [done|]. split; [done|]. split; [done|].
        intros resp' host' [= <-]. by rewrite F.
      * destruct (is_OioException e); simpl; [|done].
        intros [= <- <-]. split; [done|]. split; [done|]. split; [done|].
        intros resp' host' [= <-]. by rewrite F.
  - destruct (is_NotFound e); simpl.
    + intros [= <- <-]. by repeat split.
    + destruct (is_OioException e); simpl; [|done].
      intros [= <- <-]. by repeat split.
Qed.

Lemma get_assignments_loop_outcome all_rdir services :
  forall by_id st out st',
  by_id_sound ns all_rdir by_id ->
  get_assignments_loop b ns by_id services st = (Ok out, st') ->
  forall i svc att, out !! i = Some (svc, att) ->
    exists tr,
      trace st `prefix_of` tr /\
      (tr ++ [lookup_event (read_ref svc)]) `prefix_of` trace st' /\
      (forall e,
          directory_list b tr RDIR_ACCT (read_ref svc) "rdir" = Raise e ->
          att = None) /\
      (forall resp,
          directory_list b tr RDIR_ACCT (read_ref svc) "rdir" = Ok resp ->
          no_rdir_entry resp -> att = None) /\
      (forall resp host,
          directory_list b tr RDIR_ACCT (read_ref svc) "rdir" = Ok resp ->
          _filter_rdir_host resp = Ok host ->
          exists r, att = Some r /\ ref_addr all_rdir r = Some host).
Proof.
  induction services as [|svc rest IH]; intros by_id st out st' Hsound; simpl.
  - intros [= <- <-]. by intros i s a.
  - unfold bind at 1.
    destruct (get_assignment_turn b ns by_id svc st) as (Ht & _).
    pose proof (get_assignment_outcome all_rdir by_id svc st Hsound) as Ho.
    destruct (get_assignment b ns by_id svc st) as [[[att by_id']|e] st1] eqn:G;
      [|done].
    simpl in Ht. destruct (Ho att by_id' eq_refl) as (Hsound' & Hout).
    unfold bind at 1. cbn [fst snd].
    destruct (get_assignments_loop b ns by_id' rest st1)
      as [[out'|e] st2] eqn:L; [|done].
    unfold ret. intros [= <- <-].
    destruct (emits_get_assignments_loop b ns any_event rest
                (fun _ => I) by_id' _ _ _ L) as (t2 & Et2 & _).
    intros [|i] svc' att' Hi; simpl in Hi.
    + injection Hi as <- <-. exists (trace st). split; [done|].
      split; [|done]. rewrite Et2, Ht. by apply prefix_app_r.
    + destruct (IH by_id' st1 out' st2 Hsound' L i svc' att' Hi)
        as (tr & Hp1 & Hrest).
      exists tr. split; [|done].
      etrans; [|exact Hp1]. rewrite Ht. by apply prefix_app_r.
Qed.

(** X22. In what [get_assignments] returns, a service whose lookup in
    the directory failed, or was answered without any [rdir] entry,
    carries nothing; a service whose lookup named an rdir host carries a
    record of that host: a listed rdir, or a placeholder for it. *)
Theorem get_assignments_attachments (service_type : string) (st : state)
    (out : list (service * option rdir_ref)) (all_rdir : list service)
    (st' : state) :
  get_assignments b ns service_type st = (Ok (out, all_rdir), st') ->
  forall i svc att, out !! i = Some (svc, att) ->
    exists tr,
      trace st `prefix_of` tr /\
      (tr ++ [lookup_event (read_ref svc)]) `prefix_of` trace st' /\
      (forall e,
          directory_list b tr RDIR_ACCT (read_ref svc) "rdir" = Raise e ->
          att = None) /\
      (forall resp,
          directory_list b tr RDIR_ACCT (read_ref svc) "rdir" = Ok resp ->
          no_rdir_entry resp -> att = None) /\
      (forall resp host,
          directory_list b tr RDIR_ACCT (read_ref svc) "rdir" = Ok resp ->
          _filter_rdir_host resp = Ok host ->
          exists r, att = Some r /\ ref_addr all_rdir r = Some host).
Proof.
  unfold get_assignments, all_of_type, call.
  unfold bind at 1. simpl.
  destruct (cs_all_services b (trace st) service_type false)
    as [all_services|e]; [|done].
  unfold bind at 1. simpl.
  destruct (cs_all_services b _ "rdir" true) as [fleet|e]; [|done].
  unfold bind at 1.
  destruct (get_assignments_loop b ns _ all_services _)
    as [[out'|e] st2] eqn:L; [|done].
  intros [= <- <- <-] i svc att Hi.
  destruct (get_assignments_loop_outcome fleet _ _ _ _ _
              (index_by_id_sound ns fleet) L i svc att Hi)
    as (tr & Hp1 & Hrest).
  exists tr. split; [|done].
  etrans; [|exact Hp1]. simpl. rewrite <- app_assoc. by apply prefix_app_r.
Qed.

End ReadExtras.

Lemma get_assignments_attachments_witness :
  exists out st' r,
    get_assignments Harness.stale_cluster "NS" "rawx" Harness.st0
      = (Ok (out, Harness.fleet246), st') /\
    out !! 0%nat = Some (Harness.rawx "10.0.0.8:6201", Some r) /\
    ref_addr Harness.fleet246 r = Some Harness.lost_rdir.
Proof.
  destruct (get_assignments Harness.stale_cluster "NS" "rawx" Harness.st0)
    as [res st'] eqn:E.
  assert (Hres : res = Ok ([(Harness.rawx "10.0.0.8:6201",
                             Some (Placeholder Harness.lost_rdir));
                            (Harness.rawx "10.0.0.9:6201",
                             Some (Placeholder Harness.lost_rdir))],
                           Harness.fleet246)).
  { apply (f_equal fst) in E. vm_compute in E. by rewrite <- E. }
  subst res.
  destruct (get_assignments_attachments _ _ _ _ _ _ _ E 0%nat
              (Harness.rawx "10.0.0.8:6201")
              (Some (Placeholder Harness.lost_rdir)) eq_refl)
    as (tr & _ & _ & _ & _ & Hhost).
  destruct (Hhost [SrvEntry "rdir" Harness.lost_rdir] Harness.lost_rdir
              eq_refl eq_refl) as (r & Hr & Ha).
  eexists. exists st', r. split; [reflexivity|]. split; [|exact Ha].
  simpl. by rewrite Hr.
Defined.

(* ===================================================================== *)
(** ** Further properties: what a batch sends *)
(* ===================================================================== *)

Section BatchEvents.

Variable b : Backend.
Variable ns : string.
Context {K : Type} `{EqDecision K}.
Variable signature : exn -> K.
Variable repr_errors : list (exn * list string) -> string.

Lemma emits_batch_smart_link v fleet mpr ma ty :
  emits (batch_event ns ty) (_smart_link_rdir b ns v fleet mpr ma ty).
Proof.
  assert (HP : forall avoid,
            batch_event ns ty
              (EvPoll "__rawx_rdir" avoid (Some [_make_id ns ty v]))).
  { intros avoid. split; [done|]. by exists v. }
  unfold _smart_link_rdir.
  destruct (Z.of_nat (length (opened_db fleet)) <=? 0); [apply emits_raise|].
  apply emits_bind.
  - apply emits_try; [by apply emits_poll_rdir|]. intros exc.
    destruct (is_ClientException exc); [|apply emits_raise].
    destruct (negb (status_eq exc 481) || truthy mpr); [apply emits_raise|].
    by apply emits_poll_rdir.
  - intros polled. unfold link_polled.
    apply emits_bind; [by apply emits_force_loop|]. intros _.
    apply emits_bind; [|intros; apply emits_ret].
    apply emits_try; [|intros; apply emits_ret].
    unfold create. apply emits_bind; [|intros; apply emits_ret].
    apply emits_rdir_request_shape; [done|].
    intros host prefix B. split; [done|]. split; [done|].
    by exists host, prefix, v.
Qed.

Lemma emits_batch_assign_provider ty mpr by_id s provider :
  emits (batch_event ns ty) (assign_provider b ns ty mpr by_id s provider).
Proof.
  unfold assign_provider. apply emits_try.
  - apply emits_bind; [by apply emits_directory_list_rdir|]. intros resp.
    apply emits_bind; [apply emits_lift|]. intros host.
    destruct (by_id !! _); apply emits_ret.
  - intros exc. destruct (is_NotFound exc).
    + intros st r st'.
      destruct (_smart_link_rdir b ns (provider_id provider) (rdirs s) mpr 7
                  ty st) as [[rdir|exc'] st1] eqn:E;
        pose proof (emits_batch_smart_link _ _ _ _ _ _ _ _ E) as Hem.
      * destruct (by_id !! rdir) as [[i|h]|];
          [destruct (rdirs s !! i)| |]; by intros [= <- <-].
      * destruct (is_OioException exc'); by intros [= <- <-].
    + destruct (is_OioException exc); [apply emits_ret|apply emits_raise].
Qed.

Lemma emits_batch_loop ty mpr by_id providers : forall s,
  emits (batch_event ns ty) (assign_services_loop b ns ty mpr by_id s providers).
Proof.
  induction providers as [|p rest IH]; intros s; simpl; [apply emits_ret|].
  apply emits_bind; [apply emits_batch_assign_provider|]. intros r.
  apply emits_bind; [apply IH|]. intros out. apply emits_ret.
Qed.

Lemma emits_batch ty mpr :
  emits (batch_event ns ty)
    (assign_services b ns signature repr_errors ty mpr).
Proof.
  unfold assign_services, all_of_type.
  apply emits_bind; [by apply emits_call|]. intros all_services.
  apply emits_bind; [by apply emits_call|]. intros all_rdir.
  destruct (Z.of_nat (length all_rdir) <=? 0); [apply emits_raise|].
  apply emits_bind; [apply emits_batch_loop|]. intros out.
  unfold raise_collected. destruct (errors (snd out)); [apply emits_ret|].
  destruct (group_chunk_errors signature _) as [|[err addrs] [|g gs]];
    apply emits_raise.
Qed.

(** X23. The service type of a batch decides what it sends.  Every poll
    of [assign_services] names, as known service, a volume under the
    type of the batch, and every request to an rdir is a [create] under
    the path of that type: [assign_all_rawx] posts to [/v1/rdir/create]
    and [assign_all_meta2] to [/v1/rdir/meta2/create].  For a type
    without a path no request is sent at all, though the links are
    written. *)
Theorem assign_services_events (service_type : string)
    (max_per_rdir : option Z) :
  emits (batch_event ns service_type)
    (assign_services b ns signature repr_errors service_type max_per_rdir) /\
  emits (creates_under "/v1/rdir/create")
    (assign_all_rawx b ns signature repr_errors max_per_rdir) /\
  emits (creates_under "/v1/rdir/meta2/create")
    (assign_all_meta2 b ns signature repr_errors max_per_rdir) /\
  (forall volume_id,
      emits (creates_under "/v1/rdir/meta2/create")
        (meta2_index_create b volume_id)) /\
  (base_url service_type = None ->
   emits (fun ev => is_request ev = false)
     (assign_services b ns signature repr_errors service_type max_per_rdir)).
Proof.
  split; [apply emits_batch|]. split; [|split; [|split]].
  - eapply emits_weaken; [|apply (emits_batch "rawx")].
    intros [] Hev; try done. simpl in *.
    destruct Hev as (-> & _ & host & prefix & v & [= <-] & -> & _).
    split; [done|]. by exists host.
  - eapply emits_weaken; [|apply (emits_batch "meta2")].
    intros [] Hev; try done. simpl in *.
    destruct Hev as (-> & _ & host & prefix & v & [= <-] & -> & _).
    split; [done|]. by exists host.
  - intros volume_id. unfold meta2_index_create, create.
    apply emits_bind; [|intros; apply emits_ret].
    apply emits_rdir_request_shape; [done|].
    intros host prefix [= <-]. split; [done|]. by exists host.
  - intros Hb. eapply emits_weaken; [|apply (emits_batch service_type)].
    intros [] Hev; try done. simpl in *.
    destruct Hev as (_ & _ & host & prefix & v & B & _). congruence.
Qed.

End BatchEvents.

Lemma assign_services_events_witness :
  Forall (fun ev => is_request ev = false)
    (trace (snd (assign_services Harness.stray_pool "NS" exc_class
                   Harness.repr_count "account" None Harness.st0))).
Proof.
  destruct (assign_services Harness.stray_pool "NS" exc_class
              Harness.repr_count "account" None Harness.st0)
    as [r st'] eqn:E.
  destruct (proj2 (proj2 (proj2 (proj2
              (assign_services_events Harness.stray_pool "NS" exc_class
                 Harness.repr_count "account" None)))) eq_refl _ _ _ E)
    as (t & Et & Ft).
  simpl. rewrite Et. exact Ft.
Defined.
